(** * mousekey: key-sequence compiler, injection paths and scheduler split

    A shallow embedding of the keyboard half of [src/__init__.py]:
    [log_split], [Press], the [KeyAction] class family, [handle_code],
    [parse_keys] and [send_keystrokes], followed by the properties of the
    specification that concern them.

    Conventions of the embedding.
    - A Python [str] is a [string]; its characters are the code points below
      256, which covers every character the tables of the source mention.
      A character is a [str] of length one, as in Python.
    - A Python [int] is a [Z]; an index into a [str] or a [list] is a [nat].
    - A call that may raise returns a [result]; the constructors of [exn]
      are the exception classes the modelled code can raise.
    - Calls into the operating system are recorded as [Event]s on a trace.
      What the system answers is read from an [OS] record. *)

From Stdlib Require Import ZArith Ascii String List Bool Lia.
From stdpp Require Import base option list gmap strings pretty.
Import ListNotations.

Local Open Scope Z_scope.

(** ** Exceptions and results *)

Inductive exn : Type :=
| KeySequenceError (msg : string)
| RuntimeError (msg : string)
| ValueError
| IndexError
| TypeError
| AttributeError
| ArgumentError
| WinError.

(** [OutOfFuel] belongs to the embedding only: it is what a function with
    a fuel argument answers when the fuel is used up, and it is no outcome
    of the Python code. *)
Inductive result (A : Type) : Type :=
| Ok (a : A)
| Raise (e : exn)
| OutOfFuel.

Arguments Ok {A} a.
Arguments Raise {A} e.
Arguments OutOfFuel {A}.

#[global] Instance result_ret : MRet result := fun A a => Ok a.

#[global] Instance result_bind : MBind result := fun A B k m =>
  match m with
  | Ok a => k a
  | Raise e => Raise e
  | OutOfFuel => OutOfFuel
  end.

#[global] Instance result_fmap : FMap result := fun A B f m =>
  match m with
  | Ok a => Ok (f a)
  | Raise e => Raise e
  | OutOfFuel => OutOfFuel
  end.

(** ** The parts of Python's [str] the compiler uses *)

Module Py.

(** [len(s)] *)
Definition len (s : string) : nat := String.length s.

(** [s[i]] for [i < len(s)]; the callers test the bound first. *)
Definition getitem (s : string) (i : nat) : option string :=
  match String.get i s with
  | Some a => Some (String a EmptyString)
  | None => None
  end.

(** [s[i:j]] *)
Definition slice (s : string) (i j : nat) : string :=
  String.substring i (j - i) s.

(** [s.find(sub, start)]; [None] stands for the result [-1]. *)
Definition find (sub s : string) (start : nat) : option nat :=
  String.index start sub s.

(** [sub in s] *)
Definition contains (sub s : string) : bool :=
  match String.index 0 sub s with
  | Some _ => true
  | None => false
  end.

Definition lower_ascii (a : ascii) : ascii :=
  let n := nat_of_ascii a in
  if ((65 <=? n) && (n <=? 90))%nat then ascii_of_nat (n + 32) else a.

(** [s.lower()] *)
Fixpoint lower (s : string) : string :=
  match s with
  | EmptyString => EmptyString
  | String a s' => String (lower_ascii a) (lower s')
  end.

(** [str.isspace] on one character (code points below 256). *)
Definition isspace (a : ascii) : bool :=
  let n := nat_of_ascii a in
  (((9 <=? n) && (n <=? 13)) || ((28 <=? n) && (n <=? 32))
   || (n =? 133) || (n =? 160))%nat.

Definition isdigit (a : ascii) : bool :=
  let n := nat_of_ascii a in ((48 <=? n) && (n <=? 57))%nat.

Definition digit_val (a : ascii) : Z := Z.of_nat (nat_of_ascii a) - 48.

Fixpoint drop_while (p : ascii -> bool) (l : list ascii) : list ascii :=
  match l with
  | [] => []
  | a :: l' => if p a then drop_while p l' else l
  end.

Fixpoint take_while (p : ascii -> bool) (l : list ascii) : list ascii :=
  match l with
  | [] => []
  | a :: l' => if p a then a :: take_while p l' else []
  end.

Definition chars (s : string) : list ascii := list_ascii_of_string s.
Definition str (l : list ascii) : string := string_of_list_ascii l.

(** [s.strip()] *)
Definition strip (s : string) : string :=
  str (rev (drop_while isspace (rev (drop_while isspace (chars s))))).

(** [s.split(" ")]: cut at every single space. *)
Fixpoint split_space_go (cur : list ascii) (l : list ascii) : list string :=
  match l with
  | [] => [str (rev cur)]
  | a :: l' =>
      if Ascii.eqb a " "%char
      then str (rev cur) :: split_space_go [] l'
      else split_space_go (a :: cur) l'
  end.

Definition split_space (s : string) : list string :=
  split_space_go [] (chars s).

(** [s.rsplit(None, 1)]: the last whitespace-separated word and, when
    something other than whitespace precedes it, what precedes it with the
    whitespace between the two removed. *)
Definition rsplit1 (s : string) : list string :=
  let r := drop_while isspace (rev (chars s)) in
  match r with
  | [] => []
  | _ =>
      let word := rev (take_while (fun a => negb (isspace a)) r) in
      let rest := drop_while isspace
                    (drop_while (fun a => negb (isspace a)) r) in
      match rest with
      | [] => [str word]
      | _ => [str (rev rest); str word]
      end
  end.

(** A run of decimal digits in which single underscores may separate
    digits: the digit part of Python's numeric literals. [acc] is the value
    read so far, [prev] tells whether the previous character was a digit. *)
Fixpoint digits_go (acc : Z) (prev : bool) (l : list ascii) : option Z :=
  match l with
  | [] => if prev then Some acc else None
  | a :: l' =>
      if isdigit a then digits_go (10 * acc + digit_val a) true l'
      else if Ascii.eqb a "_"%char
           then (if prev then digits_go acc false l' else None)
           else None
  end.

Definition digits (l : list ascii) : option Z :=
  match l with
  | [] => None
  | _ => digits_go 0 false l
  end.

(** [int(s)] in base ten, for [s] free of whitespace (the callers pass a
    word cut out by [rsplit1]); [None] stands for [ValueError]. *)
Definition int (s : string) : option Z :=
  match chars s with
  | a :: l =>
      if Ascii.eqb a "-"%char then Z.opp <$> digits l
      else if Ascii.eqb a "+"%char then digits l
      else digits (a :: l)
  | [] => None
  end.

Definition is_digits (l : list ascii) : bool :=
  match digits l with Some _ => true | None => false end.

(** The exponent of a float literal: [e] or [E], an optional sign, digits. *)
Definition is_exponent (l : list ascii) : bool :=
  match l with
  | [] => true
  | a :: l' =>
      if Ascii.eqb (lower_ascii a) "e"%char then
        match l' with
        | s :: l'' =>
            if Ascii.eqb s "-"%char || Ascii.eqb s "+"%char
            then is_digits l'' else is_digits l'
        | [] => false
        end
      else false
  end.

Definition is_digit_part (a : ascii) : bool :=
  isdigit a || Ascii.eqb a "_"%char.

(** The unsigned part of a float literal: digits, an optional point with
    optional digits either side (not both missing), an optional exponent. *)
Definition is_float_body (l : list ascii) : bool :=
  let ip := take_while is_digit_part l in
  let r := drop_while is_digit_part l in
  match r with
  | a :: r' =>
      if Ascii.eqb a "."%char then
        let fp := take_while is_digit_part r' in
        let e := drop_while is_digit_part r' in
        match ip, fp with
        | [], [] => false
        | [], _ => is_digits fp && is_exponent e
        | _, [] => is_digits ip && is_exponent e
        | _, _ => is_digits ip && is_digits fp && is_exponent e
        end
      else is_digits ip && is_exponent r
  | [] => is_digits ip
  end.

Definition is_float_word (l : list ascii) : bool :=
  let w := str (map lower_ascii l) in
  String.eqb w "inf" || String.eqb w "infinity" || String.eqb w "nan".

(** [float(s)] for [s] free of whitespace. The value of a float is outside
    the embedding: on success the literal that was accepted is returned;
    [None] stands for [ValueError]. *)
Definition float (s : string) : option string :=
  let l := chars s in
  let body :=
    match l with
    | a :: l' =>
        if Ascii.eqb a "-"%char || Ascii.eqb a "+"%char then l' else l
    | [] => []
    end in
  if is_float_word body || is_float_body body then Some s else None.

(** [ord(c)]: defined on strings of length one. *)
Definition ord (c : string) : option Z :=
  match c with
  | String a EmptyString => Some (Z.of_nat (nat_of_ascii a))
  | _ => None
  end.

(** [l * n] for a list [l] and an integer [n]: empty when [n <= 0]. (For
    a count that does not fit a machine word, or a list too large for the
    memory, Python raises instead; the embedding has no such bound, which
    bears only on whether a huge repetition compiles.) *)
Definition list_mul {A : Type} (l : list A) (n : Z) : list A :=
  concat (replicate (Z.to_nat n) l).

End Py.

(** ** Constants and tables *)

Definition KEYEVENTF_EXTENDEDKEY : Z := 1.
Definition KEYEVENTF_KEYUP : Z := 2.
Definition KEYEVENTF_UNICODE : Z := 4.

Definition VK_SHIFT : Z := 16.
Definition VK_CONTROL : Z := 17.
Definition VK_MENU : Z := 18.

Definition WM_SYSKEYDOWN : Z := 260.
Definition WM_SYSKEYUP : Z := 261.
Definition WM_KEYDOWN : Z := 256.
Definition WM_KEYUP : Z := 257.

(** The named-key table. *)
Definition CODES : gmap string Z := list_to_map [
    ("BACK", 8); ("BACKSPACE", 8); ("BKSP", 8); ("BREAK", 3); ("BS", 8);
    ("CAP", 20); ("CAPSLOCK", 20); ("DEL", 46); ("DELETE", 46);
    ("DOWN", 40); ("END", 35); ("ENTER", 13); ("ESC", 27); ("F1", 112);
    ("F2", 113); ("F3", 114); ("F4", 115); ("F5", 116); ("F6", 117);
    ("F7", 118); ("F8", 119); ("F9", 120); ("F10", 121); ("F11", 122);
    ("F12", 123); ("F13", 124); ("F14", 125); ("F15", 126); ("F16", 127);
    ("F17", 128); ("F18", 129); ("F19", 130); ("F20", 131); ("F21", 132);
    ("F22", 133); ("F23", 134); ("F24", 135); ("HELP", 47); ("HOME", 36);
    ("INS", 45); ("INSERT", 45); ("LEFT", 37); ("LWIN", 91);
    ("NUMLOCK", 144); ("PGDN", 34); ("PGUP", 33); ("PRTSC", 44);
    ("RIGHT", 39); ("RMENU", 165); ("RWIN", 92); ("SCROLLLOCK", 145);
    ("SPACE", 32); ("TAB", 9); ("UP", 38); ("VK_ACCEPT", 30);
    ("VK_ADD", 107); ("VK_APPS", 93); ("VK_ATTN", 246); ("VK_BACK", 8);
    ("VK_CANCEL", 3); ("VK_CAPITAL", 20); ("VK_CLEAR", 12);
    ("VK_CONTROL", 17); ("VK_CONVERT", 28); ("VK_CRSEL", 247);
    ("VK_DECIMAL", 110); ("VK_DELETE", 46); ("VK_DIVIDE", 111);
    ("VK_DOWN", 40); ("VK_END", 35); ("VK_EREOF", 249); ("VK_ESCAPE", 27);
    ("VK_EXECUTE", 43); ("VK_EXSEL", 248); ("VK_F1", 112); ("VK_F2", 113);
    ("VK_F3", 114); ("VK_F4", 115); ("VK_F5", 116); ("VK_F6", 117);
    ("VK_F7", 118); ("VK_F8", 119); ("VK_F9", 120); ("VK_F10", 121);
    ("VK_F11", 122); ("VK_F12", 123); ("VK_F13", 124); ("VK_F14", 125);
    ("VK_F15", 126); ("VK_F16", 127); ("VK_F17", 128); ("VK_F18", 129);
    ("VK_F19", 130); ("VK_F20", 131); ("VK_F21", 132); ("VK_F22", 133);
    ("VK_F23", 134); ("VK_F24", 135); ("VK_FINAL", 24); ("VK_HANGEUL", 21);
    ("VK_HANGUL", 21); ("VK_HANJA", 25); ("VK_HELP", 47); ("VK_HOME", 36);
    ("VK_INSERT", 45); ("VK_JUNJA", 23); ("VK_KANA", 21); ("VK_KANJI", 25);
    ("VK_LBUTTON", 1); ("VK_LCONTROL", 162); ("VK_LEFT", 37);
    ("VK_LMENU", 164); ("VK_LSHIFT", 160); ("VK_LWIN", 91);
    ("VK_MBUTTON", 4); ("VK_MENU", 18); ("VK_MODECHANGE", 31);
    ("VK_MULTIPLY", 106); ("VK_NEXT", 34); ("VK_NONAME", 252);
    ("VK_NONCONVERT", 29); ("VK_NUMLOCK", 144); ("VK_NUMPAD0", 96);
    ("VK_NUMPAD1", 97); ("VK_NUMPAD2", 98); ("VK_NUMPAD3", 99);
    ("VK_NUMPAD4", 100); ("VK_NUMPAD5", 101); ("VK_NUMPAD6", 102);
    ("VK_NUMPAD7", 103); ("VK_NUMPAD8", 104); ("VK_NUMPAD9", 105);
    ("VK_OEM_CLEAR", 254); ("VK_PA1", 253); ("VK_PAUSE", 19);
    ("VK_PLAY", 250); ("VK_PRINT", 42); ("VK_PRIOR", 33);
    ("VK_PROCESSKEY", 229); ("VK_RBUTTON", 2); ("VK_RCONTROL", 163);
    ("VK_RETURN", 13); ("VK_RIGHT", 39); ("VK_RMENU", 165);
    ("VK_RSHIFT", 161); ("VK_RWIN", 92); ("VK_SCROLL", 145);
    ("VK_SELECT", 41); ("VK_SEPARATOR", 108); ("VK_SHIFT", 16);
    ("VK_SNAPSHOT", 44); ("VK_SPACE", 32); ("VK_SUBTRACT", 109);
    ("VK_TAB", 9); ("VK_UP", 38); ("ZOOM", 251) ].

Definition MODIFIERS : gmap string Z :=
  list_to_map [ ("+", VK_SHIFT); ("^", VK_CONTROL); ("%", VK_MENU) ].

Definition ascii_uppercase : string := "ABCDEFGHIJKLMNOPQRSTUVWXYZ".
Definition ascii_lowercase : string := "abcdefghijklmnopqrstuvwxyz".
Definition digits : string := "0123456789".

Definition one_char (a : ascii) : string := String a EmptyString.

Definition upper_ascii (a : ascii) : ascii :=
  let n := nat_of_ascii a in
  if ((97 <=? n) && (n <=? 122))%nat then ascii_of_nat (n - 32) else a.

Definition ord_ascii (a : ascii) : Z := Z.of_nat (nat_of_ascii a).

(** [ascii_vk]: the literal table, then the two [update]s, each of which
    overrides what was there before. *)
Definition ascii_vk : gmap string Z :=
  let literal : gmap string Z := list_to_map [
    (" ", 32); ("=", 187); (",", 188); ("-", 189); (".", 190); (";", 186);
    ("/", 191); ("`", 192); ("[", 219); ("\", 220); ("]", 221);
    ("'", 222) ] in
  let upd1 : gmap string Z := list_to_map
    ((fun a => (one_char a, ord_ascii a))
       <$> Py.chars (ascii_uppercase +:+ digits)) in
  let upd2 : gmap string Z := list_to_map
    ((fun a => (one_char a, ord_ascii (upper_ascii a)))
       <$> Py.chars ascii_lowercase) in
  upd2 ∪ (upd1 ∪ literal).

(** ** The action classes

    [KeyAction] and its subclasses. [key] is a one-character [str] for
    [KeyAction] and [EscapedKeyAction] and a virtual-key code for
    [VirtualKeyAction]; [PauseAction] has no [key], [down] or [up]
    attribute, its constructor sets [how_long] only. *)

Inductive Action : Type :=
| KeyAction (key : string) (down up : bool)
| VirtualKeyAction (key : Z) (down up : bool)
| EscapedKeyAction (key : string) (down up : bool)
| PauseAction (how_long : string).

#[global] Instance Action_eq_dec : EqDecision Action.
Proof. solve_decision. Defined.

(** [k.down = False] and [k.up = False]: attribute assignment works on any
    instance, a [PauseAction] included (it gains an attribute nothing reads
    in the embedding). *)
Definition set_down_false (k : Action) : Action :=
  match k with
  | KeyAction key _ up => KeyAction key false up
  | VirtualKeyAction key _ up => VirtualKeyAction key false up
  | EscapedKeyAction key _ up => EscapedKeyAction key false up
  | PauseAction t => PauseAction t
  end.

Definition set_up_false (k : Action) : Action :=
  match k with
  | KeyAction key down _ => KeyAction key down false
  | VirtualKeyAction key down _ => VirtualKeyAction key down false
  | EscapedKeyAction key down _ => EscapedKeyAction key down false
  | PauseAction t => PauseAction t
  end.

(** ** The compiler: [handle_code] and [parse_keys] *)

(** [handle_code(code, vk_packet)]. The recursive use of [parse_keys] on the
    text to repeat comes in as [parse_keys_rec]; [parse_keys_while] below
    ties the knot. *)
Definition handle_code
    (parse_keys_rec : string -> bool -> result (list Action))
    (code : string) (vk_packet : bool) : result (list Action) :=
  match CODES !! code with
  | Some vk => Ok [VirtualKeyAction vk true true]
  | None =>
      if (Py.len code =? 1)%nat then
        match (if negb vk_packet then ascii_vk !! code else None) with
        | Some vk => Ok [VirtualKeyAction vk true true]
        | None => Ok [KeyAction code true true]
        end
      else if Py.contains " " code then
        match Py.rsplit1 code with
        | [to_repeat; count] =>
            if String.eqb to_repeat "PAUSE" then
              match Py.float count with
              | Some pause_time => Ok [PauseAction pause_time]
              | None =>
                  Raise (KeySequenceError ("invalid pause time " +:+ count))
              end
            else
              match Py.int count with
              | None =>
                  Raise (KeySequenceError
                           ("invalid repetition count " +:+ count))
              | Some n =>
                  match CODES !! to_repeat with
                  | Some vk =>
                      Ok (Py.list_mul [VirtualKeyAction vk true true] n)
                  | None =>
                      keys ← parse_keys_rec to_repeat vk_packet;
                      Ok (Py.list_mul keys n)
                  end
              end
        | _ => Raise ValueError
        end
      else Raise (RuntimeError ("Unknown code: " +:+ code))
  end.

(** The releases emitted by [while modifiers: keys.append(VirtualKeyAction(
    modifiers.pop(), down=False))]: last pushed, first released. *)
Definition release_all (modifiers : list Z) : list Action :=
  (fun m => VirtualKeyAction m false true) <$> rev modifiers.

(** [any(key_event in code.lower() for key_event in [" up", " down"])] *)
Definition has_key_event (code : string) : bool :=
  Py.contains " up" (Py.lower code) || Py.contains " down" (Py.lower code).

(** The braces branch after [code] has been cut out: the optional
    [up]/[down] qualifier, [handle_code], and the rewriting of the first
    action. Returns the actions and the new [should_escape_next_keys].

    The assignments to [current_keys[0].down] and [.up] mutate an object.
    They run only after [code.split(" ")] produced the code, which is then
    free of spaces, so [handle_code] built a single new action
    ([handle_code_no_space] below) and no other reference to it exists. *)
Definition parse_braces
    (parse_keys_rec : string -> bool -> result (list Action))
    (code : string) (vk_packet should_escape_next_keys : bool)
    : result (list Action * bool) :=
  '(code, current_key_event, should_escape_next_keys) ←
    (if has_key_event code then
       match Py.split_space code with
       | [c; e] => Ok (c, Some e, true)
       | _ => Raise ValueError
       end
     else Ok (code, None, should_escape_next_keys));
  current_keys ← handle_code parse_keys_rec code vk_packet;
  match current_key_event with
  | None => Ok (current_keys, should_escape_next_keys)
  | Some ev =>
      match current_keys with
      | [] => Raise IndexError
      | k0 :: rest =>
          k0 ← match k0 with
               | KeyAction key _ _ | EscapedKeyAction key _ _ =>
                   Ok (EscapedKeyAction key true true)
               | VirtualKeyAction _ _ _ => Ok k0
               | PauseAction _ => Raise AttributeError
               end;
          let k0 :=
            if String.eqb (Py.strip ev) "up"
            then set_down_false k0 else set_up_false k0 in
          Ok (k0 :: rest, should_escape_next_keys)
      end
  end.

(** The body of [parse_keys] from [while index < len(string)] on.

    - [fuel] bounds the number of loop iterations plus the depth of the
      recursive calls; [S (len string)] is enough ([parse_keys_total]
      below), and [parse_keys] passes that.
    - [modifiers] is the list object the loop appends to and pops from. A
      recursive call for a parenthesised group receives that very object
      when it is non-empty ([if not modifiers: modifiers = []] keeps it) and
      a fresh list otherwise; the second component of the result is the
      content of the callee's list at return, which the caller adopts in the
      first case. *)
Fixpoint parse_keys_while (fuel : nat) (string : string)
    (with_spaces with_tabs with_newlines vk_packet : bool)
    (keys : list Action) (modifiers : list Z)
    (should_escape_next_keys : bool) (index : nat)
    : result (list Action * list Z) :=
  match fuel with
  | O => OutOfFuel
  | S fuel =>
      let parse_keys_in (s : String.string) (mods : list Z) (vkp : bool) :=
        parse_keys_while fuel s false false false vkp [] mods false 0%nat in
      let next keys modifiers esc index :=
        parse_keys_while fuel string with_spaces with_tabs with_newlines
          vk_packet keys modifiers esc index in
      (* the end of an iteration: release the modifiers, loop *)
      let released keys modifiers esc index :=
        next (keys ++ release_all modifiers) [] esc index in
      match Py.getitem string index with
      | None => Ok (keys ++ release_all modifiers, [])
      | Some c =>
          let index := S index in
          match MODIFIERS !! c with
          | Some modifier =>
              next (keys ++ [VirtualKeyAction modifier true false])
                   (modifiers ++ [modifier]) should_escape_next_keys index
          | None =>
              if String.eqb c "(" then
                match Py.find ")" string index with
                | None => Raise (KeySequenceError "`)` not found")
                | Some end_pos =>
                    '(sub, mods') ←
                      parse_keys_in (Py.slice string index end_pos)
                        modifiers vk_packet;
                    let modifiers :=
                      match modifiers with [] => [] | _ => mods' end in
                    released (keys ++ sub) modifiers
                      should_escape_next_keys (S end_pos)
                end
              else if String.eqb c "{" then
                match Py.find "}" string (S index) with
                | None => Raise (KeySequenceError "`}` not found")
                | Some end_pos =>
                    let code := Py.slice string index end_pos in
                    '(current_keys, esc) ←
                      parse_braces
                        (fun s vkp => fst <$> parse_keys_in s [] vkp)
                        code vk_packet should_escape_next_keys;
                    released (keys ++ current_keys) modifiers esc
                      (S end_pos)
                end
              else if String.eqb c ")" then
                Raise (KeySequenceError "`)` should be preceeded by `(`")
              else if String.eqb c "}" then
                Raise (KeySequenceError "`}` should be preceeded by `{`")
              else if (String.eqb c " " && negb with_spaces)
                      || (String.eqb c (one_char "009") && negb with_tabs)
                      || (String.eqb c (one_char "010")
                          && negb with_newlines) then
                next keys modifiers should_escape_next_keys index
              else
                let k :=
                  if String.eqb c "~" || String.eqb c (one_char "010") then
                    VirtualKeyAction 13 true true (* CODES["ENTER"] *)
                  else if negb (bool_decide (modifiers = []))
                          || should_escape_next_keys then
                    EscapedKeyAction c true true
                  else
                    match (if negb vk_packet then ascii_vk !! c
                           else None) with
                    | Some vk => VirtualKeyAction vk true true
                    | None => KeyAction c true true
                    end in
                released (keys ++ [k]) modifiers should_escape_next_keys
                  index
          end
      end
  end.

(** [parse_keys(string, with_spaces, with_tabs, with_newlines,
    vk_packet=vk_packet)] as its callers outside the compiler use it:
    [modifiers] is left at its default [None]. *)
Definition parse_keys (string : string)
    (with_spaces with_tabs with_newlines vk_packet : bool)
    : result (list Action) :=
  fst <$> parse_keys_while (S (Py.len string)) string
            with_spaces with_tabs with_newlines vk_packet [] [] false 0%nat.

(** [parse_keys(string)] with every option at its default. *)
Definition compile (string : string) : result (list Action) :=
  parse_keys string false false false true.


(** ** The operating system

    The answers of the foreign functions. The layout functions depend on
    their arguments only; [SendInput] also sees the events so far. The
    functions the targeted path calls report failure through their return
    value and have no [errcheck], so calling them does not raise. *)

Record KEYBDINPUT : Type := {
  wVk : Z;
  wScan : Z;
  dwFlags : Z;
  dwExtraInfo : Z
}.

(** A [c_ubyte * 256] array. *)
Abbreviation PBYTE256 := (list Z).

Inductive Event : Type :=
| call_SendInput (inputs : list KEYBDINPUT) (inserted : Z)
| call_sleep (seconds : string)
| call_PostMessage (hWnd Msg wParam lParam : Z)
| call_SetKeyboardState (lpKeyState : PBYTE256)
| call_AttachThreadInput (idAttach idAttachTo : Z) (fAttach : bool)
| call_SendMessageA (hWnd Msg wParam lParam : Z)
| call_SendMessage (hWnd Msg wParam lParam : Z)
| call_EnableWindow (hWnd : Z) (bEnable : bool)
| call_force_activate_window (hwnd : Z)
| call_deactivate_topmost (hwnd : Z)
| call_warn (message : string)
| call_print (text : string).

Record OS : Type := {
  VkKeyScanW : string -> Z;
  VkKeyScanExW : string -> Z -> Z;
  MapVirtualKeyW : Z -> Z -> Z;
  MapVirtualKeyExW : Z -> Z -> Z -> Z;
  GetMessageExtraInfo : Z;
  SendInput : list Event -> list KEYBDINPUT -> Z;
  GetWindowThreadProcessId : Z -> Z;
  GetCurrentThreadId : Z;
  AttachThreadInput : Z -> Z -> bool -> Z;
  GetKeyboardState : nat -> Z;
  GetKeyboardLayout : Z -> Z
}.

(** ** Computations with a state that survives an exception *)

Definition M (S A : Type) : Type := S -> result A * S.

Definition mret {S A : Type} (a : A) : M S A := fun s => (Ok a, s).

Definition mbind {S A B : Type} (m : M S A) (k : A -> M S B) : M S B :=
  fun s =>
    match m s with
    | (Ok a, s') => k a s'
    | (Raise e, s') => (Raise e, s')
    | (OutOfFuel, s') => (OutOfFuel, s')
    end.

Definition raise {S A : Type} (e : exn) : M S A := fun s => (Raise e, s).

(** [try: m except Exception as e: h e] *)
Definition try_except {S A : Type} (m : M S A) (h : exn -> M S A) : M S A :=
  fun s =>
    match m s with
    | (Raise e, s') => h e s'
    | r => r
    end.

Definition lift_result {S A : Type} (r : result A) : M S A := fun s => (r, s).

Notation "'do' x <- m ; k" := (mbind m (fun x => k))
  (at level 10, x name, m at level 100, k at level 200, only parsing).
Notation "'do' ' pat <- m ; k" :=
  (mbind m (fun x => match x with pat => k end))
  (at level 10, pat pattern, m at level 100, k at level 200, only parsing).
Notation "m ;; k" := (mbind m (fun _ => k))
  (at level 100, k at level 200, right associativity, only parsing).

(** A state that carries the events so far. *)
Class Events (S : Type) : Type := {
  history : S -> list Event;
  record : Event -> S -> S
}.

#[global] Instance trace_events : Events (list Event) := {
  history := fun t => t;
  record := fun ev t => t ++ [ev]
}.

Definition call {S : Type} `{Events S} (ev : Event) : M S unit :=
  fun s => (Ok tt, record ev s).

Definition get_history {S : Type} `{Events S} : M S (list Event) :=
  fun s => (Ok (history s), s).

(** [for x in l: body x] *)
Fixpoint for_each {S A : Type} (l : list A) (body : A -> M S unit)
    : M S unit :=
  match l with
  | [] => mret tt
  | x :: l' => body x ;; for_each l' body
  end.

(** ** The global injection path *)

Definition LoByte (val : Z) : Z := Z.land val 255.

(** The value a [WORD] field holds after an assignment. *)
Definition WORD (v : Z) : Z := Z.land v 65535.

(** [_get_key_info]: virtual key, scan code and flags, by class.
    [PauseAction] inherits the method of [KeyAction] and has no [key]. *)
Definition get_key_info (os : OS) (k : Action) : result (Z * Z * Z) :=
  match k with
  | KeyAction key _ _ =>
      match Py.ord key with
      | Some cp => Ok (0, cp, KEYEVENTF_UNICODE)
      | None => Raise TypeError
      end
  | VirtualKeyAction key _ _ =>
      let flags :=
        if ((33 <=? key) && (key <=? 46)) || ((91 <=? key) && (key <=? 93))
        then KEYEVENTF_EXTENDEDKEY else 0 in
      Ok (key, MapVirtualKeyW os key 0, flags)
  | EscapedKeyAction key _ _ =>
      if (Py.len key =? 1)%nat then
        let vkey_scan := LoByte (VkKeyScanW os key) in
        Ok (vkey_scan, MapVirtualKeyW os vkey_scan 0, 0)
      else Raise ArgumentError
  | PauseAction _ => Raise AttributeError
  end.

Definition action_down (k : Action) : result bool :=
  match k with
  | KeyAction _ d _ | VirtualKeyAction _ d _ | EscapedKeyAction _ d _ => Ok d
  | PauseAction _ => Raise AttributeError
  end.

Definition action_up (k : Action) : result bool :=
  match k with
  | KeyAction _ _ u | VirtualKeyAction _ _ u | EscapedKeyAction _ _ u => Ok u
  | PauseAction _ => Raise AttributeError
  end.

(** [inputs[-1].ki.dwFlags |= KEYEVENTF_KEYUP] *)
Fixpoint set_keyup_last (inputs : list KEYBDINPUT) : list KEYBDINPUT :=
  match inputs with
  | [] => []
  | [inp] => [ {| wVk := wVk inp; wScan := wScan inp;
                  dwFlags := Z.lor (dwFlags inp) KEYEVENTF_KEYUP;
                  dwExtraInfo := dwExtraInfo inp |} ]
  | inp :: rest => inp :: set_keyup_last rest
  end.

(** The value a [ULONG_PTR] field holds after an assignment: the field is
    a [c_ulonglong] where pointers have 8 bytes (a [c_ulong] of 32 bits
    where they have 4; no property below depends on the width). *)
Definition ULONG_PTR (v : Z) : Z := Z.land v 18446744073709551615.

(** [KeyAction.GetInput]. The answer of [GetMessageExtraInfo], a [c_int],
    is stored into the [ULONG_PTR] field [dwExtraInfo], which wraps a
    negative one. *)
Definition GetInput (os : OS) (k : Action) : result (list KEYBDINPUT) :=
  up ← action_up k;
  down ← action_down k;
  let actions := if up && down then 2%nat else 1%nat in
  '(vk, scan, flags) ← get_key_info os k;
  let inp := {| wVk := WORD vk; wScan := WORD scan;
                dwFlags := Z.lor 0 flags;
                dwExtraInfo := ULONG_PTR (GetMessageExtraInfo os) |} in
  let inputs := replicate actions inp in
  Ok (if up then set_keyup_last inputs else inputs).

(** [Press(keycode, delay=0.5)] for an integer [keycode]. The constructor of
    [KEYBDINPUT] fills [wScan] from the layout when the Unicode flag is
    clear; [user32.SendInput] carries the [errcheck] that raises when the
    result is zero. *)
Definition new_KEYBDINPUT (os : OS) (vk flags : Z) : KEYBDINPUT :=
  {| wVk := WORD vk;
     wScan := if Z.land flags KEYEVENTF_UNICODE =? 0
              then WORD (MapVirtualKeyExW os (WORD vk) 0 0) else 0;
     dwFlags := flags;
     dwExtraInfo := 0 |}.

Definition user32_SendInput (os : OS) (inputs : list KEYBDINPUT)
    : M (list Event) Z :=
  do h <- get_history;
  let n := SendInput os h inputs in
  call (call_SendInput inputs n) ;;
  if n =? 0 then raise WinError else mret n.

Definition Press (os : OS) (keycode : Z) : M (list Event) unit :=
  user32_SendInput os [new_KEYBDINPUT os keycode 0] ;;
  call (call_sleep "0.5") ;;
  user32_SendInput os [new_KEYBDINPUT os keycode KEYEVENTF_KEYUP] ;;
  mret tt.

(** [run], by class. [KeyAction.run] uses the module-level [SendInput],
    which has no [errcheck], and compares the count itself.

    [PauseAction.run] is [time.sleep(self.how_long)]. The embedding records
    the call; [time.sleep] raises [ValueError] or [OverflowError] for a
    negative, not-a-number or too large duration, which is outside it: the
    properties of [run] below are about the key actions, or assume that no
    pause is run. *)
Definition run (os : OS) (k : Action) : M (list Event) unit :=
  match k with
  | KeyAction _ _ _ =>
      do inputs <- lift_result (GetInput os k);
      do h <- get_history;
      let num_inserted_events := SendInput os h inputs in
      call (call_SendInput inputs num_inserted_events) ;;
      if negb (num_inserted_events =? Z.of_nat (length inputs)) then
        raise (RuntimeError
                 ("SendInput() inserted only " +:+ pretty num_inserted_events
                  +:+ " out of " +:+ pretty (Z.of_nat (length inputs))
                  +:+ " keyboard events"))
      else mret tt
  | VirtualKeyAction _ _ _ | EscapedKeyAction _ _ _ =>
      do inputs <- lift_result (GetInput os k);
      for_each inputs (fun inp => Press os (wVk inp))
  | PauseAction how_long => call (call_sleep how_long)
  end.

(** ** The scheduler's split: [log_split]

    [logsplit] draws from one iterator: [enumerate] takes the element [e]
    that opens chunk [n], and [islice(iterator, n)] takes up to [n] more.
    [log_split] turns each chunk into a list before asking for the next, so
    the chunks are cut one after the other from what is left. [fuel] bounds
    the number of chunks; each holds at least one element, so the length of
    the input is enough. *)

Fixpoint logsplit {A : Type} (fuel n : nat) (lst : list A) : list (list A) :=
  match fuel with
  | O => []
  | S fuel =>
      match lst with
      | [] => []
      | e :: rest => (e :: take n rest) :: logsplit fuel (S n) (drop n rest)
      end
  end.

(** [log_split(lst)], the call with one argument. *)
Definition log_split {A : Type} (lst : list A) : list (list A) :=
  logsplit (length lst) 0 lst.

(** [log_split(a, b)]: several arguments are zipped first. *)
Definition log_split2 {A B : Type} (a : list A) (b : list B)
    : list (list (A * B)) :=
  log_split (zip a b).

(** ** The targeted injection path: [send_keystrokes] *)

(** The local variables of [send_keystrokes] that the loop and the handler
    share, with the events so far. The stack grows at its end, as the Python
    list does: [keyboard_state_stack[-1]] is its last element,
    [keyboard_state_stack[0]] its first. *)
Record Locals : Type := {
  keyboard_state_stack : list PBYTE256;
  context_code : Z;
  events : list Event
}.

#[global] Instance locals_events : Events Locals := {
  history := events;
  record := fun ev s =>
    {| keyboard_state_stack := keyboard_state_stack s;
       context_code := context_code s;
       events := events s ++ [ev] |}
}.

Definition get_stack : M Locals (list PBYTE256) :=
  fun s => (Ok (keyboard_state_stack s), s).

Definition set_stack (st : list PBYTE256) : M Locals unit :=
  fun s => (Ok tt, {| keyboard_state_stack := st;
                      context_code := context_code s;
                      events := events s |}).

Definition get_context_code : M Locals Z :=
  fun s => (Ok (context_code s), s).

Definition set_context_code (c : Z) : M Locals unit :=
  fun s => (Ok tt, {| keyboard_state_stack := keyboard_state_stack s;
                      context_code := c;
                      events := events s |}).

(** [l[-1]] *)
Definition py_last {A : Type} (l : list A) : result A :=
  match last l with
  | Some x => Ok x
  | None => Raise IndexError
  end.

(** [state[vk] |= 128] on a [c_ubyte] array. *)
Definition set_pressed (state : PBYTE256) (vk : Z) : result PBYTE256 :=
  match state !! Z.to_nat vk with
  | Some b => Ok (<[Z.to_nat vk := Z.land (Z.lor b 128) 255]> state)
  | None => Raise IndexError
  end.

(** What [GetKeyboardState] stores into a new [PBYTE256()]. *)
Definition snapshot (os : OS) : PBYTE256 :=
  (fun i => Z.land (GetKeyboardState os i) 255) <$> seq 0 256.

(** [chr(scan)] *)
Definition chr (cp : Z) : string := one_char (ascii_of_nat (Z.to_nat cp)).

(** The resolution at the head of the loop body: the message pair, and the
    virtual key, scan code, flags and shift state after the translation of
    a Unicode action. *)
Definition resolve (os : OS) (input_locale_id context_code : Z)
    (key : Action) : result (Z * Z * Z * Z * Z * Z) :=
  '(vk, scan, flags) ← get_key_info os key;
  let '(down_msg, up_msg) :=
    if (vk =? VK_MENU) || (context_code =? 1)
    then (WM_SYSKEYDOWN, WM_SYSKEYUP) else (WM_KEYDOWN, WM_KEYUP) in
  let unicode_codepoint := negb (Z.land flags KEYEVENTF_UNICODE =? 0) in
  let '(vk, scan, shift_state) :=
    if unicode_codepoint then
      let char := chr scan in
      let vk_with_flags := VkKeyScanExW os char input_locale_id in
      let vk := Z.land vk_with_flags 255 in
      (vk, MapVirtualKeyW os vk 0, Z.shiftr (Z.land vk_with_flags 65280) 8)
    else (vk, scan, 0) in
  Ok (down_msg, up_msg, vk, scan, flags, shift_state).

Definition lparam_down (scan flags context_code : Z) : Z :=
  Z.lor (Z.lor (Z.lor (Z.lor (Z.shiftl 1 0) (Z.shiftl scan 16))
                      (Z.shiftl (Z.land flags 1) 24))
               (Z.shiftl context_code 29))
        (Z.shiftl 0 31).

Definition lparam_up (scan flags context_code : Z) : Z :=
  Z.lor (Z.lor (Z.lor (Z.lor (Z.lor (Z.shiftl 1 0) (Z.shiftl scan 16))
                             (Z.shiftl (Z.land flags 1) 24))
                      (Z.shiftl context_code 29))
               (Z.shiftl 1 30))
        (Z.shiftl 1 31).

(** [if key.down and vk > 0: ...] *)
Definition down_transition (handle down_msg vk scan flags shift_state : Z)
    : M Locals unit :=
  do stack <- get_stack;
  do top <- lift_result (py_last stack);
  do new_keyboard_state <- lift_result (set_pressed top vk);
  do new_keyboard_state <-
    (if Z.land shift_state 1 =? 1
     then lift_result (set_pressed new_keyboard_state VK_SHIFT)
     else mret new_keyboard_state);
  set_stack (stack ++ [new_keyboard_state]) ;;
  do context_code <- get_context_code;
  let lparam := lparam_down scan flags context_code in
  do stack <- get_stack;
  do top <- lift_result (py_last stack);
  call (call_SetKeyboardState top) ;;
  call (call_PostMessage handle down_msg vk lparam) ;;
  (if vk =? VK_MENU then set_context_code 1 else mret tt) ;;
  call (call_sleep "0.01").

(** [if key.up and vk > 0: ...] *)
Definition up_transition (handle up_msg vk scan flags : Z) : M Locals unit :=
  do stack <- get_stack;
  match stack with
  | [] => raise IndexError
  | _ => set_stack (removelast stack)
  end ;;
  do context_code <- get_context_code;
  let lparam := lparam_up scan flags context_code in
  call (call_PostMessage handle up_msg vk lparam) ;;
  do stack <- get_stack;
  do top <- lift_result (py_last stack);
  call (call_SetKeyboardState top) ;;
  (if vk =? VK_MENU then set_context_code 0 else mret tt) ;;
  call (call_sleep "0.01").

(** One iteration of [for key in keys]. *)
Definition loop_body (os : OS) (handle input_locale_id : Z) (key : Action)
    : M Locals unit :=
  do context_code <- get_context_code;
  do '(down_msg, up_msg, vk, scan, flags, shift_state) <-
    lift_result (resolve os input_locale_id context_code key);
  do down <- lift_result (action_down key);
  (if down && (0 <? vk)
   then down_transition handle down_msg vk scan flags shift_state
   else mret tt) ;;
  do up <- lift_result (action_up key);
  (if up && (0 <? vk)
   then up_transition handle up_msg vk scan flags
   else mret tt).

(** [except Exception as e: print("fehler");
    SetKeyboardState(keyboard_state_stack[0])] *)
Definition handler (e : exn) : M Locals unit :=
  call (call_print "fehler") ;;
  do stack <- get_stack;
  match stack with
  | [] => raise IndexError
  | base :: _ => call (call_SetKeyboardState base)
  end.

Definition is_EscapedKeyAction (k : Action) : bool :=
  match k with
  | EscapedKeyAction _ _ _ => true
  | _ => false
  end.

(** The statements of [send_keystrokes] from [try:] to the end. *)
Definition inject (os : OS) (handle input_locale_id : Z)
    (attach_success activate_window_before : bool)
    (target_thread_id current_thread_id : Z) (keys : list Action)
    : M Locals unit :=
  try_except (for_each keys (loop_body os handle input_locale_id)) handler ;;
  (if attach_success
   then call (call_AttachThreadInput target_thread_id current_thread_id
                false)
   else mret tt) ;;
  (if activate_window_before
   then call (call_sleep "0.1") ;; call (call_deactivate_topmost handle)
   else mret tt).

(** [send_keystrokes] from its first statement to [keys = parse_keys(...)]
    and on into [inject].

    With [activate_window_before] the function first sends the activation
    messages and calls [force_activate_window]. That helper clicks the left
    mouse button through [user32.SendInput], whose [errcheck] raises
    [WinError] when the click is not inserted, and it calls
    [deactivate_topmost] itself before it returns. The embedding records the
    call as one event, which stands for a call that returned; a click that
    raises is outside it. The properties about the outcome of
    [send_keystrokes] are therefore stated for [activate_window_before =
    False], where none of this runs. *)
Definition send_keystrokes_frame (os : OS) (handle : Z) (keystrokes : string)
    (with_spaces with_tabs with_newlines activate_window_before : bool)
    : M Locals unit :=
  (if activate_window_before then
     call (call_SendMessageA handle 6 1 0) ;;
     call (call_SendMessage handle 6 1 0) ;;
     call (call_EnableWindow handle true) ;;
     call (call_force_activate_window handle)
   else mret tt) ;;
  let target_thread_id := GetWindowThreadProcessId os handle in
  let current_thread_id := GetCurrentThreadId os in
  call (call_AttachThreadInput target_thread_id current_thread_id true) ;;
  let attach_success :=
    negb (AttachThreadInput os target_thread_id current_thread_id true =? 0)
  in
  (if negb attach_success
   then call (call_warn
     "Failed to attach app's thread to the current thread's message queue")
   else mret tt) ;;
  set_stack [snapshot os] ;;
  let input_locale_id := GetKeyboardLayout os 0 in
  set_context_code 0 ;;
  do keys <- lift_result
    (parse_keys keystrokes with_spaces with_tabs with_newlines true);
  let key_combos_present := existsb is_EscapedKeyAction keys in
  (if key_combos_present
   then call (call_warn
     "Key combinations may or may not work depending on the target app")
   else mret tt) ;;
  inject os handle input_locale_id attach_success activate_window_before
    target_thread_id current_thread_id keys.

(** [send_keystrokes(handle, keystrokes, with_spaces, with_tabs,
    with_newlines, activate_window_before)]: the outcome of the call and the
    events it caused, in order. *)
Definition send_keystrokes (os : OS) (handle : Z) (keystrokes : string)
    (with_spaces with_tabs with_newlines activate_window_before : bool)
    : result unit * list Event :=
  let '(r, s) :=
    send_keystrokes_frame os handle keystrokes with_spaces with_tabs
      with_newlines activate_window_before
      {| keyboard_state_stack := []; context_code := 0; events := [] |} in
  (r, events s).

(** An operating system to evaluate the model on: a layout that maps a
    character to its code point, a [SendInput] that inserts every event, a
    successful attachment and an all-released keyboard. *)
Definition sample_os : OS := {|
  VkKeyScanW := fun c => match Py.ord c with Some z => z | None => -1 end;
  VkKeyScanExW := fun c _ => match Py.ord c with Some z => z | None => -1 end;
  MapVirtualKeyW := fun vk _ => vk + 1;
  MapVirtualKeyExW := fun vk _ _ => vk + 1;
  GetMessageExtraInfo := 0;
  SendInput := fun _ inputs => Z.of_nat (length inputs);
  GetWindowThreadProcessId := fun _ => 7;
  GetCurrentThreadId := 9;
  AttachThreadInput := fun _ _ _ => 1;
  GetKeyboardState := fun _ => 0;
  GetKeyboardLayout := fun _ => 1033 |}.

(** The same system, except that [SendInput] inserts one event per call. *)
Definition one_event_os : OS := {|
  VkKeyScanW := VkKeyScanW sample_os;
  VkKeyScanExW := VkKeyScanExW sample_os;
  MapVirtualKeyW := MapVirtualKeyW sample_os;
  MapVirtualKeyExW := MapVirtualKeyExW sample_os;
  GetMessageExtraInfo := 0;
  SendInput := fun _ _ => 1;
  GetWindowThreadProcessId := GetWindowThreadProcessId sample_os;
  GetCurrentThreadId := GetCurrentThreadId sample_os;
  AttachThreadInput := AttachThreadInput sample_os;
  GetKeyboardState := GetKeyboardState sample_os;
  GetKeyboardLayout := GetKeyboardLayout sample_os |}.

(** A system whose [SendInput] inserts nothing. *)
Definition rejecting_os : OS := {|
  VkKeyScanW := VkKeyScanW sample_os;
  VkKeyScanExW := VkKeyScanExW sample_os;
  MapVirtualKeyW := MapVirtualKeyW sample_os;
  MapVirtualKeyExW := MapVirtualKeyExW sample_os;
  GetMessageExtraInfo := 0;
  SendInput := fun _ _ => 0;
  GetWindowThreadProcessId := GetWindowThreadProcessId sample_os;
  GetCurrentThreadId := GetCurrentThreadId sample_os;
  AttachThreadInput := AttachThreadInput sample_os;
  GetKeyboardState := GetKeyboardState sample_os;
  GetKeyboardLayout := GetKeyboardLayout sample_os |}.

(** ** The other senders of keyboard input *)

Definition KEYEVENTF_SCANCODE : Z := 8.

(** The value a [DWORD] field holds after an assignment. *)
Definition DWORD (v : Z) : Z := Z.land v 4294967295.

(** [KEYBDINPUT(wVk, wScan, dwFlags, time, dwExtraInfo)]: the constructor
    stores the fields and then, when the Unicode flag is clear, replaces
    [wScan] by the scan code the layout has for [wVk]. *)
Definition KEYBDINPUT_init (os : OS) (vk scan flags extra : Z)
    : KEYBDINPUT :=
  {| wVk := WORD vk;
     wScan := if Z.land (DWORD flags) KEYEVENTF_UNICODE =? 0
              then WORD (MapVirtualKeyExW os (WORD vk) 0 0)
              else WORD scan;
     dwFlags := DWORD flags;
     dwExtraInfo := extra |}.

(** [i.ki.dwFlags |= KEYEVENTF_KEYUP] *)
Definition or_KEYUP (ki : KEYBDINPUT) : KEYBDINPUT :=
  {| wVk := wVk ki; wScan := wScan ki;
     dwFlags := DWORD (Z.lor (dwFlags ki) KEYEVENTF_KEYUP);
     dwExtraInfo := dwExtraInfo ki |}.

(** [lib.SendInput]: the function of a library object of its own, with no
    [errcheck]; its callers drop the result. *)
Definition lib_SendInput (os : OS) (inputs : list KEYBDINPUT)
    : M (list Event) Z :=
  do h <- get_history;
  let n := SendInput os h inputs in
  call (call_SendInput inputs n) ;;
  mret n.

(** [send_scancode(code)] *)
Definition send_scancode (os : OS) (code : Z) : M (list Event) unit :=
  let ki := KEYBDINPUT_init os 0 code KEYEVENTF_SCANCODE 0 in
  lib_SendInput os [ki] ;;
  let ki := or_KEYUP ki in
  lib_SendInput os [ki] ;;
  mret tt.

(** The body of the loop of [send_unicode], for a character [c] with
    [ord(c) = cp]. The constructor stores [cp] into the [WORD] field
    [wScan], which keeps its low 16 bits. *)
Definition send_unicode_char (os : OS) (cp : Z) : M (list Event) unit :=
  let ki := KEYBDINPUT_init os 0 cp KEYEVENTF_UNICODE 0 in
  lib_SendInput os [ki] ;;
  let ki := or_KEYUP ki in
  lib_SendInput os [ki] ;;
  mret tt.

(** [send_unicode(s)]. The text is given as the list of the code points of
    its characters, any of the code points of Python's [str], so that the
    characters beyond U+FFFF are covered. *)
Definition send_unicode (os : OS) (s : list Z) : M (list Event) unit :=
  for_each s (send_unicode_char os).

(** ** The scheduler and the mouse path: what they do with [log_split] *)

(** [range(n)] *)
Definition range (n : Z) : list Z := Z.of_nat <$> seq 0 (Z.to_nat n).

(** The list [allk] of [press_multiple_keys], one entry per thread the
    function starts: [[k[0], len(k[1]), k[1]] for k in zip(keystopress,
    list(log_split(range(presstime))))], where [presstime] is the integer
    the function has computed by then. *)
Definition allk {K : Type} (keystopress : list K) (presstime : Z)
    : list (K * nat * list Z) :=
  (fun k => (k.1, length k.2, k.2))
    <$> zip keystopress (log_split (range presstime)).

(** [l[::step]] for a positive [step]: the elements at indices [0], [step],
    [2 * step], ... *)
Fixpoint every {A : Type} (fuel step : nat) (l : list A) : list A :=
  match fuel with
  | O => []
  | S fuel =>
      match l with
      | [] => []
      | x :: _ => x :: every fuel step (drop step l)
      end
  end.

(** [l[::step]] on the rows of an array: forwards for a positive step,
    from the last row backwards for a negative one, [ValueError] for 0. *)
Definition slice_step {A : Type} (l : list A) (step : Z) : result (list A) :=
  if step =? 0 then Raise ValueError
  else if 0 <? step then Ok (every (length l) (Z.to_nat step) l)
  else Ok (every (length l) (Z.to_nat (- step)) (reverse l)).

(** [np.repeat(alla, 4, axis=0)] *)
Definition repeat4 {A : Type} (l : list A) : list A :=
  l ≫= (fun x => [x; x; x; x]).

(** The path [natural_mouse_movement] moves along, from [np.repeat] on:
    [varied] is what [add_random_n_places] returned, [target] is [(futx,
    futy)]. The last statement keeps the last point of every chunk of the
    reversed path. *)
Definition natural_path {A : Type} (varied : list A) (use_every : Z)
    (target : A) : result (list A) :=
  alla ← slice_step (repeat4 varied) use_every;
  let alla := alla ++ [target] in
  picked ← mapM py_last (log_split (reverse alla));
  Ok (reverse picked).

(** * The vocabulary of the properties *)

Definition shift_down : Action := VirtualKeyAction VK_SHIFT true false.
Definition shift_up : Action := VirtualKeyAction VK_SHIFT false true.

(** SHIFT is held over the escaped actions of [a] and [b]: one hold-down
    before [a], one release after [b], both characters on the escaped path
    in between. *)
Definition shift_held_over_ab (keys : list Action) : Prop :=
  exists i ia ib j : nat,
    keys !! i = Some shift_down
    /\ keys !! ia = Some (EscapedKeyAction "a" true true)
    /\ keys !! ib = Some (EscapedKeyAction "b" true true)
    /\ keys !! j = Some shift_up
    /\ (i < ia)%nat /\ (ia < ib)%nat /\ (ib < j)%nat
    /\ length (filter (fun k => k = shift_down) keys) = 1%nat
    /\ length (filter (fun k => k = shift_up) keys) = 1%nat.

Definition uses_Press (k : Action) : bool :=
  match k with
  | VirtualKeyAction _ _ _ | EscapedKeyAction _ _ _ => true
  | KeyAction _ _ _ | PauseAction _ => false
  end.

(** The key-down and the key-up input of the virtual key [vk] as [Press]
    builds them: the key in [wVk], its scan code from the layout, and the
    flags 0 for the press and [KEYEVENTF_KEYUP] for the release. *)
Definition key_down_input (os : OS) (vk : Z) : KEYBDINPUT :=
  {| wVk := WORD vk;
     wScan := WORD (MapVirtualKeyExW os (WORD vk) 0 0);
     dwFlags := 0;
     dwExtraInfo := 0 |}.

Definition key_up_input (os : OS) (vk : Z) : KEYBDINPUT :=
  {| wVk := WORD vk;
     wScan := WORD (MapVirtualKeyExW os (WORD vk) 0 0);
     dwFlags := 2;
     dwExtraInfo := 0 |}.

(** One complete press-and-release of [vk]: the key-down is sent, half a
    second passes, the key-up is sent; [c] holds what [SendInput] reported
    for the two. *)
Definition full_cycle (os : OS) (vk : Z) (c : Z * Z) : list Event :=
  [ call_SendInput [key_down_input os vk] c.1;
    call_sleep "0.5";
    call_SendInput [key_up_input os vk] c.2 ].

(** A cycle the system cut short: the key-down was rejected, or it was
    inserted ([n_down] events) and the key-up was rejected. *)
Definition cut_cycle (os : OS) (vk n_down : Z) : list Event :=
  if n_down =? 0 then [ call_SendInput [key_down_input os vk] 0 ]
  else [ call_SendInput [key_down_input os vk] n_down;
         call_sleep "0.5";
         call_SendInput [key_up_input os vk] 0 ].

(** [m] takes a state to an [R]-related one, however it ends. *)
Definition preserves {S A : Type} (R : S -> S -> Prop) (m : M S A) : Prop :=
  forall s r s', m s = (r, s') -> R s s'.

(** Every key message among [evs] carries the virtual-key code [vk]. *)
Definition posts (vk : Z) (ev : Event) : Prop :=
  match ev with
  | call_PostMessage _ _ wParam _ => wParam = vk
  | _ => True
  end.

(** No key message among the events carries a code that is not positive. *)
Definition posted_positive (ev : Event) : Prop :=
  match ev with
  | call_PostMessage _ _ wParam _ => 0 < wParam
  | _ => True
  end.

(** The events grew, and each new event satisfies [P]. *)
Definition grows (P : Event -> Prop) (s s' : Locals) : Prop :=
  exists evs, events s' = events s ++ evs /\ Forall P evs.

(** The virtual-key code the loop posts for [key], after translation. *)
Definition posted_vk (os : OS) (input_locale_id : Z) (key : Action)
    : option Z :=
  match resolve os input_locale_id 0 key with
  | Ok (_, _, vk, _, _, _) => Some vk
  | _ => None
  end.

(** [key] causes a down-transition only: [down] set, [up] clear, a code
    inside the keyboard-state array. *)
Definition is_down_transition (os : OS) (input_locale_id : Z) (key : Action)
    : bool :=
  match action_down key, action_up key, posted_vk os input_locale_id key with
  | Ok true, Ok false, Some vk => (0 <? vk) && (vk <? 256)
  | _, _, _ => false
  end.

(** [key] causes an up-transition only. *)
Definition is_up_transition (os : OS) (input_locale_id : Z) (key : Action)
    : bool :=
  match action_down key, action_up key, posted_vk os input_locale_id key with
  | Ok false, Ok true, Some vk => 0 <? vk
  | _, _, _ => false
  end.

Definition attach_success (os : OS) (handle : Z) : bool :=
  negb (AttachThreadInput os (GetWindowThreadProcessId os handle)
          (GetCurrentThreadId os) true =? 0).

(** The events of [send_keystrokes] before the loop. *)
Definition prologue (os : OS) (handle : Z) (activate_window_before : bool)
    (keys : list Action) : list Event :=
  (if activate_window_before
   then [call_SendMessageA handle 6 1 0; call_SendMessage handle 6 1 0;
         call_EnableWindow handle true; call_force_activate_window handle]
   else [])
  ++ [call_AttachThreadInput (GetWindowThreadProcessId os handle)
        (GetCurrentThreadId os) true]
  ++ (if attach_success os handle then []
      else [call_warn
        "Failed to attach app's thread to the current thread's message queue"])
  ++ (if existsb is_EscapedKeyAction keys
      then [call_warn
        "Key combinations may or may not work depending on the target app"]
      else []).

(** The local variables when the loop starts. *)
Definition frame_at_try (os : OS) (handle : Z) (activate_window_before : bool)
    (keys : list Action) : Locals :=
  {| keyboard_state_stack := [snapshot os];
     context_code := 0;
     events := prologue os handle activate_window_before keys |}.

(** The events after the handler: the detachment and the deactivation. *)
Definition epilogue (os : OS) (handle : Z) (activate_window_before : bool)
    : list Event :=
  (if attach_success os handle
   then [call_AttachThreadInput (GetWindowThreadProcessId os handle)
           (GetCurrentThreadId os) false]
   else [])
  ++ (if activate_window_before
      then [call_sleep "0.1"; call_deactivate_topmost handle]
      else []).

(** The stack is empty or has [base] at index 0. *)
Definition stack_bottom (base : PBYTE256) (s : Locals) : Prop :=
  match keyboard_state_stack s with
  | [] => True
  | x :: _ => x = base
  end.

Definition keeps (P : Locals -> Prop) (s s' : Locals) : Prop := P s -> P s'.

(** [0 + 1 + ... + i]: where chunk [i] of [log_split] starts. *)
Fixpoint triangle (i : nat) : nat :=
  match i with
  | O => O
  | S j => (triangle j + S j)%nat
  end.

(** The arrays handed to [SendInput], in order, whatever was inserted. *)
Definition sent_inputs (t : list Event) : list (list KEYBDINPUT) :=
  omap (fun ev => match ev with
                  | call_SendInput inputs _ => Some inputs
                  | _ => None
                  end) t.

(** A [SendInput] call reported that nothing was inserted. *)
Definition rejected (ev : Event) : Prop :=
  match ev with
  | call_SendInput _ n => n = 0
  | _ => False
  end.

(** The two arrays [send_unicode] sends for the character with code point
    [cp]: [wScan] holds [cp] modulo [2 ^ 16]. *)
Definition unicode_pair (cp : Z) : list (list KEYBDINPUT) :=
  [[ {| wVk := 0; wScan := Z.land cp 65535; dwFlags := 4;
        dwExtraInfo := 0 |} ];
   [ {| wVk := 0; wScan := Z.land cp 65535; dwFlags := 6;
        dwExtraInfo := 0 |} ]].

(** ** What the compiler emits *)

(** What every action the compiler emits satisfies: a literal or escaped
    key is one character, a virtual-key code lies in 1..255, and [down] and
    [up] are not both clear. *)
Definition compiled_ok (k : Action) : bool :=
  match k with
  | KeyAction key down up | EscapedKeyAction key down up =>
      (Py.len key =? 1)%nat && (down || up)
  | VirtualKeyAction key down up =>
      (0 <? key) && (key <? 256) && (down || up)
  | PauseAction _ => true
  end.

(** The action [parse_keys] emits for an ordinary character [c]. *)
Definition char_action (c : string) (modified vk_packet : bool) : Action :=
  if String.eqb c "~" || String.eqb c (one_char "010") then
    VirtualKeyAction 13 true true
  else if modified then EscapedKeyAction c true true
  else match (if negb vk_packet then ascii_vk !! c else None) with
       | Some vk => VirtualKeyAction vk true true
       | None => KeyAction c true true
       end.

(** The characters [parse_keys] gives a meaning of their own. *)
Definition is_special (c : string) : bool :=
  bool_decide (is_Some (MODIFIERS !! c))
  || String.eqb c "(" || String.eqb c "{"
  || String.eqb c ")" || String.eqb c "}".

(** [c] is white space that the options drop. *)
Definition is_dropped (c : string) (ws wt wn : bool) : bool :=
  (String.eqb c " " && negb ws)
  || (String.eqb c (one_char "009") && negb wt)
  || (String.eqb c (one_char "010") && negb wn).

(** A non-pause action with [down] and [up] both set. *)
Definition full (k : Action) : bool :=
  match k with
  | KeyAction _ d u | VirtualKeyAction _ d u | EscapedKeyAction _ d u =>
      d && u
  | PauseAction _ => false
  end.

(** What [parse_keys] does to the first action of a qualified code. *)
Definition qualify (ev : string) (k0 : Action) : Action :=
  let k0 := match k0 with
            | KeyAction key _ _ | EscapedKeyAction key _ _ =>
                EscapedKeyAction key true true
            | _ => k0
            end in
  if String.eqb (Py.strip ev) "up" then set_down_false k0
  else set_up_false k0.

Definition code_ok (m : Z) : Prop := 0 < m < 256.

(** The actions of a text free of special characters: one per character
    that the options do not drop, none of them escaped. *)
Definition plain_actions (ws wt wn vkp : bool) (l : list ascii)
    : list Action :=
  l ≫= (fun a => if is_dropped (one_char a) ws wt wn then []
                 else [char_action (one_char a) false vkp]).

(** [m] ends: it returns or raises, from every state. *)
Definition finishes {S A : Type} (m : M S A) : Prop :=
  forall s, (m s).1 <> OutOfFuel.

(** The events the loop and the handler of [send_keystrokes] cause. *)
Definition inside_try (ev : Event) : Prop :=
  match ev with
  | call_SetKeyboardState _ | call_PostMessage _ _ _ _ | call_sleep _
  | call_print _ => True
  | _ => False
  end.

(** [send_keys] from [keys = parse_keys(...)] to the end of the loop, for a
    call with the default [pause=0.05]: the notation is compiled, then each
    action runs and the function sleeps 0.05 seconds after it. These
    statements are the same whether or not the window is activated first. *)
Definition send_keys_typing (os : OS) (keys : string)
    (with_spaces with_tabs with_newlines vk_packet : bool)
    : M (list Event) unit :=
  do keys <- lift_result
    (parse_keys keys with_spaces with_tabs with_newlines vk_packet);
  for_each keys (fun k => run os k ;; call (call_sleep "0.05")).

(** The system inserts every event it is given. *)
Definition accepting (os : OS) : Prop :=
  forall h inputs, SendInput os h inputs = Z.of_nat (length inputs).

Definition is_PauseAction (k : Action) : bool :=
  match k with
  | PauseAction _ => true
  | _ => false
  end.

(** The inputs of a [KeyAction] for the character with code point [cp]:
    the press unless the action is a release only, then the release if
    [up] is set. *)
Definition unicode_inputs (os : OS) (cp : Z) (down up : bool)
    : list KEYBDINPUT :=
  (if up && negb down then []
   else [ {| wVk := 0; wScan := WORD cp; dwFlags := 4;
             dwExtraInfo := ULONG_PTR (GetMessageExtraInfo os) |} ])
  ++ (if up
      then [ {| wVk := 0; wScan := WORD cp; dwFlags := 6;
                dwExtraInfo := ULONG_PTR (GetMessageExtraInfo os) |} ]
      else []).

(** The virtual key, the scan code and the flags of an input: what makes
    it the press or the release of a key. *)
Definition key_of (inp : KEYBDINPUT) : Z * Z * Z :=
  (wVk inp, wScan inp, dwFlags inp).

(** The arrays handed to [SendInput], in order, each input by its key. *)
Definition sent_keys (t : list Event) : list (list (Z * Z * Z)) :=
  fmap (M:=list) key_of <$> sent_inputs t.

(** The keys of the inputs of a [KeyAction] for the character with code
    point [cp]: a Unicode press (flags 4), left out for a release only,
    then a Unicode release (flags 6) if [up] is set; the scan code of both
    is [cp] modulo [2 ^ 16]. *)
Definition unicode_keys (cp : Z) (down up : bool) : list (Z * Z * Z) :=
  (if up && negb down then [] else [(0, Z.land cp 65535, 4)])
  ++ (if up then [(0, Z.land cp 65535, 6)] else []).

(** ** The names of the virtual keys *)

(** The entries of [CODES] in the order of the source, which is the order
    [CODES.items()] yields them in. *)
Definition CODES_items : list (string * Z) := [
    ("BACK", 8); ("BACKSPACE", 8); ("BKSP", 8); ("BREAK", 3); ("BS", 8);
    ("CAP", 20); ("CAPSLOCK", 20); ("DEL", 46); ("DELETE", 46);
    ("DOWN", 40); ("END", 35); ("ENTER", 13); ("ESC", 27); ("F1", 112);
    ("F2", 113); ("F3", 114); ("F4", 115); ("F5", 116); ("F6", 117);
    ("F7", 118); ("F8", 119); ("F9", 120); ("F10", 121); ("F11", 122);
    ("F12", 123); ("F13", 124); ("F14", 125); ("F15", 126); ("F16", 127);
    ("F17", 128); ("F18", 129); ("F19", 130); ("F20", 131); ("F21", 132);
    ("F22", 133); ("F23", 134); ("F24", 135); ("HELP", 47); ("HOME", 36);
    ("INS", 45); ("INSERT", 45); ("LEFT", 37); ("LWIN", 91);
    ("NUMLOCK", 144); ("PGDN", 34); ("PGUP", 33); ("PRTSC", 44);
    ("RIGHT", 39); ("RMENU", 165); ("RWIN", 92); ("SCROLLLOCK", 145);
    ("SPACE", 32); ("TAB", 9); ("UP", 38); ("VK_ACCEPT", 30);
    ("VK_ADD", 107); ("VK_APPS", 93); ("VK_ATTN", 246); ("VK_BACK", 8);
    ("VK_CANCEL", 3); ("VK_CAPITAL", 20); ("VK_CLEAR", 12);
    ("VK_CONTROL", 17); ("VK_CONVERT", 28); ("VK_CRSEL", 247);
    ("VK_DECIMAL", 110); ("VK_DELETE", 46); ("VK_DIVIDE", 111);
    ("VK_DOWN", 40); ("VK_END", 35); ("VK_EREOF", 249); ("VK_ESCAPE", 27);
    ("VK_EXECUTE", 43); ("VK_EXSEL", 248); ("VK_F1", 112); ("VK_F2", 113);
    ("VK_F3", 114); ("VK_F4", 115); ("VK_F5", 116); ("VK_F6", 117);
    ("VK_F7", 118); ("VK_F8", 119); ("VK_F9", 120); ("VK_F10", 121);
    ("VK_F11", 122); ("VK_F12", 123); ("VK_F13", 124); ("VK_F14", 125);
    ("VK_F15", 126); ("VK_F16", 127); ("VK_F17", 128); ("VK_F18", 129);
    ("VK_F19", 130); ("VK_F20", 131); ("VK_F21", 132); ("VK_F22", 133);
    ("VK_F23", 134); ("VK_F24", 135); ("VK_FINAL", 24); ("VK_HANGEUL", 21);
    ("VK_HANGUL", 21); ("VK_HANJA", 25); ("VK_HELP", 47); ("VK_HOME", 36);
    ("VK_INSERT", 45); ("VK_JUNJA", 23); ("VK_KANA", 21); ("VK_KANJI", 25);
    ("VK_LBUTTON", 1); ("VK_LCONTROL", 162); ("VK_LEFT", 37);
    ("VK_LMENU", 164); ("VK_LSHIFT", 160); ("VK_LWIN", 91);
    ("VK_MBUTTON", 4); ("VK_MENU", 18); ("VK_MODECHANGE", 31);
    ("VK_MULTIPLY", 106); ("VK_NEXT", 34); ("VK_NONAME", 252);
    ("VK_NONCONVERT", 29); ("VK_NUMLOCK", 144); ("VK_NUMPAD0", 96);
    ("VK_NUMPAD1", 97); ("VK_NUMPAD2", 98); ("VK_NUMPAD3", 99);
    ("VK_NUMPAD4", 100); ("VK_NUMPAD5", 101); ("VK_NUMPAD6", 102);
    ("VK_NUMPAD7", 103); ("VK_NUMPAD8", 104); ("VK_NUMPAD9", 105);
    ("VK_OEM_CLEAR", 254); ("VK_PA1", 253); ("VK_PAUSE", 19);
    ("VK_PLAY", 250); ("VK_PRINT", 42); ("VK_PRIOR", 33);
    ("VK_PROCESSKEY", 229); ("VK_RBUTTON", 2); ("VK_RCONTROL", 163);
    ("VK_RETURN", 13); ("VK_RIGHT", 39); ("VK_RMENU", 165);
    ("VK_RSHIFT", 161); ("VK_RWIN", 92); ("VK_SCROLL", 145);
    ("VK_SELECT", 41); ("VK_SEPARATOR", 108); ("VK_SHIFT", 16);
    ("VK_SNAPSHOT", 44); ("VK_SPACE", 32); ("VK_SUBTRACT", 109);
    ("VK_TAB", 9); ("VK_UP", 38); ("ZOOM", 251) ].

(** [CODE_NAMES = dict((entry[1], entry[0]) for entry in CODES.items())]:
    of several names with one code, the last one stays. *)
Definition CODE_NAMES : gmap Z string :=
  list_to_map (reverse ((fun entry => (entry.2, entry.1)) <$> CODES_items)).

(** [key_description], by class: [EscapedKeyAction] overrides it, the other
    classes look the virtual key up in [CODE_NAMES]. *)
Definition key_description (os : OS) (k : Action) : result string :=
  match k with
  | EscapedKeyAction key _ _ => Ok ("KEsc " +:+ key)
  | _ =>
      '(vk, scan, flags) ← get_key_info os k;
      if negb (vk =? 0) then
        match CODE_NAMES !! vk with
        | Some name => Ok name
        | None => Ok ("VK " +:+ pretty vk)
        end
      else
        match k with
        | KeyAction key _ _ => Ok key
        | VirtualKeyAction key _ _ => Ok (pretty key)
        | _ => Raise AttributeError
        end
  end.

(** ** The mouse path: [calculate_all_coords] and the relative movement *)

(** The value an [int32] array element holds after an assignment. *)
Definition int32 (z : Z) : Z := (z + 2147483648) mod 4294967296 - 2147483648.

(** [np.arange(start, stop, step, dtype=np.int32)] for integers and a step
    that is not zero: [ceil((stop - start) / step)] elements, none if that
    is negative. *)
Definition arange (start stop step : Z) : list Z :=
  (fun i => int32 (start + Z.of_nat i * step))
    <$> seq 0 (Z.to_nat (- ((start - stop) / step))).

(** [np.full(n, v, dtype=np.int32)] *)
Definition full32 (n v : Z) : list Z := replicate (Z.to_nat n) (int32 v).

(** [calculate_all_coords(ends)] for [ends = [[x0, y0], [x1, y1]]]; the
    result is the list of the rows. [np.c_] joins two columns of one
    length. The scalar arithmetic on the entries of [ends] is in the
    default integer type of the platform and is exact in the model; the
    properties below are stated for coordinates of at most 14 bits, where
    no operation wraps at 32 bits either. *)
Definition calculate_all_coords (x0 y0 x1 y1 : Z) : list (Z * Z) :=
  let d0 := x1 - x0 in
  let d1 := y1 - y0 in
  if (d0 =? 0) && (d1 =? 0) then [(x0, y0); (x1, y1)]
  else if d0 =? 0 then
    zip (full32 (Z.abs d1 + 1) x0) (arange y0 (y1 + Z.sgn d1) (Z.sgn d1))
  else if d1 =? 0 then
    zip (arange x0 (x1 + Z.sgn d0) (Z.sgn d0)) (full32 (Z.abs d0 + 1) y0)
  else if Z.abs d1 <? Z.abs d0 then
    zip (arange x0 (x1 + Z.sgn d0) (Z.sgn d0))
        ((fun v => v / Z.abs d0)
           <$> arange (y0 * Z.abs d0 + Z.abs d0 / 2)
                 (y0 * Z.abs d0 + Z.abs d0 / 2 + (Z.abs d0 + 1) * d1) d1)
  else
    zip ((fun v => v / Z.abs d1)
           <$> arange (x0 * Z.abs d1 + Z.abs d1 / 2)
                 (x0 * Z.abs d1 + Z.abs d1 / 2 + (Z.abs d1 + 1) * d0) d0)
        (arange y0 (y1 + Z.sgn d1) (Z.sgn d1)).

(** [np.diff(col, prepend=0)] on an integer column: each element minus
    the one before it, the first minus 0. The difference is taken in the
    integer type of the array, of 32 or 64 bits by platform; the model
    wraps at 32 bits, and the property below is stated where neither
    wraps. *)
Definition diff_prepend0 (col : list Z) : list Z :=
  zip_with (fun a b => int32 (a - b)) col (0 :: col).

(** [natural_mouse_movement_relative(x, y)]: the arguments of its calls of
    [move_rel], in order. The printing and the random sleep between two
    calls are left out. *)
Definition natural_mouse_movement_relative (x y : Z) : list (Z * Z) :=
  let futx := x * 2 in
  let futy := y * 2 in
  let alla := calculate_all_coords 0 0 futx futy in
  let alla := alla ++ [(futx, futy)] in
  let difa1 := diff_prepend0 (alla.*1) in
  let difa2 := diff_prepend0 (alla.*2) in
  zip difa1 difa2.

(** The sum of a column of moves. *)
Definition total (l : list Z) : Z := foldr Z.add 0 l.

(** A coordinate of at most 14 bits. *)
Definition small (z : Z) : Prop := - 16384 <= z <= 16384.

(** Point [i] of the line from [(x0, y0)] to [(x1, y1)] with [n] steps. *)
Definition line_point (x0 y0 x1 y1 n : Z) (i : nat) : Z * Z :=
  (x0 + (n / 2 + Z.of_nat i * (x1 - x0)) / n,
   y0 + (n / 2 + Z.of_nat i * (y1 - y0)) / n).

(** The codes of a run of modifier characters, in order. *)
Definition modifier_codes (l : list ascii) : list Z :=
  omap (fun a => MODIFIERS !! one_char a) l.

(** The hold-down actions [parse_keys] emits for a run of modifiers. *)
Definition hold_all (modifiers : list Z) : list Action :=
  (fun m => VirtualKeyAction m true false) <$> modifiers.

(** The actions of a text free of special characters once
    [should_escape_next_keys] is set: every character that is not dropped
    is escaped. *)
Definition escaped_text (ws wt wn vkp : bool) (l : list ascii)
    : list Action :=
  l ≫= (fun a => if is_dropped (one_char a) ws wt wn then []
                 else [char_action (one_char a) true vkp]).

(** * Properties *)

(** ** The compiler on the notations the specification names *)

Example CODES_ENTER : CODES !! "ENTER" = Some 13.
Proof. vm_compute. reflexivity. Qed.

Example compile_plus_a :
  compile "+a" = Ok [shift_down; EscapedKeyAction "a" true true; shift_up].
Proof. vm_compute. reflexivity. Qed.

Example compile_pause :
  compile "{PAUSE 1.5}" = Ok [PauseAction "1.5"].
Proof. vm_compute. reflexivity. Qed.

Example compile_up_down :
  compile "{UP down}" = Ok [VirtualKeyAction 38 true false].
Proof. vm_compute. reflexivity. Qed.

Example compile_unclosed_brace :
  compile "{TAB" = Raise (KeySequenceError "`}` not found").
Proof. vm_compute. reflexivity. Qed.

Example compile_plus_group :
  compile "+(ab)"
  = Ok [shift_down; EscapedKeyAction "a" true true; shift_up;
        KeyAction "b" true true].
Proof. vm_compute. reflexivity. Qed.

(** C1, as the code has it: compiling ["(+ab)"] holds SHIFT over [a] only.
    The result is the SHIFT hold-down, the escaped action for [a], the SHIFT
    release, and then [b] as a plain literal action: one hold-down before
    [a], one release, placed directly after [a]. *)
Theorem compile_group_shift_ab :
  compile "(+ab)"
  = Ok [shift_down; EscapedKeyAction "a" true true; shift_up;
        KeyAction "b" true true].
Proof. vm_compute. reflexivity. Qed.

(** C1 as stated fails: in the compilation of ["(+ab)"] SHIFT is not held
    over both characters. *)
Lemma compile_group_shift_ab_not_held :
  ~ (exists keys, compile "(+ab)" = Ok keys /\ shift_held_over_ab keys).
Proof.
  intros (keys & Hc & i & ia & ib & j & _ & _ & Hb & _).
  vm_compute in Hc. injection Hc as <-.
  do 4 (destruct ib as [|ib]; [discriminate Hb|]). discriminate Hb.
Qed.

(** C5: ["{DOWN 3}"] compiles to three virtual-key actions for code 40, the
    code of DOWN in the named-key table, each with [down] and [up] set, and
    to nothing else. *)
Theorem compile_down_3 :
  CODES !! "DOWN" = Some 40
  /\ compile "{DOWN 3}" = Ok (replicate 3 (VirtualKeyAction 40 true true)).
Proof. split; vm_compute; reflexivity. Qed.

(** ** The scheduler's split *)

Section LogSplit.
Context {A : Type}.
Implicit Types (lst c : list A) (fuel n i : nat).

Lemma logsplit_concat fuel n lst :
  (length lst <= fuel)%nat -> concat (logsplit fuel n lst) = lst.
Proof.
  revert n lst. induction fuel as [|fuel IH]; intros n [|e rest] Hlen;
    simpl in *; try reflexivity; try lia.
  rewrite IH by (rewrite length_drop; lia).
  by rewrite take_drop.
Qed.

(** More fuel than elements changes nothing. *)
Lemma logsplit_fuel fuel fuel' n lst :
  (length lst <= fuel)%nat -> (length lst <= fuel')%nat ->
  logsplit fuel n lst = logsplit fuel' n lst.
Proof.
  revert fuel' n lst.
  induction fuel as [|fuel IH]; intros [|fuel'] n [|e rest] H1 H2;
    simpl in *; try reflexivity; try lia.
  f_equal. apply IH; rewrite length_drop; lia.
Qed.

Lemma logsplit_nonempty fuel n lst :
  logsplit fuel n lst <> [] -> lst <> [].
Proof. destruct fuel, lst; simpl; congruence. Qed.

Lemma logsplit_lookup fuel n lst i c :
  logsplit fuel n lst !! i = Some c ->
  (1 <= length c <= n + i + 1)%nat
  /\ ((S i < length (logsplit fuel n lst))%nat ->
      length c = (n + i + 1)%nat).
Proof.
  revert n lst i c.
  induction fuel as [|fuel IH]; intros n [|e rest] i c Hc;
    simpl in *; try discriminate.
  destruct i as [|i]; simpl in *.
  - injection Hc as <-. simpl. rewrite length_take. split; [lia|].
    intros Hmore.
    assert (Hne : drop n rest <> []).
    { apply (logsplit_nonempty fuel (S n)).
      destruct (logsplit fuel (S n) (drop n rest)); simpl in *;
        [lia | congruence]. }
    assert (length (drop n rest) <> 0)%nat as Hd
      by (destruct (drop n rest); simpl; congruence).
    rewrite length_drop in Hd. lia.
  - destruct (IH _ _ _ _ Hc) as [Hb Hfull]. split; [lia|].
    intros Hmore. rewrite Hfull by lia. lia.
Qed.

(** C7: the chunks of [log_split], joined in order, give back the input,
    and chunk [i] (counting from 0) has [i + 1] elements, except that the
    last chunk may have fewer (it is never empty). *)
Theorem log_split_chunks lst :
  concat (log_split lst) = lst
  /\ forall i c, log_split lst !! i = Some c ->
       (1 <= length c <= i + 1)%nat
       /\ ((S i < length (log_split lst))%nat -> length c = (i + 1)%nat).
Proof.
  split.
  - apply logsplit_concat. lia.
  - intros i c Hc. apply (logsplit_lookup _ 0 _ _ _ Hc).
Qed.

End LogSplit.

Example log_split_12 :
  log_split (seq 0 12)
  = [[0]; [1; 2]; [3; 4; 5]; [6; 7; 8; 9]; [10; 11]]%nat.
Proof. reflexivity. Qed.

(** ** The global injection path *)

(** [KeyAction.run] sends one [SendInput] call and compares the number of
    inserted events with the number requested. *)
Lemma KeyAction_run_unfold os key down up h inputs :
  GetInput os (KeyAction key down up) = Ok inputs ->
  run os (KeyAction key down up) h
  = let n := SendInput os h inputs in
    (if negb (n =? Z.of_nat (length inputs))
     then Raise (RuntimeError
            ("SendInput() inserted only " +:+ pretty n +:+ " out of "
             +:+ pretty (Z.of_nat (length inputs)) +:+ " keyboard events"))
     else Ok tt,
     h ++ [call_SendInput inputs n]).
Proof.
  intros HI. unfold run, mbind, lift_result, get_history, call, raise, mret.
  rewrite HI. simpl.
  destruct (SendInput os h inputs =? Z.of_nat (length inputs)); reflexivity.
Qed.

(** C4, as the code has it: executing a [KeyAction] raises exactly when the
    number of events the system reports inserted differs from the number
    requested (one, or two for a press-and-release); it completes without
    raising exactly when every requested event was inserted. In both cases
    the one [SendInput] call has been made. *)
Theorem KeyAction_run_raises_iff os key down up h inputs :
  GetInput os (KeyAction key down up) = Ok inputs ->
  let n := SendInput os h inputs in
  let r := run os (KeyAction key down up) h in
  r.2 = h ++ [call_SendInput inputs n]
  /\ (n = Z.of_nat (length inputs) <-> r.1 = Ok tt)
  /\ (n <> Z.of_nat (length inputs)
      <-> exists msg, r.1 = Raise (RuntimeError msg)).
Proof.
  intros HI n r. subst r. rewrite (KeyAction_run_unfold _ _ _ _ _ _ HI).
  fold n. cbv zeta. destruct (Z.eqb_spec n (Z.of_nat (length inputs))) as [E|E];
    simpl; (split; [reflexivity|]); split; split; intros H;
    try done; try (by eexists); try (by destruct H).
Qed.

Lemma KeyAction_run_raises_iff_witness :
  exists inputs,
    GetInput one_event_os (KeyAction "a" true true) = Ok inputs
    /\ (run one_event_os (KeyAction "a" true true) []).2
       = [] ++ [call_SendInput inputs (SendInput one_event_os [] inputs)].
Proof.
  eexists. split; [reflexivity|].
  apply (KeyAction_run_raises_iff one_event_os "a" true true []).
  reflexivity.
Defined.

(** C4 as stated fails: a press-and-release of [a] requests two events; when
    the system inserts one of them, which is not zero, the call raises. *)
Lemma KeyAction_run_one_of_two_raises :
  exists inputs,
    GetInput one_event_os (KeyAction "a" true true) = Ok inputs
    /\ length inputs = 2%nat
    /\ SendInput one_event_os [] inputs = 1
    /\ (run one_event_os (KeyAction "a" true true) []).1
       = Raise (RuntimeError
                  "SendInput() inserted only 1 out of 2 keyboard events").
Proof. eexists. repeat split. Qed.

Lemma WORD_WORD v : WORD (WORD v) = WORD v.
Proof. unfold WORD. by rewrite <- Z.land_assoc. Qed.

Lemma new_KEYBDINPUT_down os vk :
  new_KEYBDINPUT os (WORD vk) 0 = key_down_input os vk.
Proof. unfold new_KEYBDINPUT, key_down_input. by rewrite WORD_WORD. Qed.

Lemma new_KEYBDINPUT_up os vk :
  new_KEYBDINPUT os (WORD vk) KEYEVENTF_KEYUP = key_up_input os vk.
Proof. unfold new_KEYBDINPUT, key_up_input. by rewrite WORD_WORD. Qed.

(** [Press] on the key of an action: a complete cycle, or [WinError] at the
    call that inserted nothing. *)
Lemma Press_cycle os vk h :
  exists c,
    (c.1 <> 0 /\ c.2 <> 0
     /\ Press os (WORD vk) h = (Ok tt, h ++ full_cycle os vk c))
    \/ Press os (WORD vk) h = (Raise WinError, h ++ cut_cycle os vk c.1).
Proof.
  unfold Press, user32_SendInput, mbind, get_history, call, raise, mret.
  cbn [history record trace_events].
  rewrite new_KEYBDINPUT_down, new_KEYBDINPUT_up.
  generalize (SendInput os h [key_down_input os vk]) as a. intros a.
  destruct (Z.eqb_spec a 0) as [->|Ha].
  - exists (0, 0). right. reflexivity.
  - match goal with
    | |- context [SendInput os ?h1 [key_up_input os vk]] =>
        generalize (SendInput os h1 [key_up_input os vk]) as b
    end. intros b.
    exists (a, b). unfold cut_cycle, full_cycle. cbn [fst snd].
    destruct (Z.eqb_spec a 0) as [E|_]; [done|].
    destruct (Z.eqb_spec b 0) as [->|Hb].
    + right. by rewrite <- !app_assoc.
    + left. split; [done|]. split; [done|]. by rewrite <- !app_assoc.
Qed.

Lemma for_each_Press_cycles os vk n h :
  exists counts,
    Forall (fun c => c.1 <> 0 /\ c.2 <> 0) counts
    /\ ((length counts = n
         /\ for_each (replicate n (WORD vk)) (fun v => Press os v) h
            = (Ok tt, h ++ concat (full_cycle os vk <$> counts)))
        \/ ((length counts < n)%nat
            /\ exists n_down,
                 for_each (replicate n (WORD vk)) (fun v => Press os v) h
                 = (Raise WinError,
                    h ++ concat (full_cycle os vk <$> counts)
                      ++ cut_cycle os vk n_down))).
Proof.
  revert h. induction n as [|n IH]; intros h.
  - exists []. split; [constructor|]. left. split; [done|].
    simpl. by rewrite app_nil_r.
  - cbn [replicate for_each]. unfold mbind. cbv beta.
    destruct (Press_cycle os vk h) as (c & [(Ha & Hb & HP)|HP]);
      rewrite HP; cbv beta iota.
    + destruct (IH (h ++ full_cycle os vk c))
        as (counts & Hc & [[Hl HI]|(Hl & nd & HI)]); rewrite HI.
      * exists (c :: counts). split; [by constructor|]. left.
        split; [simpl; lia|]. cbn [fmap list_fmap concat].
        by rewrite <- !app_assoc.
      * exists (c :: counts). split; [by constructor|]. right.
        split; [simpl; lia|]. exists nd. cbn [fmap list_fmap concat].
        by rewrite <- !app_assoc.
    + exists []. split; [constructor|]. right. split; [simpl; lia|].
      exists c.1. reflexivity.
Qed.

(** C8, as the code has it: running a virtual-key or escaped-key action
    calls [Press] once per requested transition, and each call that the
    system accepts is one complete cycle: the key-down of the key, a sleep
    of half a second, the key-up of the key. With [down] and [up] both set
    that makes two complete cycles, with only one of them set still one
    complete cycle, never a single transition. The exception is a
    [SendInput] call that inserts nothing: [Press] raises [WinError] at that
    call, and the cycles after it, and the key-up of the cycle it cut, are
    not sent. *)
Theorem run_presses_per_transition os k down up vk scan flags h :
  uses_Press k = true ->
  action_down k = Ok down ->
  action_up k = Ok up ->
  get_key_info os k = Ok (vk, scan, flags) ->
  let n := if up && down then 2%nat else 1%nat in
  exists counts,
    Forall (fun c => c.1 <> 0 /\ c.2 <> 0) counts
    /\ ((length counts = n
         /\ run os k h
            = (Ok tt, h ++ concat (full_cycle os vk <$> counts)))
        \/ ((length counts < n)%nat
            /\ exists n_down,
                 run os k h
                 = (Raise WinError,
                    h ++ concat (full_cycle os vk <$> counts)
                      ++ cut_cycle os vk n_down))).
Proof.
  intros Hk Hd Hu Hinfo n.
  assert (Hrun : run os k h
    = for_each (replicate n (WORD vk)) (fun v => Press os v) h).
  { subst n. destruct k as [| key d u | key d u |]; try discriminate Hk;
      simpl in Hd, Hu; injection Hd as ->; injection Hu as ->;
      unfold run, GetInput, mbind at 1, lift_result;
      unfold action_up, action_down; rewrite Hinfo; simpl;
      destruct up, down; reflexivity. }
  rewrite Hrun. apply for_each_Press_cycles.
Qed.

Lemma run_presses_per_transition_witness :
  exists counts,
    Forall (fun c => c.1 <> 0 /\ c.2 <> 0) counts
    /\ ((length counts = 1%nat
         /\ run one_event_os (VirtualKeyAction 40 true false) []
            = (Ok tt, [] ++ concat (full_cycle one_event_os 40 <$> counts)))
        \/ ((length counts < 1)%nat
            /\ exists n_down,
                 run one_event_os (VirtualKeyAction 40 true false) []
                 = (Raise WinError,
                    [] ++ concat (full_cycle one_event_os 40 <$> counts)
                       ++ cut_cycle one_event_os 40 n_down))).
Proof.
  apply (run_presses_per_transition one_event_os
           (VirtualKeyAction 40 true false) true false 40 41 1 []);
    reflexivity.
Defined.

(** C8 as stated fails where the system inserts nothing: the action for
    [DOWN] with [down] and [up] both set asks for two cycles, the first
    key-down is rejected, [WinError] is raised, and no cycle is completed:
    the one event is a lone key-down. *)
Lemma run_rejected_no_cycle :
  run rejecting_os (VirtualKeyAction 40 true true) []
  = (Raise WinError,
     [call_SendInput [ {| wVk := 40; wScan := 41; dwFlags := 0;
                          dwExtraInfo := 0 |} ] 0]).
Proof. reflexivity. Qed.

(** ** The targeted injection path *)

Lemma for_each_app {S A : Type} (l1 l2 : list A) (body : A -> M S unit) s :
  for_each (l1 ++ l2) body s
  = match for_each l1 body s with
    | (Ok _, s') => for_each l2 body s'
    | r => r
    end.
Proof.
  revert s. induction l1 as [|x l1 IH]; intros s; simpl.
  - reflexivity.
  - unfold mbind. destruct (body x s) as [[[]| |] s']; auto.
Qed.

(** *** Relating the state before and after a computation *)

Section Preserves.
Context {S : Type} (R : S -> S -> Prop).
Context `{!Reflexive R, !Transitive R}.

Lemma preserves_ret {A : Type} (a : A) : preserves R (mret a).
Proof. intros s r s' [= _ <-]. reflexivity. Qed.

Lemma preserves_raise {A : Type} (e : exn) : preserves R (@raise S A e).
Proof. intros s r s' [= _ <-]. reflexivity. Qed.

Lemma preserves_lift {A : Type} (x : result A) : preserves R (lift_result x).
Proof. intros s r s' [= _ <-]. reflexivity. Qed.

Lemma preserves_bind {A B : Type} (m : M S A) (k : A -> M S B) :
  preserves R m -> (forall a, preserves R (k a)) -> preserves R (mbind m k).
Proof.
  intros Hm Hk s r s'. unfold mbind.
  destruct (m s) as [[a| |] s1] eqn:E; intros H.
  - etransitivity; [by eapply Hm | by eapply Hk].
  - injection H as _ <-. by eapply Hm.
  - injection H as _ <-. by eapply Hm.
Qed.

Lemma preserves_try {A : Type} (m : M S A) (h : exn -> M S A) :
  preserves R m -> (forall e, preserves R (h e)) ->
  preserves R (try_except m h).
Proof.
  intros Hm Hh s r s'. unfold try_except.
  destruct (m s) as [[a|e|] s1] eqn:E; intros H.
  - injection H as _ <-. by eapply Hm.
  - etransitivity; [by eapply Hm | by eapply Hh].
  - injection H as _ <-. by eapply Hm.
Qed.

Lemma preserves_for_each {A : Type} (l : list A) (body : A -> M S unit) :
  (forall x, preserves R (body x)) -> preserves R (for_each l body).
Proof.
  intros Hb. induction l as [|x l IH]; simpl.
  - apply preserves_ret.
  - apply preserves_bind; auto.
Qed.

End Preserves.

Lemma preserves_get_stack (R : Locals -> Locals -> Prop) `{!Reflexive R} :
  preserves R get_stack.
Proof. intros s r s' [= _ <-]. reflexivity. Qed.

Lemma preserves_get_context_code (R : Locals -> Locals -> Prop)
    `{!Reflexive R} :
  preserves R get_context_code.
Proof. intros s r s' [= _ <-]. reflexivity. Qed.

Ltac preserves_step :=
  first
    [ apply preserves_ret; apply _
    | apply preserves_raise; apply _
    | apply preserves_lift; apply _
    | apply preserves_bind; [apply _| |intros ?]
    | match goal with
      | |- preserves _ (if ?b then _ else _) => destruct b eqn:?
      | |- preserves _ (match ?x with _ => _ end) => destruct x
      end ].

#[local] Instance grows_refl P : Reflexive (grows P).
Proof. intros s. exists []. by rewrite app_nil_r. Qed.

#[local] Instance grows_trans P : Transitive (grows P).
Proof.
  intros s1 s2 s3 (e1 & H1 & F1) (e2 & H2 & F2). exists (e1 ++ e2).
  rewrite H2, H1, app_assoc. split; [done|]. by apply Forall_app.
Qed.

Lemma grows_call P ev : P ev -> preserves (grows P) (call ev).
Proof.
  intros Hev s r s' [= _ <-]. exists [ev]. split; [done|]. by constructor.
Qed.

Lemma grows_set_stack P st : preserves (grows P) (set_stack st).
Proof. intros s r s' [= _ <-]. exists []. by rewrite app_nil_r. Qed.

Lemma grows_set_context_code P c : preserves (grows P) (set_context_code c).
Proof. intros s r s' [= _ <-]. exists []. by rewrite app_nil_r. Qed.

Lemma grows_impl {A : Type} (P Q : Event -> Prop) (m : M Locals A) :
  (forall ev, P ev -> Q ev) -> preserves (grows P) m -> preserves (grows Q) m.
Proof.
  intros HPQ Hm s r s' H. destruct (Hm s r s' H) as (evs & Hev & Hevs).
  exists evs. split; [done|]. by eapply Forall_impl.
Qed.

Ltac grows_step :=
  first
    [ apply preserves_get_stack; apply _
    | apply preserves_get_context_code; apply _
    | apply grows_set_stack
    | apply grows_set_context_code
    | apply grows_call; exact I
    | apply grows_call; reflexivity
    | preserves_step ].

Lemma down_transition_posting handle msg vk scan flags sh :
  preserves (grows (posts vk)) (down_transition handle msg vk scan flags sh).
Proof. unfold down_transition. repeat grows_step. Qed.

Lemma up_transition_posting handle msg vk scan flags :
  preserves (grows (posts vk)) (up_transition handle msg vk scan flags).
Proof. unfold up_transition. repeat grows_step. Qed.

Ltac run_M :=
  unfold mbind, mret, raise, lift_result, call, get_stack, set_stack,
    get_context_code, set_context_code;
  cbn [record locals_events events keyboard_state_stack context_code].

Lemma py_last_snoc {A : Type} (l : list A) (x : A) : py_last (l ++ [x]) = Ok x.
Proof. unfold py_last. by rewrite last_snoc. Qed.

Lemma py_last_Ok {A : Type} (l : list A) (x : A) :
  py_last l = Ok x -> l <> [].
Proof. by destruct l. Qed.

Lemma py_last_nonempty {A : Type} (l : list A) :
  l <> [] -> exists x, py_last l = Ok x.
Proof.
  intros Hl. destruct (last l) as [x|] eqn:E.
  - exists x. unfold py_last. by rewrite E.
  - by apply last_None in E.
Qed.

Lemma set_pressed_length state vk state' :
  set_pressed state vk = Ok state' -> length state' = length state.
Proof.
  unfold set_pressed. destruct (state !! Z.to_nat vk); [|done].
  intros [= <-]. apply length_insert.
Qed.

Lemma set_pressed_in_range state vk :
  0 <= vk < Z.of_nat (length state) ->
  exists state', set_pressed state vk = Ok state'.
Proof.
  intros Hvk. unfold set_pressed.
  destruct (lookup_lt_is_Some_2 state (Z.to_nat vk)) as [b ->]; [lia|].
  by eexists.
Qed.

(** What a down-transition does to the stack, however it ends: nothing, or
    one push onto a stack that was not empty. *)
Lemma down_transition_stack handle msg vk scan flags sh s r s' :
  down_transition handle msg vk scan flags sh s = (r, s') ->
  keyboard_state_stack s' = keyboard_state_stack s
  \/ (keyboard_state_stack s <> []
      /\ exists new, keyboard_state_stack s'
                     = keyboard_state_stack s ++ [new]).
Proof.
  unfold down_transition. run_M.
  destruct (py_last (keyboard_state_stack s)) as [top| |] eqn:Htop;
    [|intros [= _ <-]; by left..].
  apply py_last_Ok in Htop.
  destruct (set_pressed top vk) as [st1| |]; [|intros [= _ <-]; by left..].
  destruct (Z.land sh 1 =? 1).
  - destruct (set_pressed st1 VK_SHIFT) as [st2| |];
      [|intros [= _ <-]; by left..].
    rewrite py_last_snoc.
    destruct (vk =? VK_MENU); intros [= _ <-]; right; eauto.
  - rewrite py_last_snoc.
    destruct (vk =? VK_MENU); intros [= _ <-]; right; eauto.
Qed.

(** A down-transition for a key in range on a stack that is not empty
    pushes one snapshot of the same size. *)
Lemma down_transition_push handle msg vk scan flags sh s top :
  py_last (keyboard_state_stack s) = Ok top ->
  0 < vk < Z.of_nat (length top) ->
  VK_SHIFT < Z.of_nat (length top) ->
  exists new s',
    down_transition handle msg vk scan flags sh s = (Ok tt, s')
    /\ keyboard_state_stack s' = keyboard_state_stack s ++ [new]
    /\ length new = length top.
Proof.
  intros Htop Hvk Hshift. unfold down_transition. run_M. rewrite Htop.
  destruct (set_pressed_in_range top vk) as [st1 E1]; [lia|]. rewrite E1.
  apply set_pressed_length in E1.
  destruct (Z.land sh 1 =? 1).
  - destruct (set_pressed_in_range st1 VK_SHIFT) as [st2 E2];
      [unfold VK_SHIFT in *; lia|].
    rewrite E2. apply set_pressed_length in E2. rewrite py_last_snoc.
    destruct (vk =? VK_MENU); eexists _, _;
      (split; [reflexivity|]); (split; [reflexivity|]); congruence.
  - rewrite py_last_snoc.
    destruct (vk =? VK_MENU); eexists _, _;
      (split; [reflexivity|]); (split; [reflexivity|]); congruence.
Qed.

(** What an up-transition does to the stack, however it ends: nothing, or
    one pop. *)
Lemma up_transition_stack handle msg vk scan flags s r s' :
  up_transition handle msg vk scan flags s = (r, s') ->
  keyboard_state_stack s' = keyboard_state_stack s
  \/ keyboard_state_stack s' = removelast (keyboard_state_stack s).
Proof.
  unfold up_transition. run_M.
  destruct (keyboard_state_stack s) as [|x st] eqn:Hst.
  - intros [= _ <-]. by left.
  - cbn [record locals_events events keyboard_state_stack context_code].
    destruct (py_last (removelast (x :: st))) as [top| |];
      [|intros [= _ <-]; by right..].
    destruct (vk =? VK_MENU); intros [= _ <-]; by right.
Qed.

(** An up-transition on a stack of at least two snapshots pops the last. *)
Lemma up_transition_pop handle msg vk scan flags s st x :
  keyboard_state_stack s = st ++ [x] -> st <> [] ->
  exists s',
    up_transition handle msg vk scan flags s = (Ok tt, s')
    /\ keyboard_state_stack s' = st.
Proof.
  intros Hs Hst. unfold up_transition. run_M. rewrite Hs.
  destruct (st ++ [x]) as [|y l] eqn:E; [by destruct st|]. rewrite <- E.
  cbn [record locals_events events keyboard_state_stack context_code].
  rewrite removelast_last.
  destruct (py_last_nonempty st Hst) as [top ->].
  destruct (vk =? VK_MENU); eexists; split; reflexivity.
Qed.

(** The context code selects the message pair and nothing else. *)
Lemma resolve_context os loc c c' key dm um vk scan flags sh :
  resolve os loc c key = Ok (dm, um, vk, scan, flags, sh) ->
  exists dm' um', resolve os loc c' key = Ok (dm', um', vk, scan, flags, sh).
Proof.
  unfold resolve. destruct (get_key_info os key) as [[[v sc] fl]| |];
    simpl; [|done..].
  destruct (negb (Z.land fl KEYEVENTF_UNICODE =? 0));
    destruct ((v =? VK_MENU) || (c =? 1)), ((v =? VK_MENU) || (c' =? 1));
    intros [= <- <- <- <- <- <-]; eauto.
Qed.

Lemma posted_vk_resolve os loc c key vk :
  posted_vk os loc key = Some vk ->
  exists dm um scan flags sh,
    resolve os loc c key = Ok (dm, um, vk, scan, flags, sh).
Proof.
  unfold posted_vk.
  destruct (resolve os loc 0 key) as [[[[[[dm um] v] scan] flags] sh]| |]
    eqn:E; [|done..].
  intros [= <-]. destruct (resolve_context _ _ _ c _ _ _ _ _ _ _ E)
    as (dm' & um' & E'). eauto 6.
Qed.

Lemma is_down_transition_inv os loc key :
  is_down_transition os loc key = true ->
  action_down key = Ok true /\ action_up key = Ok false
  /\ exists vk, posted_vk os loc key = Some vk /\ 0 < vk < 256.
Proof.
  unfold is_down_transition.
  destruct (action_down key) as [[]| |], (action_up key) as [[]| |],
    (posted_vk os loc key) as [vk|]; try done.
  intros [?%Z.ltb_lt ?%Z.ltb_lt]%andb_true_iff.
  split; [done|]. split; [done|]. exists vk. split; [done|lia].
Qed.

Lemma is_up_transition_inv os loc key :
  is_up_transition os loc key = true ->
  action_down key = Ok false /\ action_up key = Ok true
  /\ exists vk, posted_vk os loc key = Some vk /\ 0 < vk.
Proof.
  unfold is_up_transition.
  destruct (action_down key) as [[]| |], (action_up key) as [[]| |],
    (posted_vk os loc key) as [vk|]; try done.
  intros ?%Z.ltb_lt.
  split; [done|]. split; [done|]. exists vk. split; [done|lia].
Qed.

Lemma loop_body_down os handle loc key s top :
  is_down_transition os loc key = true ->
  py_last (keyboard_state_stack s) = Ok top ->
  length top = 256%nat ->
  exists new s',
    loop_body os handle loc key s = (Ok tt, s')
    /\ keyboard_state_stack s' = keyboard_state_stack s ++ [new]
    /\ length new = 256%nat.
Proof.
  intros (Hd & Hu & vk & Hvk & Hr)%is_down_transition_inv Htop Hlen.
  destruct (posted_vk_resolve _ _ (context_code s) _ _ Hvk)
    as (dm & um & scan & flags & sh & Hres).
  destruct (down_transition_push handle dm vk scan flags sh s top Htop)
    as (new & s' & Hrun & Hst & Hnew); [lia | unfold VK_SHIFT; lia |].
  exists new, s'. split; [|split; [done | congruence]].
  unfold loop_body. unfold mbind at 1, get_context_code at 1.
  unfold mbind at 1, lift_result at 1. rewrite Hres.
  unfold mbind at 1, lift_result at 1. rewrite Hd.
  assert ((0 <? vk) = true) as -> by lia. cbn [andb].
  unfold mbind at 1. rewrite Hrun.
  unfold mbind at 1, lift_result at 1. rewrite Hu. reflexivity.
Qed.

Lemma loop_body_up os handle loc key s st x :
  is_up_transition os loc key = true ->
  keyboard_state_stack s = st ++ [x] -> st <> [] ->
  exists s',
    loop_body os handle loc key s = (Ok tt, s')
    /\ keyboard_state_stack s' = st.
Proof.
  intros (Hd & Hu & vk & Hvk & Hr)%is_up_transition_inv Hs Hst.
  destruct (posted_vk_resolve _ _ (context_code s) _ _ Hvk)
    as (dm & um & scan & flags & sh & Hres).
  destruct (up_transition_pop handle um vk scan flags s st x Hs Hst)
    as (s' & Hrun & Hst').
  exists s'. split; [|done].
  unfold loop_body. unfold mbind at 1, get_context_code at 1.
  unfold mbind at 1, lift_result at 1. rewrite Hres.
  unfold mbind at 1, lift_result at 1. rewrite Hd. cbn [andb].
  unfold mbind at 1, mret at 1.
  unfold mbind at 1, lift_result at 1. rewrite Hu.
  assert ((0 <? vk) = true) as -> by lia. cbn [andb]. exact Hrun.
Qed.

(** [n] down-transitions push [n] snapshots. *)
Lemma downs_push os handle loc ds : forall s,
  keyboard_state_stack s <> [] ->
  Forall (fun st => length st = 256%nat) (keyboard_state_stack s) ->
  Forall (fun k => is_down_transition os loc k = true) ds ->
  exists pushed s',
    for_each ds (loop_body os handle loc) s = (Ok tt, s')
    /\ keyboard_state_stack s' = keyboard_state_stack s ++ pushed
    /\ length pushed = length ds.
Proof.
  induction ds as [|d ds IH]; intros s Hne Hlen Hds.
  - exists [], s. by rewrite app_nil_r.
  - apply Forall_cons in Hds as [Hd Hds].
    destruct (py_last_nonempty _ Hne) as [top Htop].
    assert (length top = 256%nat) as Htoplen.
    { unfold py_last in Htop.
      destruct (last (keyboard_state_stack s)) as [t|] eqn:E; [|done].
      injection Htop as ->.
      eapply Forall_forall in Hlen; [exact Hlen|].
      apply last_Some in E as [l' ->]. apply elem_of_app. right. by left. }
    destruct (loop_body_down os handle loc d s top Hd Htop Htoplen)
      as (new & s1 & Hrun & Hst & Hnew).
    destruct (IH s1) as (pushed & s' & Hrun' & Hst' & Hp); [| |done|].
    { rewrite Hst. by destruct (keyboard_state_stack s). }
    { rewrite Hst. apply Forall_app. split; [done|]. by constructor. }
    exists (new :: pushed), s'. split; [|split].
    + simpl. unfold mbind. by rewrite Hrun.
    + rewrite Hst', Hst, <- app_assoc. reflexivity.
    + simpl. lia.
Qed.

(** [n] up-transitions pop the [n] snapshots above a stack that is not
    empty. *)
Lemma ups_pop os handle loc us : forall s st pushed,
  keyboard_state_stack s = st ++ pushed -> st <> [] ->
  length pushed = length us ->
  Forall (fun k => is_up_transition os loc k = true) us ->
  exists s',
    for_each us (loop_body os handle loc) s = (Ok tt, s')
    /\ keyboard_state_stack s' = st.
Proof.
  induction us as [|u us IH]; intros s st pushed Hs Hst Hlen Hus.
  - destruct pushed; [|done]. exists s. by rewrite Hs, app_nil_r.
  - apply Forall_cons in Hus as [Hu Hus].
    destruct (decide (pushed = [])) as [->|Hp]; [done|].
    destruct (exists_last Hp) as (pushed' & x & ->).
    rewrite length_app in Hlen. simpl in Hlen.
    destruct (loop_body_up os handle loc u s (st ++ pushed') x Hu)
      as (s1 & Hrun & Hs1).
    { by rewrite Hs, app_assoc. }
    { by destruct st. }
    destruct (IH s1 st pushed' Hs1 Hst) as (s' & Hrun' & Hs'); [lia|done|].
    exists s'. split; [|done]. simpl. unfold mbind. by rewrite Hrun.
Qed.

(** C3: from a stack that holds the base snapshot, [n] down-transitions
    followed by [n] up-transitions run to the end without an exception and
    leave the stack holding exactly the base snapshot, which is then its
    top, unchanged. *)
Theorem stack_restored_after_downs_ups os handle loc ds us s base :
  keyboard_state_stack s = [base] ->
  length base = 256%nat ->
  Forall (fun k => is_down_transition os loc k = true) ds ->
  Forall (fun k => is_up_transition os loc k = true) us ->
  length ds = length us ->
  exists s',
    for_each (ds ++ us) (loop_body os handle loc) s = (Ok tt, s')
    /\ keyboard_state_stack s' = [base]
    /\ py_last (keyboard_state_stack s') = Ok base.
Proof.
  intros Hs Hbase Hds Hus Hlen.
  destruct (downs_push os handle loc ds s) as (pushed & s1 & Hrun & Hs1 & Hp);
    [by rewrite Hs | rewrite Hs; by repeat constructor | done |].
  destruct (ups_pop os handle loc us s1 [base] pushed) as (s' & Hrun' & Hs');
    [by rewrite Hs1, Hs | done | lia | done |].
  exists s'. rewrite for_each_app, Hrun. split; [done|]. by rewrite Hs'.
Qed.

Lemma stack_restored_after_downs_ups_witness :
  exists s',
    for_each ([VirtualKeyAction 16 true false; VirtualKeyAction 65 true false]
              ++ [VirtualKeyAction 65 false true;
                  VirtualKeyAction 16 false true])
      (loop_body sample_os 5 1033) (frame_at_try sample_os 5 false [])
    = (Ok tt, s')
    /\ keyboard_state_stack s' = [snapshot sample_os]
    /\ py_last (keyboard_state_stack s') = Ok (snapshot sample_os).
Proof.
  apply (stack_restored_after_downs_ups sample_os 5 1033
           [VirtualKeyAction 16 true false; VirtualKeyAction 65 true false]
           [VirtualKeyAction 65 false true; VirtualKeyAction 16 false true]
           (frame_at_try sample_os 5 false []) (snapshot sample_os)).
  - reflexivity.
  - reflexivity.
  - repeat constructor.
  - repeat constructor.
  - reflexivity.
Defined.

(** *** No key message with a code that is not positive *)

Lemma posts_positive vk ev : 0 < vk -> posts vk ev -> posted_positive ev.
Proof. intros Hvk. destruct ev; simpl; try done. lia. Qed.

Lemma down_transition_positive handle msg vk scan flags sh :
  0 < vk ->
  preserves (grows posted_positive)
    (down_transition handle msg vk scan flags sh).
Proof.
  intros Hvk. apply (grows_impl (posts vk)); [|apply down_transition_posting].
  intros ev. by apply posts_positive.
Qed.

Lemma up_transition_positive handle msg vk scan flags :
  0 < vk ->
  preserves (grows posted_positive) (up_transition handle msg vk scan flags).
Proof.
  intros Hvk. apply (grows_impl (posts vk)); [|apply up_transition_posting].
  intros ev. by apply posts_positive.
Qed.

Ltac guard_positive :=
  match goal with
  | H : _ && (0 <? _) = true |- _ =>
      apply andb_true_iff in H as [_ ?%Z.ltb_lt]
  end.

Lemma loop_body_positive os handle loc key :
  preserves (grows posted_positive) (loop_body os handle loc key).
Proof.
  unfold loop_body.
  repeat first
    [ apply down_transition_positive; guard_positive; assumption
    | apply up_transition_positive; guard_positive; assumption
    | grows_step ].
Qed.

Lemma handler_positive e : preserves (grows posted_positive) (handler e).
Proof. unfold handler. repeat grows_step. Qed.

Lemma inject_positive os handle loc att act tid cid keys :
  preserves (grows posted_positive)
    (inject os handle loc att act tid cid keys).
Proof.
  unfold inject.
  repeat first
    [ apply preserves_try; [apply _ | |intros ?]
    | apply preserves_for_each; [apply _ | apply _ |intros ?]
    | apply loop_body_positive
    | apply handler_positive
    | grows_step ].
Qed.

Lemma send_keystrokes_frame_positive os handle keystrokes ws wt wn act :
  preserves (grows posted_positive)
    (send_keystrokes_frame os handle keystrokes ws wt wn act).
Proof.
  unfold send_keystrokes_frame.
  repeat first [ apply inject_positive | grows_step ].
Qed.

(** C6: whatever the keystrokes and the options, every key message that
    [send_keystrokes] posts to the window, down or up, carries a virtual-key
    code greater than zero. *)
Theorem send_keystrokes_posts_positive os handle keystrokes ws wt wn act :
  Forall posted_positive
    (send_keystrokes os handle keystrokes ws wt wn act).2.
Proof.
  unfold send_keystrokes.
  destruct (send_keystrokes_frame os handle keystrokes ws wt wn act _)
    as [r s] eqn:E.
  apply send_keystrokes_frame_positive in E as (evs & Hev & Hevs).
  simpl in *. by rewrite Hev.
Qed.

(** *** The frame at [try:] *)

Lemma send_keystrokes_parsed os handle keystrokes ws wt wn act keys :
  parse_keys keystrokes ws wt wn true = Ok keys ->
  send_keystrokes os handle keystrokes ws wt wn act
  = let '(r, s) :=
      inject os handle (GetKeyboardLayout os 0) (attach_success os handle)
        act (GetWindowThreadProcessId os handle) (GetCurrentThreadId os)
        keys (frame_at_try os handle act keys) in
    (r, events s).
Proof.
  intros Hp. unfold send_keystrokes, send_keystrokes_frame, frame_at_try,
    prologue. fold (attach_success os handle). rewrite Hp.
  destruct act, (attach_success os handle); run_M; cbn [negb];
    destruct (existsb is_EscapedKeyAction keys); reflexivity.
Qed.

(** *** The bottom of the stack *)

#[local] Instance keeps_refl P : Reflexive (keeps P).
Proof. intros s H. exact H. Qed.

#[local] Instance keeps_trans P : Transitive (keeps P).
Proof. intros s1 s2 s3 H1 H2 H. by apply H2, H1. Qed.

Lemma down_transition_bottom base handle msg vk scan flags sh :
  preserves (keeps (stack_bottom base))
    (down_transition handle msg vk scan flags sh).
Proof.
  intros s r s' H. unfold keeps, stack_bottom.
  destruct (down_transition_stack _ _ _ _ _ _ _ _ _ H)
    as [->|[Hne [new ->]]]; [done|].
  by destruct (keyboard_state_stack s).
Qed.

Lemma up_transition_bottom base handle msg vk scan flags :
  preserves (keeps (stack_bottom base))
    (up_transition handle msg vk scan flags).
Proof.
  intros s r s' H. unfold keeps, stack_bottom.
  destruct (up_transition_stack _ _ _ _ _ _ _ _ H) as [->| ->]; [done|].
  destruct (keyboard_state_stack s) as [|x [|y st]]; simpl; done.
Qed.

Lemma loop_body_bottom base os handle loc key :
  preserves (keeps (stack_bottom base)) (loop_body os handle loc key).
Proof.
  unfold loop_body.
  repeat first
    [ apply down_transition_bottom
    | apply up_transition_bottom
    | apply preserves_get_context_code; apply _
    | preserves_step ].
Qed.

Lemma loop_bottom base os handle loc keys :
  preserves (keeps (stack_bottom base))
    (for_each keys (loop_body os handle loc)).
Proof.
  apply preserves_for_each; [apply _ | apply _ |].
  intros key. apply loop_body_bottom.
Qed.

(** C2, as the code has it, for a call with [activate_window_before=False]
    (the activation clicks, and its click can raise before the loop is
    reached): when an iteration of the loop raises while the keyboard-state
    stack holds a snapshot, the handler prints its message and applies the
    base snapshot, the thread-input queues are detached if the attachment
    had succeeded, and [send_keystrokes] returns normally: the exception is
    swallowed, not rethrown. *)
Theorem send_keystrokes_swallows os handle keystrokes ws wt wn keys e s' :
  parse_keys keystrokes ws wt wn true = Ok keys ->
  for_each keys (loop_body os handle (GetKeyboardLayout os 0))
    (frame_at_try os handle false keys) = (Raise e, s') ->
  keyboard_state_stack s' <> [] ->
  send_keystrokes os handle keystrokes ws wt wn false
  = (Ok tt,
     events s'
     ++ [call_print "fehler"; call_SetKeyboardState (snapshot os)]
     ++ epilogue os handle false).
Proof.
  intros Hp Hloop Hne. rewrite (send_keystrokes_parsed _ _ _ _ _ _ _ _ Hp).
  assert (Hb : stack_bottom (snapshot os) s').
  { eapply (loop_bottom (snapshot os)); [exact Hloop|]. reflexivity. }
  unfold stack_bottom in Hb. unfold inject.
  unfold mbind at 1, try_except. rewrite Hloop.
  unfold handler. run_M.
  destruct (keyboard_state_stack s') as [|x st]; [done|]. subst x.
  unfold epilogue.
  destruct (attach_success os handle); run_M;
    rewrite <- ?app_assoc; reflexivity.
Qed.

Lemma send_keystrokes_swallows_witness :
  exists s',
    for_each [PauseAction "1"]
      (loop_body sample_os 5 (GetKeyboardLayout sample_os 0))
      (frame_at_try sample_os 5 false [PauseAction "1"])
    = (Raise AttributeError, s')
    /\ send_keystrokes sample_os 5 "{PAUSE 1}" true true true false
       = (Ok tt,
          events s'
          ++ [call_print "fehler"; call_SetKeyboardState (snapshot sample_os)]
          ++ epilogue sample_os 5 false).
Proof.
  eexists. split; [reflexivity|].
  apply (send_keystrokes_swallows sample_os 5 "{PAUSE 1}" true true true
           [PauseAction "1"] AttributeError).
  - vm_compute. reflexivity.
  - reflexivity.
  - discriminate.
Defined.

(** C2 as stated fails: called with [activate_window_before=False], the
    loop over the compilation of ["{PAUSE 1}"] raises [AttributeError] at
    its first action, and [send_keystrokes] returns normally. *)
Lemma send_keystrokes_pause_not_rethrown :
  exists keys s',
    parse_keys "{PAUSE 1}" true true true true = Ok keys
    /\ for_each keys (loop_body sample_os 5 (GetKeyboardLayout sample_os 0))
         (frame_at_try sample_os 5 false keys) = (Raise AttributeError, s')
    /\ (send_keystrokes sample_os 5 "{PAUSE 1}" true true true false).1
       = Ok tt.
Proof.
  eexists _, _. split; [vm_compute; reflexivity|].
  split; vm_compute; reflexivity.
Qed.


(** *** Unknown codes *)

Lemma handle_code_unknown rec code vk_packet :
  CODES !! code = None ->
  (1 < Py.len code)%nat ->
  Py.contains " " code = false ->
  handle_code rec code vk_packet
  = Raise (RuntimeError ("Unknown code: " +:+ code)).
Proof.
  intros HC Hlen Hsp. unfold handle_code. rewrite HC, Hsp.
  destruct (Nat.eqb_spec (Py.len code) 1) as [E|_]; [lia|]. reflexivity.
Qed.

(** A code without a space compiles to one action. *)
Lemma handle_code_no_space rec code vk_packet ks :
  Py.contains " " code = false ->
  handle_code rec code vk_packet = Ok ks -> length ks = 1%nat.
Proof.
  intros Hsp. unfold handle_code. rewrite Hsp.
  destruct (CODES !! code); [by intros [= <-]|].
  destruct (Py.len code =? 1)%nat; [|done].
  destruct (if negb vk_packet then ascii_vk !! code else None);
    by intros [= <-].
Qed.

Lemma prefix_space_cons x b s :
  String.prefix (String " " x) (String b s) = true -> b = " "%char.
Proof.
  cbn [String.prefix].
  destruct (ascii_dec " " b) as [<-|]; [done|intros H; discriminate H].
Qed.

Lemma lower_ascii_space b : Py.lower_ascii b = " "%char -> b = " "%char.
Proof.
  destruct b as [[] [] [] [] [] [] [] []]; vm_compute; intros H;
    first [reflexivity | discriminate H].
Qed.

(** A string that holds no space does not hold, in lower case, a text that
    begins with a space. *)
Lemma no_space_no_event x code :
  Py.contains " " code = false ->
  Py.contains (String " " x) (Py.lower code) = false.
Proof.
  unfold Py.contains. induction code as [|b code IH]; [done|].
  cbn [String.index Py.lower].
  destruct (String.prefix " " (String b code)) eqn:Hp; [done|].
  destruct (String.index 0 " " code) eqn:Hi; [done|]. intros _.
  destruct (String.prefix (String " " x)
              (String (Py.lower_ascii b) (Py.lower code))) eqn:Hp'.
  - apply prefix_space_cons, lower_ascii_space in Hp' as ->.
    cbn [String.prefix] in Hp.
    destruct (ascii_dec " " " "); [by destruct code|done].
  - specialize (IH eq_refl).
    destruct (String.index 0 (String " " x) (Py.lower code)); done.
Qed.

Lemma has_key_event_no_space code :
  Py.contains " " code = false -> has_key_event code = false.
Proof.
  intros H. unfold has_key_event. by rewrite !no_space_no_event.
Qed.

Lemma index_closing_brace code :
  String.index 0 "}" code = None ->
  String.index 0 "}" (code +:+ "}") = Some (String.length code).
Proof.
  induction code as [|b code IH]; [done|].
  change (String b code +:+ "}") with (String b (code +:+ "}")).
  cbn [String.index String.length].
  assert (Hpre : forall t, String.prefix "}" (String b t)
                           = if ascii_dec "}" b then true else false).
  { intros t. cbn [String.prefix].
    destruct (ascii_dec "}" b); [by destruct t|done]. }
  rewrite !Hpre. destruct (ascii_dec "}" b); [done|].
  destruct (String.index 0 "}" code); [done|]. intros _.
  by rewrite IH.
Qed.

Lemma substring_append s t :
  String.substring 0 (String.length s) (s +:+ t) = s.
Proof.
  induction s as [|b s IH]; simpl.
  - by destruct t.
  - by rewrite IH.
Qed.

Lemma result_bind_Ok {A B : Type} (a : A) (k : A -> result B) :
  (Ok a ≫= k) = k a.
Proof. reflexivity. Qed.

Lemma MODIFIERS_brace : MODIFIERS !! "{" = None.
Proof. vm_compute. reflexivity. Qed.

(** The iteration of [parse_keys] that meets an opening brace at index 0
    and finds the closing one. *)
Lemma parse_keys_while_brace fuel rest ws wt wn vkp keys mods esc end_pos :
  Py.find "}" (String "{" rest) 2 = Some end_pos ->
  parse_keys_while (S fuel) (String "{" rest) ws wt wn vkp keys mods esc 0
  = '(current_keys, esc') ←
      parse_braces
        (fun s vkp =>
           fst <$> parse_keys_while fuel s false false false vkp [] []
                     false 0%nat)
        (Py.slice (String "{" rest) 1 end_pos) vkp esc;
    parse_keys_while fuel (String "{" rest) ws wt wn vkp
      ((keys ++ current_keys) ++ release_all mods) [] esc' (S end_pos).
Proof.
  intros Hfind. cbn [parse_keys_while].
  change (Py.getitem (String "{" rest) 0) with (Some "{"%string).
  cbv iota beta. rewrite MODIFIERS_brace.
  change (String.eqb "{" "(") with false.
  change (String.eqb "{" "{") with true. cbv iota.
  rewrite Hfind. reflexivity.
Qed.

(** C10: a braced code that is not a key name, has more than one character
    and holds no space makes the compiler raise [RuntimeError] with the
    message [Unknown code: ...], not [KeySequenceError]. (The code is what
    stands between the braces: no closing brace occurs in it after its first
    character.) *)
Theorem unknown_code_RuntimeError code ws wt wn vk_packet :
  CODES !! code = None ->
  (1 < Py.len code)%nat ->
  Py.contains " " code = false ->
  Py.find "}" code 1 = None ->
  parse_keys ("{" +:+ code +:+ "}") ws wt wn vk_packet
  = Raise (RuntimeError ("Unknown code: " +:+ code)).
Proof.
  intros HC Hlen Hsp Hbr.
  destruct code as [|b code]; [simpl in Hlen; lia|].
  change ("{" +:+ String b code +:+ "}")
    with (String "{" (String b (code +:+ "}"))).
  assert (Hfind : Py.find "}" (String "{" (String b (code +:+ "}"))) 2
                  = Some (S (Py.len (String b code)))).
  { unfold Py.find in *. cbn [String.index] in *.
    destruct (String.index 0 "}" code) eqn:Hi; [done|].
    by rewrite (index_closing_brace _ Hi). }
  assert (Hslice : Py.slice (String "{" (String b (code +:+ "}"))) 1
                     (S (Py.len (String b code))) = String b code).
  { unfold Py.slice, Py.len.
    replace (S (String.length (String b code)) - 1)%nat
      with (String.length (String b code)) by lia.
    apply (substring_append (String b code) "}"). }
  unfold parse_keys.
  rewrite (parse_keys_while_brace _ _ _ _ _ _ _ _ _ _ Hfind), Hslice.
  unfold parse_braces.
  rewrite (has_key_event_no_space _ Hsp).
  rewrite result_bind_Ok.
  rewrite (handle_code_unknown _ _ _ HC Hlen Hsp). reflexivity.
Qed.

Lemma unknown_code_RuntimeError_witness :
  parse_keys ("{" +:+ "FOO" +:+ "}") false false false true
  = Raise (RuntimeError ("Unknown code: " +:+ "FOO")).
Proof.
  apply (unknown_code_RuntimeError "FOO" false false false true).
  - vm_compute. reflexivity.
  - simpl. lia.
  - reflexivity.
  - reflexivity.
Defined.

(** ** The fuel of [parse_keys] is enough *)

Lemma length_str l : String.length (Py.str l) = length l.
Proof. induction l as [|a l IH]; simpl; [done|]. by rewrite IH. Qed.

Lemma length_chars s : length (Py.chars s) = String.length s.
Proof. induction s as [|a s IH]; simpl; [done|]. by rewrite IH. Qed.

Lemma length_drop_while p l : (length (Py.drop_while p l) <= length l)%nat.
Proof.
  induction l as [|a l IH]; simpl; [done|]. destruct (p a); simpl; lia.
Qed.

Lemma rsplit1_length code to_repeat count :
  Py.rsplit1 code = [to_repeat; count] ->
  (String.length to_repeat <= String.length code)%nat.
Proof.
  unfold Py.rsplit1.
  set (r := Py.drop_while Py.isspace (rev (Py.chars code))).
  assert (Hr : (length r <= String.length code)%nat).
  { subst r.
    pose proof (length_drop_while Py.isspace (rev (Py.chars code))) as H.
    rewrite length_rev, length_chars in H. exact H. }
  destruct r as [|a r'] eqn:Er; [done|].
  set (rest := Py.drop_while Py.isspace
                 (Py.drop_while (fun a => negb (Py.isspace a)) (a :: r'))).
  assert (Hrest : (length rest <= length (a :: r'))%nat).
  { subst rest.
    pose proof (length_drop_while Py.isspace
      (Py.drop_while (fun a => negb (Py.isspace a)) (a :: r'))) as H1.
    pose proof (length_drop_while (fun a => negb (Py.isspace a)) (a :: r'))
      as H2.
    lia. }
  destruct rest as [|b rest'] eqn:Erest; [done|].
  intros [= <- _]. rewrite length_str.
  pose proof (length_rev (b :: rest')) as Hrev. simpl in *. lia.
Qed.

Lemma split_space_go_length cur l c e :
  Py.split_space_go cur l = [c; e] ->
  (String.length c <= length cur + length l)%nat.
Proof.
  revert cur. induction l as [|a l IH]; intros cur; simpl; [done|].
  destruct (Ascii.eqb a " ").
  - intros [= <- _]. rewrite length_str, length_rev. lia.
  - intros H%IH. simpl in H. lia.
Qed.

Lemma split_space_length code c e :
  Py.split_space code = [c; e] ->
  (String.length c <= String.length code)%nat.
Proof.
  intros H%split_space_go_length. by rewrite length_chars in H.
Qed.

Lemma length_substring n m s :
  (String.length (String.substring n m s) <= m)%nat.
Proof.
  revert n m. induction s as [|a s IH]; intros [|n] [|m]; simpl;
    try lia; try apply IH.
  specialize (IH 0%nat m). lia.
Qed.

Lemma length_slice s i j : (Py.len (Py.slice s i j) <= j - i)%nat.
Proof. apply length_substring. Qed.

Lemma prefix_length s1 s2 :
  String.prefix s1 s2 = true -> (String.length s1 <= String.length s2)%nat.
Proof.
  revert s2. induction s1 as [|a s1 IH]; intros [|b s2]; cbn [String.prefix];
    simpl String.length; try lia; try done.
  destruct (ascii_dec a b); [|done]. intros H%IH. lia.
Qed.

(** [find] answers an index at or after [start] at which [sub] fits. *)
Lemma find_bounds sub s start pos :
  Py.find sub s start = Some pos ->
  (start <= pos /\ pos + String.length sub <= String.length s)%nat.
Proof.
  unfold Py.find. revert start pos.
  induction s as [|b s IH]; intros [|start] pos; cbn [String.index].
  - destruct sub; [|done]. intros [= <-]. simpl. lia.
  - done.
  - destruct (String.prefix sub (String b s)) eqn:Hp.
    + intros [= <-]. apply prefix_length in Hp. lia.
    + destruct (String.index 0 sub s) as [n|] eqn:Hi; [|done].
      intros [= <-]. apply IH in Hi. simpl. lia.
  - destruct (String.index start sub s) as [n|] eqn:Hi; [|done].
    intros [= <-]. apply IH in Hi. simpl. lia.
Qed.

Lemma getitem_Some s i c : Py.getitem s i = Some c -> (i < Py.len s)%nat.
Proof.
  unfold Py.getitem, Py.len. revert i.
  induction s as [|a s IH]; intros [|i]; simpl; try done; try lia.
  intros H%IH. lia.
Qed.

Lemma handle_code_fuel rec code vk_packet :
  (forall s vkp, (Py.len s <= Py.len code)%nat -> rec s vkp <> OutOfFuel) ->
  handle_code rec code vk_packet <> OutOfFuel.
Proof.
  intros Hrec. unfold handle_code.
  destruct (CODES !! code); [done|].
  destruct (Py.len code =? 1)%nat.
  { by destruct (if negb vk_packet then ascii_vk !! code else None). }
  destruct (Py.contains " " code); [|done].
  destruct (Py.rsplit1 code) as [|to_repeat [|count [|]]] eqn:Hsplit;
    try done.
  destruct (String.eqb to_repeat "PAUSE"); [by destruct (Py.float count)|].
  destruct (Py.int count); [|done].
  destruct (CODES !! to_repeat); [done|].
  apply rsplit1_length in Hsplit.
  specialize (Hrec to_repeat vk_packet Hsplit).
  by destruct (rec to_repeat vk_packet).
Qed.

Lemma parse_braces_fuel rec code vk_packet esc :
  (forall s vkp, (Py.len s <= Py.len code)%nat -> rec s vkp <> OutOfFuel) ->
  parse_braces rec code vk_packet esc <> OutOfFuel.
Proof.
  intros Hrec. unfold parse_braces.
  destruct (has_key_event code).
  - destruct (Py.split_space code) as [|c [|e [|]]] eqn:Hsplit; try done.
    apply split_space_length in Hsplit.
    rewrite result_bind_Ok.
    pose proof (handle_code_fuel rec c vk_packet) as Hh.
    destruct (handle_code rec c vk_packet) as [ks| |]; [|done|].
    + rewrite result_bind_Ok. destruct ks as [|[] ks]; done.
    + exfalso. apply Hh; [|done]. intros s vkp Hs. apply Hrec.
      unfold Py.len in *. lia.
  - rewrite result_bind_Ok.
    pose proof (handle_code_fuel rec code vk_packet Hrec) as Hh.
    destruct (handle_code rec code vk_packet) as [ks| |]; done.
Qed.

Lemma parse_keys_while_fuel fuel :
  forall string ws wt wn vkp keys mods esc index,
    (Py.len string - index < fuel)%nat ->
    parse_keys_while fuel string ws wt wn vkp keys mods esc index
    <> OutOfFuel.
Proof.
  induction fuel as [|fuel IH];
    intros string ws wt wn vkp keys mods esc index Hfuel; [lia|].
  cbn [parse_keys_while].
  destruct (Py.getitem string index) as [c|] eqn:Hc; [|done].
  apply getitem_Some in Hc.
  destruct (MODIFIERS !! c); [apply IH; lia|].
  destruct (String.eqb c "(").
  { destruct (Py.find ")" string (S index)) as [end_pos|] eqn:Hf; [|done].
    apply find_bounds in Hf as [Hlo Hhi]. simpl in Hhi.
    pose proof (length_slice string (S index) end_pos) as Hsl.
    pose proof (IH (Py.slice string (S index) end_pos) false false false
                  vkp [] mods false 0%nat) as Hin.
    destruct (parse_keys_while fuel (Py.slice string (S index) end_pos)
                false false false vkp [] mods false 0) as [[sub mods']| |];
      [|done|exfalso; apply Hin; [unfold Py.len in *; lia|done]].
    rewrite result_bind_Ok. apply IH. unfold Py.len in *. lia. }
  destruct (String.eqb c "{").
  { destruct (Py.find "}" string (S (S index))) as [end_pos|] eqn:Hf; [|done].
    apply find_bounds in Hf as [Hlo Hhi]. simpl in Hhi.
    pose proof (length_slice string (S index) end_pos) as Hsl.
    match goal with
    | |- context [parse_braces ?rec ?code ?v ?e] =>
        pose proof (parse_braces_fuel rec code v e) as Hb;
        destruct (parse_braces rec code v e) as [[ks esc']| |]
    end; [|done|].
    - rewrite result_bind_Ok. apply IH. unfold Py.len in *. lia.
    - exfalso. apply Hb; [|done]. intros s v Hs.
      pose proof (IH s false false false v [] [] false 0%nat) as Hin.
      destruct (parse_keys_while fuel s false false false v [] [] false 0)
        as [[? ?]| |]; [done|done|].
      exfalso. apply Hin; [unfold Py.len in *; lia|done]. }
  destruct (String.eqb c ")"); [done|].
  destruct (String.eqb c "}"); [done|].
  match goal with |- context [if ?b then _ else _] => destruct b end;
    apply IH; lia.
Qed.

(** The model of [parse_keys] never runs out of fuel: on every notation it
    returns the compiled sequence or raises. *)
Theorem parse_keys_total string ws wt wn vkp :
  parse_keys string ws wt wn vkp <> OutOfFuel.
Proof.
  unfold parse_keys.
  pose proof (parse_keys_while_fuel (S (Py.len string)) string ws wt wn vkp
                [] [] false 0%nat) as H.
  destruct (parse_keys_while (S (Py.len string)) string ws wt wn vkp [] []
              false 0) as [[? ?]| |]; [done|done|].
  exfalso. apply H; [lia|done].
Qed.

(** X1: [parse_keys] finishes on every notation and with every setting of
    its flags: it returns a sequence of actions or raises. Every iteration
    of its loop moves the index forward, and every recursive call is on a
    strictly shorter string. *)
Theorem parse_keys_returns_or_raises string ws wt wn vkp :
  (exists keys, parse_keys string ws wt wn vkp = Ok keys)
  \/ (exists e, parse_keys string ws wt wn vkp = Raise e).
Proof.
  pose proof (parse_keys_total string ws wt wn vkp) as H.
  destruct (parse_keys string ws wt wn vkp) as [keys|e|]; [left|right|done];
    eexists; reflexivity.
Qed.

(** ** More on the scheduler's split *)

Lemma triangle_double i : (2 * triangle i = i * (i + 1))%nat.
Proof. induction i as [|i IH]; simpl; lia. Qed.

Section LogSplitFormula.
Context {A : Type}.
Implicit Types (lst : list A) (fuel n i : nat).

Lemma logsplit_lookup_formula fuel n lst i :
  (length lst <= fuel)%nat ->
  logsplit fuel n lst !! i
  = if (i * n + triangle i <? length lst)%nat
    then Some (take (n + i + 1) (drop (i * n + triangle i) lst))
    else None.
Proof.
  revert n lst i. induction fuel as [|fuel IH]; intros n [|e rest] i Hlen;
    simpl in Hlen; try lia.
  - simpl. rewrite lookup_nil.
    by destruct (Nat.ltb_spec (i * n + triangle i) 0); [lia|].
  - simpl. rewrite lookup_nil.
    by destruct (Nat.ltb_spec (i * n + triangle i) 0); [lia|].
  - destruct i as [|i]; simpl.
    + replace (n + 0 + 1)%nat with (S n) by lia. done.
    + rewrite IH by (rewrite length_drop; lia).
      rewrite length_drop, drop_drop.
      replace (i * S n + triangle i)%nat with (i * n + i + triangle i)%nat
        by lia.
      replace (n + i * n + (triangle i + S i))%nat
        with (S (n + (i * n + i + triangle i)))%nat by lia.
      replace (S n + i + 1)%nat with (n + S i + 1)%nat by lia.
      simpl.
      destruct (Nat.ltb_spec (i * n + i + triangle i) (length rest - n)),
        (Nat.ltb_spec (S (n + (i * n + i + triangle i))) (S (length rest)));
        try lia; done.
Qed.

Lemma log_split_chunk_at lst i :
  log_split lst !! i
  = if (triangle i <? length lst)%nat
    then Some (take (i + 1) (drop (triangle i) lst))
    else None.
Proof.
  unfold log_split. rewrite logsplit_lookup_formula by lia.
  by rewrite Nat.mul_0_r.
Qed.

(** X2: chunk [i] of [log_split] is the slice of the input that starts at
    [0 + 1 + ... + i] and has up to [i + 1] elements; there is such a chunk
    exactly when the input is longer than that start. *)
Theorem log_split_lookup lst i :
  log_split lst !! i
  = if (triangle i <? length lst)%nat
    then Some (take (i + 1) (drop (triangle i) lst))
    else None.
Proof.
  unfold log_split. rewrite logsplit_lookup_formula by lia.
  replace (i * 0 + triangle i)%nat with (triangle i) by lia. done.
Qed.

(** X3: the number of chunks [k] of a non-empty input of length [n] is the
    one with [k (k - 1) / 2 < n <= k (k + 1) / 2]. *)
Theorem log_split_count lst k :
  length (log_split lst) = S k ->
  (triangle k < length lst <= triangle (S k))%nat.
Proof.
  intros Hk.
  assert (H1 : is_Some (log_split lst !! k))
    by (apply lookup_lt_is_Some; lia).
  assert (H2 : log_split lst !! S k = None)
    by (apply lookup_ge_None; lia).
  rewrite log_split_chunk_at in H1, H2.
  destruct (Nat.ltb_spec (triangle k) (length lst));
    [|by destruct H1].
  destruct (Nat.ltb_spec (triangle (S k)) (length lst)); [done|].
  simpl in *. lia.
Qed.

Lemma log_split_nil lst : log_split lst = [] <-> lst = [].
Proof.
  split; [|by intros ->].
  intros H. destruct lst as [|e rest]; [done|]. discriminate H.
Qed.

End LogSplitFormula.

Lemma log_split_count_witness :
  (triangle 2 < length [1; 2; 3; 4; 5] <= triangle 3)%nat.
Proof. apply (log_split_count [1; 2; 3; 4; 5] 2). reflexivity. Defined.

Lemma logsplit_fmap {A B : Type} (f : A -> B) fuel n (lst : list A) :
  logsplit fuel n (f <$> lst) = fmap (M:=list) f <$> logsplit fuel n lst.
Proof.
  revert n lst. induction fuel as [|fuel IH]; intros n [|e rest]; simpl;
    try done.
  rewrite <- fmap_take, <- fmap_drop, IH. done.
Qed.

Lemma log_split_fmap {A B : Type} (f : A -> B) (lst : list A) :
  log_split (f <$> lst) = fmap (M:=list) f <$> log_split lst.
Proof. unfold log_split. by rewrite length_fmap, logsplit_fmap. Qed.

(** X4: splitting several iterables at once splits each of them, cut to the
    length of the shortest, in the same way. *)
Theorem log_split2_components {A B : Type} (a : list A) (b : list B) :
  fmap (M:=list) fst <$> log_split2 a b = log_split (take (length b) a)
  /\ fmap (M:=list) snd <$> log_split2 a b = log_split (take (length a) b).
Proof.
  unfold log_split2. rewrite <- !log_split_fmap. split; f_equal.
  - rewrite <- (zip_with_take_l pair a b).
    apply fst_zip. rewrite length_take. lia.
  - rewrite <- (zip_with_take_r pair a b).
    apply snd_zip. rewrite length_take. lia.
Qed.

(** *** The threads of [press_multiple_keys] *)

Lemma length_range n : length (range n) = Z.to_nat n.
Proof. unfold range. by rewrite length_fmap, length_seq. Qed.

(** X5: key [i] of [press_multiple_keys] gets chunk [i] of the split of
    [range(presstime)]: when the whole chunk fits, that is the [i + 1]
    consecutive ticks from [0 + 1 + ... + i] on; a key whose chunk would
    start at or after [presstime] gets no entry, so no thread. *)
Theorem allk_lookup {K : Type} (keystopress : list K) (presstime : Z) i k :
  keystopress !! i = Some k ->
  (Z.of_nat (triangle (S i)) <= presstime ->
   allk keystopress presstime !! i
   = Some (k, S i, Z.of_nat <$> seq (triangle i) (S i)))
  /\ (presstime <= Z.of_nat (triangle i) ->
      allk keystopress presstime !! i = None).
Proof.
  intros Hk. unfold allk.
  rewrite list_lookup_fmap, lookup_zip_with, Hk, log_split_chunk_at,
    length_range. simpl.
  split; intros HP.
  - destruct (Nat.ltb_spec (triangle i) (Z.to_nat presstime));
      [|simpl in HP; lia].
    simpl. unfold range. rewrite <- fmap_drop, <- fmap_take, drop_seq,
      take_seq. simpl in HP.
    replace ((i + 1) `min` (Z.to_nat presstime - triangle i))%nat
      with (S i) by lia.
    by rewrite length_fmap, length_seq.
  - destruct (Nat.ltb_spec (triangle i) (Z.to_nat presstime)); [lia|done].
Qed.

Lemma allk_lookup_witness :
  allk ["a"; "b"; "c"]%string 6 !! 2%nat
  = Some ("c"%string, 3%nat, Z.of_nat <$> seq (triangle 2) 3).
Proof.
  apply (allk_lookup ["a"; "b"; "c"]%string 6 2 "c"%string); [reflexivity|].
  simpl. lia.
Defined.

(** With a [presstime] that is not positive no thread is started. *)
Lemma allk_nonpositive {K : Type} (keystopress : list K) (presstime : Z) :
  presstime <= 0 -> allk keystopress presstime = [].
Proof.
  intros HP. unfold allk, range.
  replace (Z.to_nat presstime) with 0%nat by lia.
  by destruct keystopress.
Qed.

(** *** The path of [natural_mouse_movement] *)

Lemma mapM_py_last_cons {A : Type} (c : list A) (x : A) (cs : list (list A)) :
  mapM py_last ((c ++ [x]) :: cs)
  = picked ← mapM py_last cs; Ok (x :: picked).
Proof. simpl. rewrite py_last_snoc. by destruct (mapM py_last cs). Qed.

Lemma mapM_py_last_chunks {A : Type} (cs : list (list A)) :
  Forall (fun c => c <> []) cs ->
  exists picked, mapM py_last cs = Ok picked /\ length picked = length cs.
Proof.
  induction 1 as [|c cs Hc _ (picked & IH & Hl)]; [by exists []|].
  destruct (py_last_nonempty c Hc) as [x Hx].
  exists (x :: picked). simpl. rewrite Hx, IH. by rewrite <- Hl.
Qed.


Lemma every_head {A : Type} fuel step (x : A) l :
  every (S fuel) step (x :: l) = x :: every fuel step (drop step (x :: l)).
Proof. reflexivity. Qed.

(** X6: whatever the random variation and the stride, the path
    [natural_mouse_movement] follows ends exactly at the target; only a
    stride of 0 fails, with [ValueError], before any move. *)
Theorem natural_path_ends_at_target {A : Type} (varied : list A)
    (use_every : Z) (target : A) :
  (use_every = 0 -> natural_path varied use_every target = Raise ValueError)
  /\ (use_every <> 0 ->
      exists path, natural_path varied use_every target = Ok path
                   /\ last path = Some target).
Proof.
  unfold natural_path, slice_step. split.
  - intros ->. reflexivity.
  - intros Hne. destruct (Z.eqb_spec use_every 0) as [|_]; [done|].
    set (alla := if 0 <? use_every
                 then every (length (repeat4 varied)) (Z.to_nat use_every)
                        (repeat4 varied)
                 else every (length (repeat4 varied))
                        (Z.to_nat (- use_every)) (reverse (repeat4 varied))).
    assert (Hrun : (alla0 ← (if 0 <? use_every
                   then Ok (every (length (repeat4 varied))
                              (Z.to_nat use_every) (repeat4 varied))
                   else Ok (every (length (repeat4 varied))
                              (Z.to_nat (- use_every))
                              (reverse (repeat4 varied))));
             picked ← mapM py_last (log_split (reverse (alla0 ++ [target])));
             Ok (reverse picked))
            = (picked ← mapM py_last (log_split (reverse (alla ++ [target])));
               Ok (reverse picked))).
    { subst alla. by destruct (0 <? use_every). }
    rewrite Hrun. clear Hrun. rewrite reverse_snoc.
    generalize (reverse alla) as rest. intros rest.
    change (log_split (target :: rest))
      with (([] ++ [target]) :: logsplit (length rest) 1 rest).
    destruct (mapM_py_last_chunks (logsplit (length rest) 1 rest))
      as (picked & Hp & _).
    { clear. generalize (length rest) at 1 as fuel. generalize 1%nat as n.
      intros n fuel. revert n rest.
      induction fuel as [|fuel IH]; intros n [|e rest]; simpl;
        by constructor. }
    rewrite mapM_py_last_cons, Hp. simpl.
    eexists. split; [reflexivity|]. by rewrite reverse_cons, last_snoc.
Qed.

Lemma natural_path_ends_at_target_witness :
  exists path, natural_path [(1, 1); (2, 3)] 3 (9, 9) = Ok path
               /\ last path = Some (9, 9).
Proof.
  apply (natural_path_ends_at_target [(1, 1); (2, 3)] 3 (9, 9)). lia.
Defined.

(** ** More on the global injection path *)

Lemma sent_inputs_app t1 t2 :
  sent_inputs (t1 ++ t2) = sent_inputs t1 ++ sent_inputs t2.
Proof. apply omap_app. Qed.

(** X7: [send_scancode] does not send the scan code it is given. Both events
    carry the scan code the layout has for virtual key 0, since the
    constructor of [KEYBDINPUT] overwrites [wScan] when the Unicode flag is
    clear; the call never raises. *)
Theorem send_scancode_ignores_code os code h :
  let scan0 := WORD (MapVirtualKeyExW os 0 0 0) in
  let r := send_scancode os code h in
  r.1 = Ok tt
  /\ sent_inputs r.2
     = sent_inputs h
       ++ [[ {| wVk := 0; wScan := scan0; dwFlags := 8; dwExtraInfo := 0 |} ];
           [ {| wVk := 0; wScan := scan0; dwFlags := 10;
                dwExtraInfo := 0 |} ]].
Proof.
  intros scan0 r. subst r. unfold send_scancode, lib_SendInput, mbind,
    get_history, call, mret. simpl. split; [done|].
  rewrite <- app_assoc, sent_inputs_app. reflexivity.
Qed.

(** X8: [send_unicode] never raises, whatever [SendInput] reports, and sends
    for each character of the text, in order, a Unicode key-down and then a
    Unicode key-up. Both carry the low 16 bits of the character's code
    point: the code point itself up to U+FFFF, a truncated one above. *)
Theorem send_unicode_sends_pairs os s h :
  (send_unicode os s h).1 = Ok tt
  /\ sent_inputs (send_unicode os s h).2
     = sent_inputs h ++ (s ≫= unicode_pair).
Proof.
  unfold send_unicode. revert h.
  induction s as [|c l IH]; intros h.
  - simpl. by rewrite app_nil_r.
  - cbn [for_each]. unfold mbind.
    assert (Hc : exists evs, send_unicode_char os c h = (Ok tt, h ++ evs)
                             /\ sent_inputs evs = unicode_pair c).
    { unfold send_unicode_char, lib_SendInput, mbind, get_history, call,
        mret. cbn [history record trace_events].
      eexists [_; _]. rewrite <- app_assoc. split; reflexivity. }
    destruct Hc as (evs & -> & Hevs).
    destruct (IH (h ++ evs)) as [Hr Ht]. split; [done|].
    rewrite Ht, sent_inputs_app, Hevs, <- app_assoc. reflexivity.
Qed.

(** U+1F600 has code point 128512; what is sent carries 62976, its low 16
    bits. *)
Example send_unicode_beyond_16_bits :
  sent_inputs (send_unicode sample_os [128512] []).2
  = [[ {| wVk := 0; wScan := 62976; dwFlags := 4; dwExtraInfo := 0 |} ];
     [ {| wVk := 0; wScan := 62976; dwFlags := 6; dwExtraInfo := 0 |} ]].
Proof. reflexivity. Qed.

(** X9: running a virtual-key or escaped-key action either completes, and
    then no [SendInput] call of it was rejected, or raises [WinError] (or
    what resolving the key raised), and then the rejected call is the last
    event: nothing is sent after a rejection. *)
Theorem run_Press_stops_at_rejection os k h r t :
  uses_Press k = true ->
  run os k h = (r, t) ->
  exists evs, t = h ++ evs
    /\ match r with
       | Ok _ => Forall (fun ev => ~ rejected ev) evs
       | Raise WinError =>
           exists evs' ev, evs = evs' ++ [ev] /\ rejected ev
                           /\ Forall (fun ev => ~ rejected ev) evs'
       | Raise _ => evs = []
       | OutOfFuel => False
       end.
Proof.
  intros Hk. 
  assert (HP : forall v h r t, Press os v h = (r, t) ->
    exists evs, t = h ++ evs
      /\ match r with
         | Ok _ => Forall (fun ev => ~ rejected ev) evs
         | Raise WinError =>
             exists evs' ev, evs = evs' ++ [ev] /\ rejected ev
                             /\ Forall (fun ev => ~ rejected ev) evs'
         | _ => False
         end).
  { clear. intros v h r t. unfold Press, user32_SendInput, mbind,
      get_history, call, raise, mret. cbn [history record trace_events].
    generalize (SendInput os h [new_KEYBDINPUT os v 0]) as n1. intros n1.
    destruct (Z.eqb_spec n1 0) as [E1|E1].
    - intros [= <- <-]. eexists. split; [reflexivity|].
      exists [], (call_SendInput [new_KEYBDINPUT os v 0] n1).
      repeat split; [done|constructor].
    - match goal with
      | |- context [SendInput os ?h1 [new_KEYBDINPUT os v KEYEVENTF_KEYUP]] =>
          generalize (SendInput os h1 [new_KEYBDINPUT os v KEYEVENTF_KEYUP])
            as n2
      end. intros n2.
      destruct (Z.eqb_spec n2 0) as [E2|E2]; intros [= <- <-];
        rewrite <- !app_assoc; (eexists; split; [reflexivity|]).
      + eexists [_; _], _. split; [reflexivity|]. split; [exact E2|].
        repeat (apply Forall_cons; split; [simpl; tauto|]). apply Forall_nil_2.
      + repeat (apply Forall_cons; split; [simpl; tauto|]). apply Forall_nil_2. }
  assert (HL : forall vs h r t,
    for_each vs (fun v => Press os v) h = (r, t) ->
    exists evs, t = h ++ evs
      /\ match r with
         | Ok _ => Forall (fun ev => ~ rejected ev) evs
         | Raise WinError =>
             exists evs' ev, evs = evs' ++ [ev] /\ rejected ev
                             /\ Forall (fun ev => ~ rejected ev) evs'
         | _ => False
         end).
  { clear -HP. induction vs as [|v vs IH]; intros h r t; cbn [for_each].
    - unfold mret. intros [= <- <-]. exists []. by rewrite app_nil_r.
    - unfold mbind. destruct (Press os v h) as [r1 t1] eqn:E1.
      destruct (HP _ _ _ _ E1) as (e1 & -> & H1).
      destruct r1 as [[]|e|]; [|intros [= <- <-]; eauto|done].
      intros E2. destruct (IH _ _ _ E2) as (e2 & -> & H2).
      exists (e1 ++ e2). rewrite app_assoc. split; [done|].
      destruct r as [[]|[]|]; try done.
      + by apply Forall_app.
      + destruct H2 as (evs' & ev & -> & Hrej & Hok).
        exists (e1 ++ evs'), ev. rewrite app_assoc. split; [done|].
        split; [done|]. by apply Forall_app. }
  assert (Hrun : run os k h
    = (do inputs <- lift_result (GetInput os k);
       for_each inputs (fun inp => Press os (wVk inp))) h)
    by (destruct k; try discriminate Hk; reflexivity).
  rewrite Hrun. unfold mbind at 1, lift_result at 1.
  destruct (GetInput os k) as [inputs|e|] eqn:EI.
  - intros E. 
    assert (E' : for_each (wVk <$> inputs) (fun v => Press os v) h = (r, t)).
    { rewrite <- E. clear. revert h.
      induction inputs as [|i l IH]; intros h; [done|].
      cbn [for_each fmap list_fmap]. unfold mbind.
      by destruct (Press os (wVk i) h) as [[[]| |] t1]. }
    destruct (HL _ _ _ _ E') as (evs & -> & H). exists evs. split; [done|].
    destruct r as [[]|[]|]; done.
  - intros [= <- <-]. exists []. rewrite app_nil_r. split; [done|].
    destruct e; try done.
    (* GetInput never raises WinError *)
    exfalso. unfold GetInput in EI.
    destruct k; try discriminate Hk; simpl in EI;
      unfold get_key_info in EI; simpl in EI;
      repeat (case_match; simplify_eq/=).
  - exfalso. unfold GetInput in EI.
    destruct k; try discriminate Hk; simpl in EI;
      repeat (case_match; simplify_eq/=).
Qed.

Lemma run_Press_stops_at_rejection_witness :
  exists evs,
    (run one_event_os (VirtualKeyAction 40 true true) []).2 = [] ++ evs
    /\ Forall (fun ev => ~ rejected ev) evs.
Proof.
  apply (run_Press_stops_at_rejection one_event_os
           (VirtualKeyAction 40 true true) [] (Ok tt)); reflexivity.
Defined.

(** ** What the compiler emits *)

Lemma CODES_range : map_Forall (fun _ v => 0 < v < 256) CODES.
Proof. apply (bool_decide_unpack _). vm_compute. reflexivity. Qed.

Lemma MODIFIERS_range : map_Forall (fun _ v => 0 < v < 256) MODIFIERS.
Proof. apply (bool_decide_unpack _). vm_compute. reflexivity. Qed.

Lemma ascii_vk_range : map_Forall (fun _ v => 0 < v < 256) ascii_vk.
Proof. apply (bool_decide_unpack _). vm_compute. reflexivity. Qed.

(** One iteration of the loop of [parse_keys] that does not raise, by the
    character it meets. *)
Lemma parse_keys_while_step fuel string ws wt wn vkp keys mods esc index
    ks mods' :
  parse_keys_while (S fuel) string ws wt wn vkp keys mods esc index
  = Ok (ks, mods') ->
  (Py.getitem string index = None
   /\ ks = keys ++ release_all mods /\ mods' = [])
  \/ (exists c m,
        Py.getitem string index = Some c /\ MODIFIERS !! c = Some m
        /\ parse_keys_while fuel string ws wt wn vkp
             (keys ++ [VirtualKeyAction m true false]) (mods ++ [m]) esc
             (S index) = Ok (ks, mods'))
  \/ (exists end_pos sub mods1,
        Py.getitem string index = Some "("%string
        /\ Py.find ")" string (S index) = Some end_pos
        /\ parse_keys_while fuel (Py.slice string (S index) end_pos)
             false false false vkp [] mods false 0%nat = Ok (sub, mods1)
        /\ parse_keys_while fuel string ws wt wn vkp
             ((keys ++ sub)
              ++ release_all (match mods with [] => [] | _ => mods1 end))
             [] esc (S end_pos) = Ok (ks, mods'))
  \/ (exists end_pos cur esc',
        Py.getitem string index = Some "{"%string
        /\ Py.find "}" string (S (S index)) = Some end_pos
        /\ parse_braces
             (fun s v =>
                fst <$> parse_keys_while fuel s false false false v [] []
                          false 0%nat)
             (Py.slice string (S index) end_pos) vkp esc = Ok (cur, esc')
        /\ parse_keys_while fuel string ws wt wn vkp
             ((keys ++ cur) ++ release_all mods) [] esc' (S end_pos)
           = Ok (ks, mods'))
  \/ (exists c,
        Py.getitem string index = Some c /\ is_special c = false
        /\ is_dropped c ws wt wn = true
        /\ parse_keys_while fuel string ws wt wn vkp keys mods esc (S index)
           = Ok (ks, mods'))
  \/ (exists c,
        Py.getitem string index = Some c /\ is_special c = false
        /\ is_dropped c ws wt wn = false
        /\ parse_keys_while fuel string ws wt wn vkp
             ((keys ++ [char_action c
                          (negb (bool_decide (mods = [])) || esc) vkp])
              ++ release_all mods) [] esc (S index) = Ok (ks, mods')).
Proof.
  cbn [parse_keys_while].
  destruct (Py.getitem string index) as [c|] eqn:Hc;
    [|intros [= <- <-]; by left].
  unfold is_special.
  destruct (MODIFIERS !! c) as [m|] eqn:Hm.
  { intros H. right. left. eauto. }
  destruct (String.eqb_spec c "(") as [->|Hp].
  { destruct (Py.find ")" string (S index)) as [end_pos|]; [|done].
    destruct (parse_keys_while fuel (Py.slice string (S index) end_pos)
                false false false vkp [] mods false 0)
      as [[sub mods1]| |] eqn:Hsub; [|intros H; discriminate H..].
    rewrite result_bind_Ok. intros H. do 2 right. left.
    exists end_pos, sub, mods1. by destruct mods. }
  destruct (String.eqb_spec c "{") as [->|Hb].
  { destruct (Py.find "}" string (S (S index))) as [end_pos|]; [|done].
    match goal with
    | |- context [parse_braces ?rec ?code ?v ?e] =>
        destruct (parse_braces rec code v e) as [[cur esc']| |] eqn:Hcur
    end; [|intros H; discriminate H..].
    rewrite result_bind_Ok. intros H. do 3 right. left. eauto 10. }
  destruct (String.eqb_spec c ")") as [->|Hp']; [done|].
  destruct (String.eqb_spec c "}") as [->|Hb']; [done|].
  fold (is_dropped c ws wt wn).
  assert (Hs : bool_decide (is_Some (MODIFIERS !! c)) || String.eqb c "("
               || String.eqb c "{" || String.eqb c ")" || String.eqb c "}"
               = false).
  { rewrite Hm, bool_decide_eq_false_2 by (by intros [? ?]).
    by rewrite !(proj2 (String.eqb_neq _ _)). }
  destruct (is_dropped c ws wt wn) eqn:Hd.
  - intros H. do 4 right. left. by exists c.
  - intros H. do 5 right. by exists c.
Qed.

Lemma result_bind_inv {A B : Type} (m : result A) (k : A -> result B) b :
  (m ≫= k) = Ok b -> exists a, m = Ok a /\ k a = Ok b.
Proof. destruct m as [a| |]; [|done..]. intros H. by exists a. Qed.

(** The ways [handle_code] returns. *)
Lemma handle_code_Ok rec code vkp ks :
  handle_code rec code vkp = Ok ks ->
  (exists vk, CODES !! code = Some vk /\ ks = [VirtualKeyAction vk true true])
  \/ (exists vk, Py.len code = 1%nat /\ ascii_vk !! code = Some vk
                 /\ ks = [VirtualKeyAction vk true true])
  \/ (Py.len code = 1%nat /\ ks = [KeyAction code true true])
  \/ (Py.contains " " code = true
      /\ ((exists count t, Py.rsplit1 code = ["PAUSE"%string; count]
                           /\ ks = [PauseAction t])
          \/ (exists to_repeat count n vk,
                Py.rsplit1 code = [to_repeat; count]
                /\ Py.int count = Some n /\ CODES !! to_repeat = Some vk
                /\ ks = Py.list_mul [VirtualKeyAction vk true true] n)
          \/ (exists to_repeat count n sub,
                Py.rsplit1 code = [to_repeat; count]
                /\ Py.int count = Some n /\ rec to_repeat vkp = Ok sub
                /\ ks = Py.list_mul sub n))).
Proof.
  unfold handle_code.
  destruct (CODES !! code) as [vk|]; [intros [= <-]; eauto|].
  destruct (Nat.eqb_spec (Py.len code) 1) as [Hl|_].
  { destruct (if negb vkp then ascii_vk !! code else None) as [vk|] eqn:E;
      intros [= <-]; [|by do 2 right; left].
    right. left. exists vk. destruct vkp; [done|]. by simpl in E. }
  destruct (Py.contains " " code) eqn:Hsp; [|intros H; discriminate H].
  destruct (Py.rsplit1 code) as [|to_repeat [|count [|]]] eqn:Hr;
    try (intros H; discriminate H).
  intros H. do 3 right. split; [reflexivity|].
  destruct (String.eqb_spec to_repeat "PAUSE") as [->|_].
  { destruct (Py.float count) as [t|]; [|discriminate H]. injection H as <-.
    left. exists count, t. split; [first [exact Hr | reflexivity]|reflexivity]. }
  destruct (Py.int count) as [n|] eqn:Hint; [|discriminate H].
  destruct (CODES !! to_repeat) as [vk|] eqn:Hvk.
  { injection H as <-. right. left. exists to_repeat, count, n, vk.
    split; [first [exact Hr | reflexivity]|]. split; [exact Hint|]. split; [exact Hvk|].
    reflexivity. }
  apply result_bind_inv in H as (sub & Hsub & [= <-]).
  right. right. exists to_repeat, count, n, sub.
  split; [first [exact Hr | reflexivity]|]. split; [exact Hint|]. split; [exact Hsub|].
  reflexivity.
Qed.

(** The ways the braces branch returns. *)
Lemma parse_braces_Ok rec code vkp esc cur esc' :
  parse_braces rec code vkp esc = Ok (cur, esc') ->
  (has_key_event code = false /\ esc' = esc
   /\ handle_code rec code vkp = Ok cur)
  \/ (exists c ev k0 rest,
        has_key_event code = true /\ Py.split_space code = [c; ev]
        /\ handle_code rec c vkp = Ok (k0 :: rest)
        /\ (forall t, k0 <> PauseAction t)
        /\ esc' = true /\ cur = qualify ev k0 :: rest).
Proof.
  unfold parse_braces. destruct (has_key_event code).
  - destruct (Py.split_space code) as [|c [|ev [|x l]]];
      [intros H; discriminate H..| |intros H; discriminate H].
    rewrite result_bind_Ok.
    intros (ks & Hks & H)%result_bind_inv. right.
    destruct ks as [|k0 rest]; [done|].
    apply result_bind_inv in H as (k1 & Hk1 & [= <- <-]).
    exists c, ev, k0, rest.
    split; [reflexivity|]. split; [reflexivity|]. split; [exact Hks|].
    split; [intros t ->; discriminate Hk1|]. split; [reflexivity|].
    unfold qualify. destruct k0; simpl in Hk1. all: first [discriminate Hk1 | injection Hk1 as <-; reflexivity].
  - rewrite result_bind_Ok.
    intros (ks & Hks & [= <- <-])%result_bind_inv. left.
    split; [reflexivity|]. split; [reflexivity|exact Hks].
Qed.

Lemma contains_space_str l :
  Forall (fun a => a <> " "%char) l -> Py.contains " " (Py.str l) = false.
Proof.
  unfold Py.contains, Py.str. induction 1 as [|a l Ha _ IH]; [done|].
  cbn [string_of_list_ascii String.index String.prefix].
  destruct (ascii_dec " " a) as [<-|_]; [done|].
  by destruct (String.index 0 " " (string_of_list_ascii l)).
Qed.

Lemma split_space_go_no_space cur l :
  Forall (fun a => a <> " "%char) cur ->
  Forall (fun s => Py.contains " " s = false) (Py.split_space_go cur l).
Proof.
  revert cur. induction l as [|a l IH]; intros cur Hcur; simpl.
  - constructor; [|constructor]. apply contains_space_str.
    by apply Forall_rev.
  - destruct (Ascii.eqb_spec a " ") as [->|Ha].
    + constructor; [|by apply IH].
      apply contains_space_str. by apply Forall_rev.
    + apply IH. by constructor.
Qed.

Lemma split_space_no_space code c ev :
  Py.split_space code = [c; ev] -> Py.contains " " c = false.
Proof.
  intros H. pose proof (split_space_go_no_space [] (Py.chars code)) as HF.
  unfold Py.split_space in H. rewrite H in HF.
  specialize (HF (Forall_nil_2 _)). by inversion HF.
Qed.

Lemma Forall_list_mul {A : Type} (P : A -> Prop) (l : list A) n :
  Forall P l -> Forall P (Py.list_mul l n).
Proof.
  intros H. unfold Py.list_mul. apply Forall_concat, Forall_replicate, H.
Qed.

Lemma compiled_ok_vk vk d u :
  0 < vk < 256 -> d || u = true -> compiled_ok (VirtualKeyAction vk d u) = true.
Proof.
  intros Hvk Hdu. simpl. rewrite Hdu.
  destruct (Z.ltb_spec 0 vk), (Z.ltb_spec vk 256); try lia; reflexivity.
Qed.

Lemma handle_code_compiled rec code vkp ks :
  (forall s v sub, rec s v = Ok sub ->
                   Forall (fun k => compiled_ok k = true) sub) ->
  handle_code rec code vkp = Ok ks ->
  Forall (fun k => compiled_ok k = true) ks
  /\ (Py.contains " " code = false ->
      exists k, ks = [k] /\ full k = true /\ compiled_ok k = true).
Proof.
  intros Hrec H. apply handle_code_Ok in H
    as [(vk & Hvk & ->)|[(vk & Hl & Hvk & ->)|[(Hl & ->)|(Hsp & H)]]].
  - pose proof (CODES_range _ _ Hvk) as Hr. simpl in Hr.
    pose proof (compiled_ok_vk vk true true Hr eq_refl) as Hok.
    split; [by repeat constructor|]. intros _. eexists.
    split; [reflexivity|]. split; [reflexivity|exact Hok].
  - pose proof (ascii_vk_range _ _ Hvk) as Hr. simpl in Hr.
    pose proof (compiled_ok_vk vk true true Hr eq_refl) as Hok.
    split; [by repeat constructor|]. intros _. eexists.
    split; [reflexivity|]. split; [reflexivity|exact Hok].
  - assert (Hok : compiled_ok (KeyAction code true true) = true).
    { simpl. by rewrite Hl. }
    split; [by repeat constructor|]. intros _. eexists.
    split; [reflexivity|]. split; [reflexivity|exact Hok].
  - split; [|intros Hn; congruence].
    destruct H as [(count & t & _ & ->)
                  |[(to_repeat & count & n & vk & _ & _ & Hvk & ->)
                   |(to_repeat & count & n & sub & _ & _ & Hsub & ->)]].
    + by repeat constructor.
    + apply Forall_list_mul. pose proof (CODES_range _ _ Hvk) as Hr.
      simpl in Hr. constructor; [|constructor].
      by apply compiled_ok_vk.
    + apply Forall_list_mul. by eapply Hrec.
Qed.

Lemma qualify_compiled ev k0 :
  full k0 = true -> compiled_ok k0 = true -> compiled_ok (qualify ev k0) = true.
Proof.
  unfold qualify. destruct k0 as [key d u|key d u|key d u|t];
    destruct (String.eqb (Py.strip ev) "up"); simpl;
    intros Hf; try discriminate Hf;
    apply andb_true_iff in Hf as [-> ->]; simpl;
    rewrite ?andb_true_r; try reflexivity; intros H; exact H.
Qed.

Lemma parse_braces_compiled rec code vkp esc cur esc' :
  (forall s v sub, rec s v = Ok sub ->
                   Forall (fun k => compiled_ok k = true) sub) ->
  parse_braces rec code vkp esc = Ok (cur, esc') ->
  Forall (fun k => compiled_ok k = true) cur.
Proof.
  intros Hrec H. apply parse_braces_Ok in H
    as [(_ & _ & H)|(c & ev & k0 & rest & _ & Hs & H & _ & _ & ->)].
  - by apply (handle_code_compiled _ _ _ _ Hrec) in H as [H _].
  - apply (handle_code_compiled _ _ _ _ Hrec) in H as [_ H].
    destruct (H (split_space_no_space _ _ _ Hs)) as (k & [= -> ->] & Hf & Hok).
    constructor; [|constructor]. by apply qualify_compiled.
Qed.

Lemma release_all_compiled mods :
  Forall code_ok mods ->
  Forall (fun k => compiled_ok k = true) (release_all mods).
Proof.
  intros H. unfold release_all. apply Forall_fmap, Forall_rev.
  eapply Forall_impl; [exact H|]. intros m Hm. by apply compiled_ok_vk.
Qed.

Lemma char_action_compiled c i s modified vkp :
  Py.getitem s i = Some c -> compiled_ok (char_action c modified vkp) = true.
Proof.
  intros Hc. assert (Hl : Py.len c = 1%nat).
  { unfold Py.getitem in Hc. destruct (String.get i s); by simplify_eq. }
  unfold char_action.
  destruct (String.eqb c "~" || String.eqb c (one_char "010")); [done|].
  destruct modified; [simpl; by rewrite Hl|].
  destruct (if negb vkp then ascii_vk !! c else None) as [vk|] eqn:E.
  - destruct vkp; [done|]. simpl in E. apply compiled_ok_vk; [|done].
    apply (ascii_vk_range _ _ E).
  - simpl. by rewrite Hl.
Qed.

Lemma parse_keys_while_compiled fuel string ws wt wn vkp keys mods esc index
    ks mods' :
  Forall (fun k => compiled_ok k = true) keys -> Forall code_ok mods ->
  parse_keys_while fuel string ws wt wn vkp keys mods esc index
  = Ok (ks, mods') ->
  Forall (fun k => compiled_ok k = true) ks /\ Forall code_ok mods'.
Proof.
  revert string ws wt wn vkp keys mods esc index ks mods'.
  induction fuel as [|fuel IH]; intros string ws wt wn vkp keys mods esc
    index ks mods' Hkeys Hmods H; [discriminate H|].
  assert (Hrec : forall s v sub,
    fst <$> parse_keys_while fuel s false false false v [] [] false 0%nat
    = Ok sub -> Forall (fun k => compiled_ok k = true) sub).
  { intros s v sub Hs.
    destruct (parse_keys_while fuel s false false false v [] [] false 0)
      as [[sub' m']| |] eqn:E; [|discriminate Hs..].
    injection Hs as <-. by apply IH in E as [E _]. }
  apply parse_keys_while_step in H
    as [(_ & -> & ->)
       |[(c & m & _ & Hm & H)
        |[(end_pos & sub & mods1 & _ & _ & Hsub & H)
         |[(end_pos & cur & esc1 & _ & _ & Hcur & H)
          |[(c & _ & _ & _ & H)|(c & Hc & _ & _ & H)]]]]].
  - split; [|constructor]. apply Forall_app. split; [done|].
    by apply release_all_compiled.
  - pose proof (MODIFIERS_range _ _ Hm) as Hr. simpl in Hr.
    apply IH in H; [done| |].
    + apply Forall_app. split; [done|]. constructor; [|constructor].
      by apply compiled_ok_vk.
    + apply Forall_app. split; [done|]. constructor; [exact Hr|constructor].
  - apply IH in Hsub as [Hsub Hm1]; [|constructor|done].
    apply IH in H; [done| |constructor].
    apply Forall_app. split; [by apply Forall_app|].
    apply release_all_compiled. by destruct mods.
  - apply (parse_braces_compiled _ _ _ _ _ _ Hrec) in Hcur.
    apply IH in H; [done| |constructor].
    apply Forall_app. split; [by apply Forall_app|].
    by apply release_all_compiled.
  - by apply IH in H.
  - apply IH in H; [done| |constructor].
    apply Forall_app. split; [|by apply release_all_compiled].
    apply Forall_app. split; [done|]. constructor; [|constructor].
    by eapply char_action_compiled.
Qed.

(** X10: every action [parse_keys] returns is well formed: a literal or an
    escaped key is one character, a virtual-key code lies in 1..255, and no
    action has [down] and [up] both clear. *)
Theorem parse_keys_compiled_ok string ws wt wn vkp keys :
  parse_keys string ws wt wn vkp = Ok keys ->
  Forall (fun k => compiled_ok k = true) keys.
Proof.
  unfold parse_keys. intros H.
  destruct (parse_keys_while (S (Py.len string)) string ws wt wn vkp [] []
              false 0) as [[ks m]| |] eqn:E; [|discriminate H..].
  injection H as <-.
  by apply parse_keys_while_compiled in E as [E _]; [|constructor..].
Qed.

Lemma parse_keys_compiled_ok_witness :
  Forall (fun k => compiled_ok k = true)
    [shift_down; EscapedKeyAction "a" true true; shift_up;
     VirtualKeyAction 116 true true; VirtualKeyAction 116 true true].
Proof.
  apply (parse_keys_compiled_ok "+a{F5 2}" false false false true).
  vm_compute. reflexivity.
Defined.

Lemma getitem_str_app l1 a l2 :
  Py.getitem (Py.str (l1 ++ a :: l2)) (length l1) = Some (one_char a).
Proof. unfold Py.getitem, Py.str. induction l1 as [|b l1 IH]; done. Qed.

Lemma getitem_str_end l : Py.getitem (Py.str l) (length l) = None.
Proof. unfold Py.getitem, Py.str. induction l as [|b l IH]; done. Qed.

Lemma str_app l1 l2 : Py.str (l1 ++ l2) = Py.str l1 +:+ Py.str l2.
Proof. unfold Py.str. induction l1 as [|b l1 IH]; [done|]. simpl. by rewrite IH. Qed.

Lemma str_chars s : Py.str (Py.chars s) = s.
Proof. apply string_of_list_ascii_of_string. Qed.

Lemma chars_str l : Py.chars (Py.str l) = l.
Proof. apply list_ascii_of_string_of_list_ascii. Qed.

Lemma is_special_false c :
  is_special c = false ->
  MODIFIERS !! c = None /\ String.eqb c "(" = false
  /\ String.eqb c "{" = false /\ String.eqb c ")" = false
  /\ String.eqb c "}" = false.
Proof.
  unfold is_special. intros H.
  repeat (apply orb_false_iff in H as [H ?]).
  repeat split; try assumption.
  apply bool_decide_eq_false in H. destruct (MODIFIERS !! c); [|done].
  exfalso. apply H. by eexists.
Qed.

Lemma plain_actions_cons ws wt wn vkp a l :
  plain_actions ws wt wn vkp (a :: l)
  = (if is_dropped (one_char a) ws wt wn then []
     else [char_action (one_char a) false vkp])
    ++ plain_actions ws wt wn vkp l.
Proof. reflexivity. Qed.

(** One iteration of the loop on a character without a meaning of its
    own. *)
Lemma parse_keys_while_plain fuel string ws wt wn vkp keys mods esc index c :
  Py.getitem string index = Some c -> is_special c = false ->
  parse_keys_while (S fuel) string ws wt wn vkp keys mods esc index
  = if is_dropped c ws wt wn
    then parse_keys_while fuel string ws wt wn vkp keys mods esc (S index)
    else parse_keys_while fuel string ws wt wn vkp
           ((keys ++ [char_action c (negb (bool_decide (mods = [])) || esc)
                        vkp]) ++ release_all mods) [] esc (S index).
Proof.
  intros Hc (Hm & H1 & H2 & H3 & H4)%is_special_false.
  cbn [parse_keys_while]. rewrite Hc, Hm, H1, H2, H3, H4. reflexivity.
Qed.

Lemma parse_keys_while_plain_prefix ws wt wn vkp pre :
  forall done suf fuel keys,
  Forall (fun a => is_special (one_char a) = false) pre ->
  parse_keys_while (length pre + fuel) (Py.str (done ++ pre ++ suf))
    ws wt wn vkp keys [] false (length done)
  = parse_keys_while fuel (Py.str (done ++ pre ++ suf)) ws wt wn vkp
      (keys ++ plain_actions ws wt wn vkp pre) [] false
      (length done + length pre).
Proof.
  induction pre as [|a pre IH]; intros done suf fuel keys Hp.
  - simpl. by rewrite app_nil_r, Nat.add_0_r.
  - inversion Hp as [|? ? Ha Hp']; subst.
    cbn [length Nat.add app].
    rewrite (parse_keys_while_plain _ _ _ _ _ _ _ _ _ _ (one_char a));
      [|apply getitem_str_app|done].
    specialize (IH (done ++ [a]) suf fuel).
    rewrite <- (app_assoc done [a]) in IH. cbn [app] in IH.
    rewrite length_app in IH. cbn [length] in IH.
    replace (length done + 1)%nat with (S (length done)) in IH by lia.
    replace (length done + S (length pre))%nat
      with (S (length done) + length pre)%nat by lia.
    rewrite plain_actions_cons.
    destruct (is_dropped (one_char a) ws wt wn).
    + rewrite IH by done. reflexivity.
    + rewrite IH by done. cbn [release_all rev fmap list_fmap bool_decide].
      rewrite app_nil_r, <- app_assoc. reflexivity.
Qed.

(** X11: a text without modifier characters, parentheses and braces compiles
    to one action per character that the options do not drop, in order; no
    action is escaped and nothing raises. *)
Theorem parse_keys_plain_text s ws wt wn vkp :
  Forall (fun a => is_special (one_char a) = false) (Py.chars s) ->
  parse_keys s ws wt wn vkp = Ok (plain_actions ws wt wn vkp (Py.chars s)).
Proof.
  intros Hp. unfold parse_keys.
  pose proof (parse_keys_while_plain_prefix ws wt wn vkp (Py.chars s) [] []
                1%nat [] Hp) as H.
  rewrite app_nil_r in H. cbn [app length Nat.add] in H.
  rewrite str_chars in H.
  replace (length (Py.chars s) + 1)%nat with (S (Py.len s)) in H
    by (unfold Py.len; rewrite length_chars; lia).
  rewrite H. cbn [parse_keys_while].
  pose proof (getitem_str_end (Py.chars s)) as He. rewrite str_chars in He.
  rewrite He. simpl. by rewrite app_nil_r.
Qed.

Lemma parse_keys_plain_text_witness :
  parse_keys "a b~" false false false false
  = Ok [VirtualKeyAction 65 true true; VirtualKeyAction 66 true true;
        VirtualKeyAction 13 true true].
Proof.
  apply (parse_keys_plain_text "a b~" false false false false).
  repeat (constructor; [vm_compute; reflexivity|]). constructor.
Defined.

Lemma index_app_None l1 l2 n sub :
  String.index n sub (Py.str l2) = None ->
  String.index (length l1 + n) sub (Py.str (l1 ++ l2)) = None.
Proof.
  intros H. induction l1 as [|b l1 IH]; [done|].
  cbn [length Nat.add app Py.str string_of_list_ascii String.index].
  unfold Py.str in IH. by rewrite IH.
Qed.

Lemma append_str pre a rest :
  pre +:+ String a rest = Py.str (Py.chars pre ++ a :: Py.chars rest).
Proof.
  rewrite str_app, str_chars. f_equal.
  change (a :: Py.chars rest) with (Py.chars (String a rest)).
  by rewrite str_chars.
Qed.

Lemma MODIFIERS_delimiters :
  MODIFIERS !! ")" = None /\ MODIFIERS !! "}" = None
  /\ MODIFIERS !! "(" = None /\ MODIFIERS !! "{" = None.
Proof. vm_compute. done. Qed.

Lemma parse_keys_while_delimiter fuel string ws wt wn vkp keys mods esc index :
  (Py.getitem string index = Some ")"%string ->
   parse_keys_while (S fuel) string ws wt wn vkp keys mods esc index
   = Raise (KeySequenceError "`)` should be preceeded by `(`"))
  /\ (Py.getitem string index = Some "}"%string ->
      parse_keys_while (S fuel) string ws wt wn vkp keys mods esc index
      = Raise (KeySequenceError "`}` should be preceeded by `{`"))
  /\ (Py.getitem string index = Some "("%string ->
      Py.find ")" string (S index) = None ->
      parse_keys_while (S fuel) string ws wt wn vkp keys mods esc index
      = Raise (KeySequenceError "`)` not found"))
  /\ (Py.getitem string index = Some "{"%string ->
      Py.find "}" string (S (S index)) = None ->
      parse_keys_while (S fuel) string ws wt wn vkp keys mods esc index
      = Raise (KeySequenceError "`}` not found")).
Proof.
  destruct MODIFIERS_delimiters as (M1 & M2 & M3 & M4).
  repeat split; intros Hc; cbn [parse_keys_while]; rewrite Hc.
  - rewrite M1. reflexivity.
  - rewrite M2. reflexivity.
  - intros Hf. rewrite M3, Hf. reflexivity.
  - intros Hf. rewrite M4, Hf. reflexivity.
Qed.

(** X12: after a text free of special characters, a closing parenthesis or
    brace, an opening parenthesis with no closing one after it, and an
    opening brace with no closing one from the second character after it
    on, each make [parse_keys] raise [KeySequenceError] with the message of
    its case. *)
Theorem parse_keys_unmatched pre rest ws wt wn vkp :
  Forall (fun a => is_special (one_char a) = false) (Py.chars pre) ->
  parse_keys (pre +:+ ")" +:+ rest) ws wt wn vkp
  = Raise (KeySequenceError "`)` should be preceeded by `(`")
  /\ parse_keys (pre +:+ "}" +:+ rest) ws wt wn vkp
     = Raise (KeySequenceError "`}` should be preceeded by `{`")
  /\ (Py.find ")" rest 0 = None ->
      parse_keys (pre +:+ "(" +:+ rest) ws wt wn vkp
      = Raise (KeySequenceError "`)` not found"))
  /\ (Py.find "}" rest 1 = None ->
      parse_keys (pre +:+ "{" +:+ rest) ws wt wn vkp
      = Raise (KeySequenceError "`}` not found")).
Proof.
  intros Hp.
  assert (Hgo : forall a,
    parse_keys (pre +:+ String a rest) ws wt wn vkp
    = fst <$> parse_keys_while (S (S (length (Py.chars rest))))
                (Py.str (Py.chars pre ++ a :: Py.chars rest)) ws wt wn vkp
                (plain_actions ws wt wn vkp (Py.chars pre)) [] false
                (length (Py.chars pre))).
  { intros a. unfold parse_keys. rewrite append_str.
    replace (S (Py.len (Py.str (Py.chars pre ++ a :: Py.chars rest))))
      with (length (Py.chars pre) + S (S (length (Py.chars rest))))%nat
      by (unfold Py.len; rewrite length_str, length_app; simpl; lia).
    pose proof (parse_keys_while_plain_prefix ws wt wn vkp (Py.chars pre) []
                  (a :: Py.chars rest) (S (S (length (Py.chars rest)))) []
                  Hp) as H.
    cbn [app length Nat.add] in H. by rewrite H. }
  assert (Hfind : forall a sub n,
    String.index n sub rest = None ->
    Py.find sub (Py.str (Py.chars pre ++ a :: Py.chars rest))
      (S (length (Py.chars pre) + n)) = None).
  { intros a sub n Hn. unfold Py.find.
    replace (S (length (Py.chars pre) + n))
      with (length (Py.chars pre) + S n)%nat by lia.
    apply index_app_None.
    cbn [Py.str string_of_list_ascii String.index].
    fold (Py.str (Py.chars rest)). by rewrite str_chars, Hn. }
  change (")" +:+ rest) with (String ")" rest).
  change ("}" +:+ rest) with (String "}" rest).
  change ("(" +:+ rest) with (String "(" rest).
  change ("{" +:+ rest) with (String "{" rest).
  rewrite !Hgo.
  split; [|split; [|split]].
  - rewrite (proj1 (parse_keys_while_delimiter _ _ _ _ _ _ _ _ _ _));
      [done|apply getitem_str_app].
  - rewrite (proj1 (proj2 (parse_keys_while_delimiter _ _ _ _ _ _ _ _ _ _)));
      [done|apply getitem_str_app].
  - intros Hf.
    rewrite (proj1 (proj2 (proj2
               (parse_keys_while_delimiter _ _ _ _ _ _ _ _ _ _))));
      [done|apply getitem_str_app|].
    specialize (Hfind "("%char ")"%string 0%nat Hf).
    by rewrite Nat.add_0_r in Hfind.
  - intros Hf.
    rewrite (proj2 (proj2 (proj2
               (parse_keys_while_delimiter _ _ _ _ _ _ _ _ _ _))));
      [done|apply getitem_str_app|].
    specialize (Hfind "{"%char "}"%string 1%nat Hf).
    by rewrite Nat.add_1_r in Hfind.
Qed.

Lemma parse_keys_unmatched_witness :
  parse_keys "ab)c" false false false true
  = Raise (KeySequenceError "`)` should be preceeded by `(`").
Proof.
  apply (parse_keys_unmatched "ab" "c" false false false true).
  repeat (constructor; [vm_compute; reflexivity|]). constructor.
Defined.

(** ** How [send_keystrokes] ends *)

Section Finishes.
Context {S : Type}.

Lemma finishes_ret {A : Type} (a : A) : finishes (S:=S) (mret a).
Proof. intros s. discriminate. Qed.

Lemma finishes_raise {A : Type} e : finishes (S:=S) (A:=A) (raise e).
Proof. intros s. discriminate. Qed.

Lemma finishes_lift {A : Type} (r : result A) :
  r <> OutOfFuel -> finishes (S:=S) (lift_result r).
Proof. intros H s. exact H. Qed.

Lemma finishes_bind {A B : Type} (m : M S A) (k : A -> M S B) :
  finishes m -> (forall a, finishes (k a)) -> finishes (mbind m k).
Proof.
  intros Hm Hk s. unfold mbind. specialize (Hm s).
  destruct (m s) as [[a|e|] s1]; [apply Hk|discriminate|done].
Qed.

Lemma finishes_for_each {A : Type} (l : list A) (body : A -> M S unit) :
  (forall x, finishes (body x)) -> finishes (for_each l body).
Proof.
  intros Hb. induction l as [|x l IH]; simpl.
  - apply finishes_ret.
  - apply finishes_bind; auto.
Qed.

Lemma finishes_call `{Events S} ev : finishes (S:=S) (call ev).
Proof. intros s. discriminate. Qed.

End Finishes.

Lemma get_key_info_finishes os k : get_key_info os k <> OutOfFuel.
Proof.
  destruct k as [key d u|key d u|key d u|t]; simpl; try discriminate.
  - by destruct (Py.ord key).
  - by destruct (Py.len key =? 1)%nat.
Qed.

Lemma resolve_finishes os loc cc k : resolve os loc cc k <> OutOfFuel.
Proof.
  unfold resolve. pose proof (get_key_info_finishes os k) as H.
  destruct (get_key_info os k) as [[[vk scan] flags]|e|]; [|done..].
  rewrite result_bind_Ok.
  destruct ((vk =? VK_MENU) || (cc =? 1));
    by destruct (negb (Z.land flags KEYEVENTF_UNICODE =? 0)).
Qed.

Ltac finishes_step :=
  first
    [ apply finishes_ret
    | apply finishes_raise
    | apply finishes_call
    | apply finishes_bind; [|intros ?]
    | match goal with
      | |- finishes (if ?b then _ else _) => destruct b
      | |- finishes (match ?x with _ => _ end) => destruct x
      | |- finishes get_stack => intros ?; discriminate
      | |- finishes get_context_code => intros ?; discriminate
      | |- finishes (set_stack _) => intros ?; discriminate
      | |- finishes (set_context_code _) => intros ?; discriminate
      end ].

Lemma py_last_finishes {A : Type} (l : list A) : py_last l <> OutOfFuel.
Proof. unfold py_last. by destruct (last l). Qed.

Lemma set_pressed_finishes st vk : set_pressed st vk <> OutOfFuel.
Proof. unfold set_pressed. by destruct (st !! Z.to_nat vk). Qed.

Lemma down_transition_finishes handle msg vk scan flags sh :
  finishes (down_transition handle msg vk scan flags sh).
Proof.
  unfold down_transition.
  repeat first
    [ apply finishes_lift; first [apply py_last_finishes
                                 |apply set_pressed_finishes]
    | finishes_step ].
Qed.

Lemma up_transition_finishes handle msg vk scan flags :
  finishes (up_transition handle msg vk scan flags).
Proof.
  unfold up_transition.
  repeat first
    [ apply finishes_lift; apply py_last_finishes
    | finishes_step ].
Qed.

Lemma loop_body_finishes os handle loc key :
  finishes (loop_body os handle loc key).
Proof.
  unfold loop_body.
  repeat first
    [ apply down_transition_finishes
    | apply up_transition_finishes
    | apply finishes_lift;
        first [apply resolve_finishes
              | by destruct key ]
    | finishes_step ].
Qed.

Lemma loop_body_inside_try os handle loc key :
  preserves (grows inside_try) (loop_body os handle loc key).
Proof.
  unfold loop_body, down_transition, up_transition. repeat grows_step.
Qed.

(** X13: called with [activate_window_before=False], a notation that does
    not compile makes [send_keystrokes] raise the compiler's exception when
    the input queues are already attached. [parse_keys] runs outside the
    [try]: the attachment, and the warning if it failed, are the only
    events, and the queues are not detached. *)
Theorem send_keystrokes_compile_error os handle keystrokes ws wt wn e :
  parse_keys keystrokes ws wt wn true = Raise e ->
  send_keystrokes os handle keystrokes ws wt wn false
  = (Raise e,
     call_AttachThreadInput (GetWindowThreadProcessId os handle)
       (GetCurrentThreadId os) true
     :: (if attach_success os handle then []
         else [call_warn
           "Failed to attach app's thread to the current thread's message queue"])).
Proof.
  intros Hp. unfold send_keystrokes, send_keystrokes_frame.
  fold (attach_success os handle). rewrite Hp.
  destruct (attach_success os handle); run_M; reflexivity.
Qed.

Lemma send_keystrokes_compile_error_witness :
  send_keystrokes sample_os 5 "a)" true true true false
  = (Raise (KeySequenceError "`)` should be preceeded by `(`"),
     [call_AttachThreadInput 7 9 true]).
Proof.
  apply (send_keystrokes_compile_error sample_os 5 "a)" true true true).
  vm_compute. reflexivity.
Defined.

Lemma inject_outcome os handle keys r s :
  inject os handle (GetKeyboardLayout os 0) (attach_success os handle) false
    (GetWindowThreadProcessId os handle) (GetCurrentThreadId os) keys
    (frame_at_try os handle false keys) = (r, s) ->
  exists evs,
    Forall inside_try evs
    /\ ((r = Ok tt
         /\ events s
            = prologue os handle false keys ++ evs
              ++ epilogue os handle false)
        \/ (r = Raise IndexError
            /\ events s
               = prologue os handle false keys ++ evs
                 ++ [call_print "fehler"])).
Proof.
  destruct (for_each keys (loop_body os handle (GetKeyboardLayout os 0))
              (frame_at_try os handle false keys)) as [r1 s1] eqn:Hloop.
  assert (Hpres : preserves (grows inside_try)
            (for_each keys (loop_body os handle (GetKeyboardLayout os 0)))).
  { apply preserves_for_each; [apply _|apply _|].
    intros key. apply loop_body_inside_try. }
  destruct (Hpres _ _ _ Hloop) as (evs & Hev & Hin).
  cbn [frame_at_try events] in Hev.
  pose proof (finishes_for_each keys
                (loop_body os handle (GetKeyboardLayout os 0))
                (loop_body_finishes os handle (GetKeyboardLayout os 0))
                (frame_at_try os handle false keys)) as Hfin.
  rewrite Hloop in Hfin. cbn [fst] in Hfin.
  unfold inject. unfold mbind at 1, try_except. rewrite Hloop.
  destruct r1 as [[]|e|]; [| |done].
  - unfold epilogue.
    destruct (attach_success os handle); run_M; intros [= <- <-];
      exists evs; (split; [exact Hin|]); left; (split; [reflexivity|]);
      cbn [events]; rewrite Hev, <- ?app_assoc, ?app_nil_r; reflexivity.
  - unfold handler. run_M.
    destruct (keyboard_state_stack s1) as [|base st].
    + intros [= <- <-]. exists evs. split; [exact Hin|]. right.
      split; [reflexivity|].
      cbn [events]. rewrite Hev, <- app_assoc. reflexivity.
    + unfold epilogue.
      destruct (attach_success os handle); run_M; intros [= <- <-];
        exists (evs ++ [call_print "fehler"; call_SetKeyboardState base]);
        (split; [apply Forall_app; split; [exact Hin|];
                 repeat (apply Forall_cons; split; [exact I|]);
                 apply Forall_nil_2|]);
        left; (split; [reflexivity|]); cbn [events];
        rewrite Hev, <- ?app_assoc, ?app_nil_r; reflexivity.
Qed.

(** X14: called with [activate_window_before=False] on a notation that
    compiles, [send_keystrokes] ends in one of two ways. It returns, and
    the last event is the detachment of the input queues, if the attachment
    had succeeded; or it raises [IndexError] out of its handler, right
    after the handler's message, and the queues are not detached. No other
    exception leaves the function. Between the attachment and that end the
    events are those of the loop and the handler only: keyboard states set,
    messages posted, sleeps and the handler's message. *)
Theorem send_keystrokes_outcome os handle keystrokes ws wt wn keys :
  parse_keys keystrokes ws wt wn true = Ok keys ->
  exists evs,
    Forall inside_try evs
    /\ (send_keystrokes os handle keystrokes ws wt wn false
        = (Ok tt,
           prologue os handle false keys ++ evs ++ epilogue os handle false)
        \/ send_keystrokes os handle keystrokes ws wt wn false
           = (Raise IndexError,
              prologue os handle false keys ++ evs
              ++ [call_print "fehler"])).
Proof.
  intros Hp. rewrite (send_keystrokes_parsed _ _ _ _ _ _ _ _ Hp).
  destruct (inject os handle (GetKeyboardLayout os 0)
              (attach_success os handle) false
              (GetWindowThreadProcessId os handle) (GetCurrentThreadId os)
              keys (frame_at_try os handle false keys)) as [r s] eqn:Hinj.
  apply inject_outcome in Hinj as (evs & Hin & [[-> ->]|[-> ->]]);
    exists evs; (split; [exact Hin|]); [by left|by right].
Qed.

Lemma send_keystrokes_outcome_witness :
  exists evs,
    Forall inside_try evs
    /\ (send_keystrokes sample_os 5 "+a" true true true false
        = (Ok tt,
           prologue sample_os 5 false
             [shift_down; EscapedKeyAction "a" true true; shift_up]
           ++ evs ++ epilogue sample_os 5 false)
        \/ send_keystrokes sample_os 5 "+a" true true true false
           = (Raise IndexError,
              prologue sample_os 5 false
                [shift_down; EscapedKeyAction "a" true true; shift_up]
              ++ evs ++ [call_print "fehler"])).
Proof.
  apply (send_keystrokes_outcome sample_os 5 "+a" true true true).
  vm_compute. reflexivity.
Defined.

(** ** Typing with [send_keys] *)

Lemma GetInput_KeyAction os key cp down up :
  Py.ord key = Some cp ->
  GetInput os (KeyAction key down up) = Ok (unicode_inputs os cp down up).
Proof.
  intros Hk. unfold GetInput, unicode_inputs. simpl. rewrite Hk. simpl.
  by destruct up, down.
Qed.

Lemma key_of_unicode_inputs os cp down up :
  key_of <$> unicode_inputs os cp down up = unicode_keys cp down up.
Proof. by destruct up, down. Qed.

(** X15: a [KeyAction] for a one-character key makes exactly one [SendInput]
    call. Its array holds a Unicode press (virtual key 0, flags 4) unless
    the action is a release only, followed by a Unicode release (flags 6)
    if [up] is set, both with the low 16 bits of the code point as scan
    code; so an action with [down] and [up] both clear still sends a
    press. *)
Theorem KeyAction_run_sends os key cp down up h :
  Py.ord key = Some cp ->
  sent_keys (run os (KeyAction key down up) h).2
  = sent_keys h ++ [unicode_keys cp down up].
Proof.
  intros Hk.
  rewrite (KeyAction_run_unfold _ _ _ _ _ _ (GetInput_KeyAction _ _ _ _ _ Hk)).
  cbv zeta. cbn [snd]. unfold sent_keys.
  rewrite sent_inputs_app, fmap_app. cbn [sent_inputs omap list_omap].
  cbn [fmap list_fmap]. by rewrite key_of_unicode_inputs.
Qed.

Lemma KeyAction_run_sends_witness :
  sent_keys (run sample_os (KeyAction "a" false false) []).2
  = sent_keys [] ++ [[(0, 97, 4)]].
Proof.
  apply (KeyAction_run_sends sample_os "a" 97 false false []). reflexivity.
Defined.

Lemma Press_accepted os keycode h :
  accepting os -> exists evs, Press os keycode h = (Ok tt, h ++ evs).
Proof.
  intros Hacc. unfold Press, user32_SendInput, mbind, get_history, call,
    raise, mret. cbn [history record trace_events].
  rewrite Hacc. simpl. rewrite Hacc. simpl.
  eexists. rewrite <- !app_assoc. reflexivity.
Qed.

Lemma for_each_Press_accepted os vs h :
  accepting os ->
  exists evs, for_each vs (fun v => Press os v) h = (Ok tt, h ++ evs).
Proof.
  intros Hacc. revert h. induction vs as [|v vs IH]; intros h.
  - exists []. by rewrite app_nil_r.
  - cbn [for_each]. unfold mbind.
    destruct (Press_accepted os v h Hacc) as (e1 & ->).
    destruct (IH (h ++ e1)) as (e2 & ->).
    exists (e1 ++ e2). by rewrite app_assoc.
Qed.

Lemma for_each_fmap {S A B : Type} (f : A -> B) (l : list A)
    (body : B -> M S unit) s :
  for_each (f <$> l) body s = for_each l (fun x => body (f x)) s.
Proof.
  revert s. induction l as [|x l IH]; intros s; [done|].
  cbn [for_each fmap list_fmap]. unfold mbind.
  destruct (body (f x) s) as [[[]| |] s1]; [apply IH|done..].
Qed.

Lemma run_accepted os k h :
  accepting os -> compiled_ok k = true -> is_PauseAction k = false ->
  exists evs, run os k h = (Ok tt, h ++ evs).
Proof.
  intros Hacc Hok Hnp.
  destruct k as [key d u|key d u|key d u|t]; [| | |discriminate Hnp].
  - simpl in Hok. apply andb_true_iff in Hok as [Hl _].
    apply Nat.eqb_eq in Hl.
    assert (Hord : exists cp, Py.ord key = Some cp).
    { destruct key as [|a [|b key]]; try discriminate Hl. by eexists. }
    destruct Hord as [cp Hord].
    rewrite (KeyAction_run_unfold _ _ _ _ _ _
               (GetInput_KeyAction _ _ _ _ _ Hord)).
    cbv zeta. rewrite Hacc, Z.eqb_refl. by eexists.
  - unfold run, mbind at 1, lift_result.
    destruct (GetInput os (VirtualKeyAction key d u)) as [inputs| |] eqn:E;
      [|discriminate E..].
    rewrite <- (for_each_fmap wVk inputs (fun v => Press os v)).
    by apply for_each_Press_accepted.
  - simpl in Hok. apply andb_true_iff in Hok as [Hl _].
    unfold run, mbind at 1, lift_result.
    destruct (GetInput os (EscapedKeyAction key d u)) as [inputs|e|] eqn:E.
    + rewrite <- (for_each_fmap wVk inputs (fun v => Press os v)).
      by apply for_each_Press_accepted.
    + unfold GetInput in E. simpl in E. rewrite Hl in E. discriminate E.
    + unfold GetInput in E. simpl in E. rewrite Hl in E. discriminate E.
Qed.

(** X16: when the system inserts every event it is given, [send_keys] with
    the default pause types, without raising, any notation that compiles to
    key actions only, that is without a [{PAUSE ...}]; a notation that does
    not compile raises the compiler's exception before anything is sent. *)
Theorem send_keys_typing_accepted os keys ws wt wn vkp h :
  accepting os ->
  match parse_keys keys ws wt wn vkp with
  | Ok ks =>
      Forall (fun k => is_PauseAction k = false) ks ->
      exists evs,
        send_keys_typing os keys ws wt wn vkp h = (Ok tt, h ++ evs)
  | Raise e => send_keys_typing os keys ws wt wn vkp h = (Raise e, h)
  | OutOfFuel => False
  end.
Proof.
  intros Hacc. unfold send_keys_typing, mbind at 1, lift_result.
  pose proof (parse_keys_total keys ws wt wn vkp) as Htot.
  assert (Hok : forall ks, parse_keys keys ws wt wn vkp = Ok ks ->
                Forall (fun k => compiled_ok k = true) ks).
  { unfold parse_keys. intros ks H.
    destruct (parse_keys_while (S (Py.len keys)) keys ws wt wn vkp [] []
                false 0) as [[ks' m]| |] eqn:E; [|discriminate H..].
    injection H as <-.
    by apply parse_keys_while_compiled in E as [E _]; [|constructor..]. }
  destruct (parse_keys keys ws wt wn vkp) as [ks|e|]; [|done..].
  specialize (Hok ks eq_refl). clear Htot. intros Hnp.
  revert h. induction Hok as [|k ks Hk _ IH]; intros h.
  - exists []. by rewrite app_nil_r.
  - inversion Hnp as [|? ? Hnk Hnp']; subst.
    cbn [for_each]. unfold mbind at 1. unfold mbind at 1.
    destruct (run_accepted os k h Hacc Hk Hnk) as (e1 & ->).
    unfold call at 1. cbn [record trace_events].
    destruct (IH Hnp' ((h ++ e1) ++ [call_sleep "0.05"])) as (e2 & ->).
    exists (e1 ++ [call_sleep "0.05"] ++ e2). by rewrite !app_assoc.
Qed.

Lemma send_keys_typing_accepted_witness :
  exists evs,
    send_keys_typing sample_os "+a{F5}b" false false false true []
    = (Ok tt, [] ++ evs).
Proof.
  refine (send_keys_typing_accepted sample_os "+a{F5}b" false false false
            true [] (fun h inputs => eq_refl) _).
  repeat (constructor; [reflexivity|]). constructor.
Defined.

(** ** The names of the virtual keys *)

Lemma CODES_from_items : CODES = list_to_map CODES_items.
Proof. reflexivity. Qed.

Lemma CODE_NAMES_sound :
  map_Forall (fun vk name => CODES !! name = Some vk /\ vk <> 0) CODE_NAMES.
Proof. apply (bool_decide_unpack _). vm_compute. reflexivity. Qed.

Lemma CODE_NAMES_complete :
  map_Forall (fun _ vk => is_Some (CODE_NAMES !! vk)) CODES.
Proof. apply (bool_decide_unpack _). vm_compute. reflexivity. Qed.

Example CODE_NAMES_13 :
  CODE_NAMES !! 13 = Some "VK_RETURN"%string /\ CODES !! "ENTER" = Some 13.
Proof. split; vm_compute; reflexivity. Qed.

(** X17: the description of a virtual-key action whose code is in [CODES] is
    a name of that table which [handle_code] compiles back to the same
    code. The name can differ from the one the action was compiled from:
    of several names with one code, [CODE_NAMES] keeps the last. *)
Theorem key_description_compiles_back os rec n vk down up vkp :
  CODES !! n = Some vk ->
  exists name,
    key_description os (VirtualKeyAction vk down up) = Ok name
    /\ handle_code rec name vkp = Ok [VirtualKeyAction vk true true].
Proof.
  intros Hn. destruct (CODE_NAMES_complete _ _ Hn) as [name Hname].
  destruct (CODE_NAMES_sound _ _ Hname) as [Hback Hnz].
  exists name. split.
  - unfold key_description. cbn [get_key_info]. rewrite result_bind_Ok.
    rewrite Hname.
    destruct (Z.eqb_spec vk 0) as [E|_]; [destruct (Hnz E)|reflexivity].
  - unfold handle_code. by rewrite Hback.
Qed.

Lemma key_description_compiles_back_witness :
  exists name,
    key_description sample_os (VirtualKeyAction 13 true true) = Ok name
    /\ handle_code (fun _ _ => Raise ValueError) name true
       = Ok [VirtualKeyAction 13 true true].
Proof.
  apply (key_description_compiles_back sample_os _ "ENTER" 13 true true true).
  vm_compute. reflexivity.
Defined.

(** ** The line of [calculate_all_coords] *)

Lemma int32_small z : - 2147483648 <= z < 2147483648 -> int32 z = z.
Proof. intros H. unfold int32. rewrite Z.mod_small; lia. Qed.

Lemma arange_lookup start step n i :
  step <> 0 -> 0 <= n ->
  arange start (start + n * step) step !! i
  = if (i <? Z.to_nat n)%nat then Some (int32 (start + Z.of_nat i * step))
    else None.
Proof.
  intros Hs Hn. unfold arange.
  replace (- ((start - (start + n * step)) / step)) with n.
  2:{ replace (start - (start + n * step)) with (- n * step) by lia.
      rewrite Z.div_mul by done. lia. }
  rewrite list_lookup_fmap.
  destruct (Nat.ltb_spec i (Z.to_nat n)).
  - by rewrite lookup_seq_lt.
  - by rewrite lookup_seq_ge.
Qed.

Lemma length_arange start step n :
  step <> 0 -> 0 <= n ->
  length (arange start (start + n * step) step) = Z.to_nat n.
Proof.
  intros Hs Hn. unfold arange.
  replace (- ((start - (start + n * step)) / step)) with n.
  2:{ replace (start - (start + n * step)) with (- n * step) by lia.
      rewrite Z.div_mul by done. lia. }
  by rewrite length_fmap, length_seq.
Qed.

Lemma round_dominant n i : 0 < n -> (n / 2 + i * n) / n = i.
Proof.
  intros Hn. rewrite Z.div_add by lia. rewrite Z.div_small; [lia|].
  split; [apply Z.div_pos; lia|apply Z.div_lt; lia].
Qed.

Lemma round_dominant_opp n i : 0 < n -> (n / 2 + i * - n) / n = - i.
Proof.
  intros Hn. replace (i * - n) with (- i * n) by lia.
  by apply round_dominant.
Qed.

Lemma round_still n i : 0 < n -> (n / 2 + i * 0) / n = 0.
Proof.
  intros Hn. rewrite Z.mul_0_r, Z.add_0_r. apply Z.div_small.
  split; [apply Z.div_pos; lia|apply Z.div_lt; lia].
Qed.

Lemma round_scaled y0 n i d :
  0 < n -> (y0 * n + n / 2 + i * d) / n = y0 + (n / 2 + i * d) / n.
Proof.
  intros Hn. replace (y0 * n + n / 2 + i * d) with (n / 2 + i * d + y0 * n)
    by lia. rewrite Z.div_add by lia. lia.
Qed.

Lemma full32_lookup n v i :
  full32 n v !! i = if (i <? Z.to_nat n)%nat then Some (int32 v) else None.
Proof.
  unfold full32. destruct (Nat.ltb_spec i (Z.to_nat n)).
  - by apply lookup_replicate_2.
  - by apply lookup_replicate_None.
Qed.

Lemma half_bounds n : 0 < n -> 0 <= n / 2 < n.
Proof. intros Hn. split; [apply Z.div_pos; lia|apply Z.div_lt; lia]. Qed.

(** The columns along an axis that moves by [d] while the longer axis
    moves by [n]. *)
Lemma arange_step x0 x1 i :
  small x0 -> small x1 -> x1 <> x0 ->
  arange x0 (x1 + Z.sgn (x1 - x0)) (Z.sgn (x1 - x0)) !! i
  = if (i <? Z.to_nat (Z.abs (x1 - x0) + 1))%nat
    then Some (x0 + Z.of_nat i * Z.sgn (x1 - x0)) else None.
Proof.
  unfold small. intros H0 H1 Hne.
  destruct (Z.lt_trichotomy (x1 - x0) 0) as [Hs|[Hs|Hs]]; [|lia|].
  - rewrite Z.sgn_neg, Z.abs_neq by lia.
    replace (x1 + -1) with (x0 + (- (x1 - x0) + 1) * -1) by lia.
    rewrite arange_lookup by lia.
    destruct (Nat.ltb_spec i (Z.to_nat (- (x1 - x0) + 1))); [|done].
    rewrite int32_small; [done|lia].
  - rewrite Z.sgn_pos, Z.abs_eq by lia.
    replace (x1 + 1) with (x0 + ((x1 - x0) + 1) * 1) by lia.
    rewrite arange_lookup by lia.
    destruct (Nat.ltb_spec i (Z.to_nat (x1 - x0 + 1))); [|done].
    rewrite int32_small; [done|lia].
Qed.

Lemma arange_scaled y0 n d i :
  small y0 -> 0 < n <= 32768 -> - n <= d <= n -> d <> 0 ->
  ((fun v => v / n)
     <$> arange (y0 * n + n / 2) (y0 * n + n / 2 + (n + 1) * d) d) !! i
  = if (i <? Z.to_nat (n + 1))%nat
    then Some (y0 + (n / 2 + Z.of_nat i * d) / n) else None.
Proof.
  unfold small. intros H0 Hn Hd Hne.
  rewrite list_lookup_fmap, arange_lookup by lia.
  destruct (Nat.ltb_spec i (Z.to_nat (n + 1))); [|done].
  cbn [fmap option_fmap option_map]. f_equal.
  pose proof (half_bounds n (proj1 Hn)) as Hh.
  rewrite int32_small by nia. apply round_scaled. lia.
Qed.

Lemma round_sgn d i : d <> 0 -> (Z.abs d / 2 + i * d) / Z.abs d = i * Z.sgn d.
Proof.
  intros Hd. destruct (Z.lt_trichotomy d 0) as [Hs|[Hs|Hs]]; [|lia|].
  - rewrite Z.sgn_neg, Z.abs_neq by lia.
    replace (i * d) with (i * - - d) by lia.
    rewrite round_dominant_opp by lia. lia.
  - rewrite Z.sgn_pos, Z.abs_eq by lia.
    rewrite round_dominant by lia. lia.
Qed.

Lemma calculate_all_coords_at x0 y0 x1 y1 i :
  small x0 -> small y0 -> small x1 -> small y1 ->
  (x0, y0) <> (x1, y1) ->
  let n := Z.max (Z.abs (x1 - x0)) (Z.abs (y1 - y0)) in
  calculate_all_coords x0 y0 x1 y1 !! i
  = if (i <? Z.to_nat (n + 1))%nat
    then Some (line_point x0 y0 x1 y1 n i) else None.
Proof.
  intros Hx0 Hy0 Hx1 Hy1 Hne n. unfold calculate_all_coords, line_point.
  cbv zeta.
  destruct (Z.eqb_spec (x1 - x0) 0) as [E0|E0],
           (Z.eqb_spec (y1 - y0) 0) as [E1|E1];
    cbv beta iota delta [andb].
  - exfalso. apply Hne. f_equal; lia.
  - assert (Hn : n = Z.abs (y1 - y0)) by (subst n; lia).
    rewrite Hn.  rewrite lookup_zip_with, full32_lookup,
      arange_step by (done || lia).
    destruct (Nat.ltb_spec i (Z.to_nat (Z.abs (y1 - y0) + 1))); [|done].
    cbn [mbind option_bind]. rewrite int32_small by (unfold small in *; lia).
    rewrite E0, round_still, round_sgn by lia.
    cbn [mbind option_bind]. by rewrite Z.add_0_r.
  - assert (Hn : n = Z.abs (x1 - x0)) by (subst n; lia).
    rewrite Hn. rewrite lookup_zip_with, full32_lookup,
      arange_step by (done || lia).
    destruct (Nat.ltb_spec i (Z.to_nat (Z.abs (x1 - x0) + 1))); [|done].
    cbn [mbind option_bind]. rewrite int32_small by (unfold small in *; lia).
    rewrite E1, round_still, round_sgn by lia.
    cbn [mbind option_bind]. by rewrite Z.add_0_r.
  - destruct (Z.ltb_spec (Z.abs (y1 - y0)) (Z.abs (x1 - x0))) as [Hlt|Hge].
    + assert (Hn : n = Z.abs (x1 - x0)) by (subst n; lia).
      rewrite Hn.
      rewrite lookup_zip_with, arange_step by (done || lia).
      rewrite arange_scaled by (unfold small in *; lia || done).
      destruct (Nat.ltb_spec i (Z.to_nat (Z.abs (x1 - x0) + 1))); [|done].
      cbn [mbind option_bind]. by rewrite round_sgn by lia.
    + assert (Hn : n = Z.abs (y1 - y0)) by (subst n; lia).
      rewrite Hn.
      rewrite lookup_zip_with, arange_step by (done || lia).
      rewrite arange_scaled by (unfold small in *; lia || done).
      destruct (Nat.ltb_spec i (Z.to_nat (Z.abs (y1 - y0) + 1))); [|done].
      cbn [mbind option_bind]. by rewrite round_sgn by lia.
Qed.

(** X18: between two different points with coordinates of at most 14
    bits, [calculate_all_coords] returns [n + 1] points, where [n] is the
    larger of the two distances along the axes; point [i] is the start plus
    the fraction [i / n] of the way along each axis, rounded to the nearest
    integer, a half upwards. *)
Theorem calculate_all_coords_lookup x0 y0 x1 y1 :
  small x0 -> small y0 -> small x1 -> small y1 ->
  (x0, y0) <> (x1, y1) ->
  let n := Z.max (Z.abs (x1 - x0)) (Z.abs (y1 - y0)) in
  calculate_all_coords x0 y0 x1 y1
  = line_point x0 y0 x1 y1 n <$> seq 0 (Z.to_nat (n + 1)).
Proof.
  intros Hx0 Hy0 Hx1 Hy1 Hne n. apply list_eq. intros i.
  rewrite (calculate_all_coords_at x0 y0 x1 y1 i Hx0 Hy0 Hx1 Hy1 Hne).
  fold n. rewrite list_lookup_fmap.
  destruct (Nat.ltb_spec i (Z.to_nat (n + 1))).
  - by rewrite lookup_seq_lt.
  - by rewrite lookup_seq_ge.
Qed.

Lemma calculate_all_coords_lookup_witness :
  calculate_all_coords 0 0 4 2
  = [(0, 0); (1, 1); (2, 1); (3, 2); (4, 2)].
Proof.
  apply (calculate_all_coords_lookup 0 0 4 2); unfold small; try lia.
  discriminate.
Defined.

Lemma length_from_lookup {A : Type} (l : list A) (k : nat) :
  (forall i, is_Some (l !! i) <-> (i < k)%nat) -> length l = k.
Proof.
  intros H. destruct (Nat.lt_trichotomy (length l) k) as [Hlt|[Heq|Hgt]].
  - apply H, lookup_lt_is_Some in Hlt. lia.
  - done.
  - apply lookup_lt_is_Some, H in Hgt. lia.
Qed.

Lemma div_step a d n :
  0 < n -> - n <= d <= n -> - 1 <= (a + d) / n - a / n <= 1.
Proof.
  intros Hn Hd.
  assert (H1 : (a + - 1 * n) / n <= (a + d) / n)
    by (apply Z.div_le_mono; lia).
  assert (H2 : (a + d) / n <= (a + 1 * n) / n)
    by (apply Z.div_le_mono; lia).
  rewrite Z.div_add in H1, H2 by lia. lia.
Qed.

(** X19: the points of [calculate_all_coords] form a line without gaps:
    they start at the first point and end at the second, there is one more
    of them than the larger distance along an axis, and from one to the
    next no coordinate changes by more than one. For two equal points the
    result is the input, two points and not one. *)
Theorem calculate_all_coords_line x0 y0 x1 y1 :
  small x0 -> small y0 -> small x1 -> small y1 ->
  let pts := calculate_all_coords x0 y0 x1 y1 in
  let n := Z.max (Z.abs (x1 - x0)) (Z.abs (y1 - y0)) in
  ((x0, y0) = (x1, y1) -> pts = [(x0, y0); (x0, y0)])
  /\ ((x0, y0) <> (x1, y1) ->
      length pts = Z.to_nat (n + 1)
      /\ head pts = Some (x0, y0) /\ last pts = Some (x1, y1)
      /\ forall i p q,
           pts !! i = Some p -> pts !! S i = Some q ->
           Z.abs (q.1 - p.1) <= 1 /\ Z.abs (q.2 - p.2) <= 1).
Proof.
  intros Hx0 Hy0 Hx1 Hy1 pts n. split.
  - intros [= <- <-]. subst pts. unfold calculate_all_coords.
    by rewrite !Z.sub_diag.
  - intros Hne.
    pose proof (fun i => calculate_all_coords_at x0 y0 x1 y1 i
                           Hx0 Hy0 Hx1 Hy1 Hne) as Hl.
    cbv zeta in Hl. fold n in Hl. fold pts in Hl.
    assert (Hn : 0 < n).
    { subst n. destruct (Z.eq_dec x1 x0), (Z.eq_dec y1 y0); try lia.
      exfalso. apply Hne. by subst. }
    assert (Hlen : length pts = Z.to_nat (n + 1)).
    { apply length_from_lookup. intros i. rewrite Hl.
      destruct (Nat.ltb_spec i (Z.to_nat (n + 1))).
      - split; [done|by eexists].
      - split; [by intros [? ?]|lia]. }
    split; [done|]. split; [|split].
    + rewrite head_lookup, Hl.
      destruct (Nat.ltb_spec 0 (Z.to_nat (n + 1))); [|lia].
      unfold line_point. change (Z.of_nat 0) with 0.
      rewrite !Z.mul_0_l, !Z.add_0_r.
      rewrite (Z.div_small (n / 2) n) by (by apply half_bounds).
      by rewrite !Z.add_0_r.
    + rewrite last_lookup, Hlen, Hl.
      replace (Init.Nat.pred (Z.to_nat (n + 1))) with (Z.to_nat n) by lia.
      destruct (Nat.ltb_spec (Z.to_nat n) (Z.to_nat (n + 1))); [|lia].
      unfold line_point. rewrite Z2Nat.id by lia.
      rewrite !(Z.mul_comm n), !Z.div_add by lia.
      rewrite (Z.div_small (n / 2) n) by (by apply half_bounds).
      f_equal. f_equal; lia.
    + intros i p q. rewrite !Hl.
      destruct (Nat.ltb_spec i (Z.to_nat (n + 1))); [|done].
      destruct (Nat.ltb_spec (S i) (Z.to_nat (n + 1))); [|done].
      intros [= <-] [= <-]. unfold line_point. cbn [fst snd].
      rewrite Nat2Z.inj_succ.
      replace (n / 2 + Z.succ (Z.of_nat i) * (x1 - x0))
        with (n / 2 + Z.of_nat i * (x1 - x0) + (x1 - x0)) by lia.
      replace (n / 2 + Z.succ (Z.of_nat i) * (y1 - y0))
        with (n / 2 + Z.of_nat i * (y1 - y0) + (y1 - y0)) by lia.
      pose proof (div_step (n / 2 + Z.of_nat i * (x1 - x0)) (x1 - x0) n Hn).
      pose proof (div_step (n / 2 + Z.of_nat i * (y1 - y0)) (y1 - y0) n Hn).
      subst n. lia.
Qed.

Lemma calculate_all_coords_line_witness :
  length (calculate_all_coords 3 7 (- 2) 9) = 6%nat
  /\ head (calculate_all_coords 3 7 (- 2) 9) = Some (3, 7)
  /\ last (calculate_all_coords 3 7 (- 2) 9) = Some (- 2, 9)
  /\ forall i p q,
       calculate_all_coords 3 7 (- 2) 9 !! i = Some p ->
       calculate_all_coords 3 7 (- 2) 9 !! S i = Some q ->
       Z.abs (q.1 - p.1) <= 1 /\ Z.abs (q.2 - p.2) <= 1.
Proof.
  apply (calculate_all_coords_line 3 7 (- 2) 9); unfold small; try lia.
  discriminate.
Defined.

Lemma line_point_bounds x0 y0 x1 y1 n i :
  0 < n -> Z.abs (x1 - x0) <= n -> Z.abs (y1 - y0) <= n ->
  (i <= Z.to_nat n)%nat ->
  Z.abs ((line_point x0 y0 x1 y1 n i).1 - x0) <= n
  /\ Z.abs ((line_point x0 y0 x1 y1 n i).2 - y0) <= n.
Proof.
  intros Hn Hx Hy Hi. unfold line_point. cbn [fst snd].
  pose proof (half_bounds n Hn) as Hh.
  assert (Hq : forall d, Z.abs d <= n ->
                 Z.abs ((n / 2 + Z.of_nat i * d) / n) <= n).
  { intros d Hd.
    assert (H1 : (n / 2 + - n * n) / n <= (n / 2 + Z.of_nat i * d) / n)
      by (apply Z.div_le_mono; nia).
    assert (H2 : (n / 2 + Z.of_nat i * d) / n <= (n / 2 + n * n) / n)
      by (apply Z.div_le_mono; nia).
    rewrite Z.div_add, (Z.div_small (n / 2) n) in H1, H2 by lia. lia. }
  pose proof (Hq _ Hx). pose proof (Hq _ Hy). lia.
Qed.

Lemma total_diff_from a col :
  Z.abs a <= 1000000000 ->
  Forall (fun v => Z.abs v <= 1000000000) col ->
  total (zip_with (fun v w => int32 (v - w)) col (a :: col))
  = default a (last col) - a.
Proof.
  intros Ha Hcol. revert a Ha.
  induction Hcol as [|v col Hv _ IH]; intros a Ha.
  - simpl. lia.
  - cbv beta in Hv. cbn [zip_with total foldr]. fold (total
      (zip_with (fun v w => int32 (v - w)) col (v :: col))).
    rewrite IH by done. rewrite int32_small by lia.
    destruct col as [|w col]; [simpl; lia|].
    rewrite !last_cons_cons.
    destruct (last (w :: col)) eqn:E; [simpl; lia|].
    by apply last_None in E.
Qed.

Lemma total_diff_prepend0 col tgt :
  Forall (fun v => Z.abs v <= 1000000000) (col ++ [tgt]) ->
  total (diff_prepend0 (col ++ [tgt])) = tgt.
Proof.
  intros H. unfold diff_prepend0. rewrite total_diff_from by (done || lia).
  rewrite last_snoc. simpl. lia.
Qed.

Lemma calculate_all_coords_bounded x y :
  small x -> small y ->
  Forall (fun p => Z.abs p.1 <= 32768 /\ Z.abs p.2 <= 32768)
    (calculate_all_coords 0 0 x y).
Proof.
  intros Hx Hy.
  destruct (decide ((0, 0) = (x, y))) as [[= <- <-]|Hne].
  - repeat constructor; simpl; lia.
  - assert (H0 : small 0) by (unfold small; lia).
    apply Forall_lookup. intros i p.
    rewrite (calculate_all_coords_at 0 0 x y i H0 H0 Hx Hy Hne). cbv zeta.
    set (n := Z.max (Z.abs (x - 0)) (Z.abs (y - 0))).
    destruct (Nat.ltb_spec i (Z.to_nat (n + 1))); [|done].
    intros [= <-].
    assert (Hn : 0 < n).
    { subst n. destruct (Z.eq_dec x 0), (Z.eq_dec y 0); try lia.
      exfalso. apply Hne. by subst. }
    pose proof (line_point_bounds 0 0 x y n i Hn) as Hb.
    unfold small in *. subst n. lia.
Qed.

(** X20: the moves of [natural_mouse_movement_relative(x, y)] add up to
    [(2 x, 2 y)]: the cursor ends displaced by twice the offset asked for,
    for offsets of at most 13 bits. *)
Theorem natural_mouse_movement_relative_total x y :
  - 8192 <= x <= 8192 -> - 8192 <= y <= 8192 ->
  total ((natural_mouse_movement_relative x y).*1) = 2 * x
  /\ total ((natural_mouse_movement_relative x y).*2) = 2 * y.
Proof.
  intros Hx Hy. unfold natural_mouse_movement_relative. cbv zeta.
  pose proof (calculate_all_coords_bounded (x * 2) (y * 2)) as Hb.
  assert (Hb' : Forall (fun p => Z.abs p.1 <= 32768 /\ Z.abs p.2 <= 32768)
                  (calculate_all_coords 0 0 (x * 2) (y * 2)))
    by (apply Hb; unfold small; lia).
  clear Hb. rewrite !fmap_app. cbn [fmap list_fmap fst snd].
  set (c1 := (calculate_all_coords 0 0 (x * 2) (y * 2)).*1).
  set (c2 := (calculate_all_coords 0 0 (x * 2) (y * 2)).*2).
  assert (H1 : Forall (fun v => Z.abs v <= 1000000000) (c1 ++ [x * 2])).
  { apply Forall_app. split; [|constructor; [lia|constructor]].
    subst c1. apply Forall_fmap. eapply Forall_impl; [exact Hb'|].
    intros p [? ?]. simpl. lia. }
  assert (H2 : Forall (fun v => Z.abs v <= 1000000000) (c2 ++ [y * 2])).
  { apply Forall_app. split; [|constructor; [lia|constructor]].
    subst c2. apply Forall_fmap. eapply Forall_impl; [exact Hb'|].
    intros p [? ?]. simpl. lia. }
  assert (Hlen : length (diff_prepend0 (c1 ++ [x * 2]))
                 = length (diff_prepend0 (c2 ++ [y * 2]))).
  { unfold diff_prepend0. rewrite !length_zip_with. cbn [length].
    subst c1 c2. rewrite !length_app, !length_fmap. reflexivity. }
  split.
  - rewrite fst_zip by lia. rewrite total_diff_prepend0 by done. lia.
  - rewrite snd_zip by lia. rewrite total_diff_prepend0 by done. lia.
Qed.

Lemma natural_mouse_movement_relative_total_witness :
  total ((natural_mouse_movement_relative 3 (- 1)).*1) = 2 * 3
  /\ total ((natural_mouse_movement_relative 3 (- 1)).*2) = 2 * - 1.
Proof. apply (natural_mouse_movement_relative_total 3 (- 1)); lia. Defined.

(** ** Modifiers *)

Lemma parse_keys_while_modifier fuel string ws wt wn vkp keys mods esc index
    c m :
  Py.getitem string index = Some c -> MODIFIERS !! c = Some m ->
  parse_keys_while (S fuel) string ws wt wn vkp keys mods esc index
  = parse_keys_while fuel string ws wt wn vkp
      (keys ++ [VirtualKeyAction m true false]) (mods ++ [m]) esc (S index).
Proof.
  intros Hc Hm. cbn [parse_keys_while]. by rewrite Hc, Hm.
Qed.

Lemma parse_keys_while_modifiers ws wt wn vkp ms :
  forall done suf fuel keys mods,
  Forall (fun a => is_Some (MODIFIERS !! one_char a)) ms ->
  parse_keys_while (length ms + fuel) (Py.str (done ++ ms ++ suf))
    ws wt wn vkp keys mods false (length done)
  = parse_keys_while fuel (Py.str (done ++ ms ++ suf)) ws wt wn vkp
      (keys ++ hold_all (modifier_codes ms)) (mods ++ modifier_codes ms)
      false (length done + length ms).
Proof.
  induction ms as [|a ms IH]; intros done suf fuel keys mods Hms.
  - simpl. by rewrite !app_nil_r, Nat.add_0_r.
  - inversion Hms as [|? ? [m Hm] Hms']; subst.
    cbn [length Nat.add app].
    rewrite (parse_keys_while_modifier _ _ _ _ _ _ _ _ _ _ (one_char a) m);
      [|apply getitem_str_app|done].
    specialize (IH (done ++ [a]) suf fuel).
    rewrite <- (app_assoc done [a]) in IH. cbn [app] in IH.
    rewrite length_app in IH. cbn [length] in IH.
    replace (length done + 1)%nat with (S (length done)) in IH by lia.
    replace (length done + S (length ms))%nat
      with (S (length done) + length ms)%nat by lia.
    rewrite IH by done.
    unfold modifier_codes, hold_all. cbn [omap list_omap]. rewrite Hm.
    cbn [fmap list_fmap]. by rewrite <- !app_assoc.
Qed.

(** X21: modifier characters act on the next character only. For a run of
    modifiers, a character that is neither special nor dropped, and a text
    free of special characters, [parse_keys] holds the modifiers down in
    the order written, types the character as an escaped key (ENTER for
    [~] and newline), releases the modifiers in the reverse order, and
    compiles the rest as unmodified text. *)
Theorem parse_keys_modifiers_next_char ms c rest ws wt wn vkp :
  Forall (fun a => is_Some (MODIFIERS !! one_char a)) (Py.chars ms) ->
  ms <> EmptyString ->
  is_special (one_char c) = false ->
  is_dropped (one_char c) ws wt wn = false ->
  Forall (fun a => is_special (one_char a) = false) (Py.chars rest) ->
  parse_keys (ms +:+ String c rest) ws wt wn vkp
  = Ok (hold_all (modifier_codes (Py.chars ms))
        ++ [char_action (one_char c) true vkp]
        ++ release_all (modifier_codes (Py.chars ms))
        ++ plain_actions ws wt wn vkp (Py.chars rest)).
Proof.
  intros Hms Hne Hc Hd Hrest. unfold parse_keys. rewrite append_str.
  set (s := Py.str (Py.chars ms ++ c :: Py.chars rest)).
  replace (S (Py.len s))
    with (length (Py.chars ms) + S (length (Py.chars rest) + 1))%nat
    by (subst s; unfold Py.len; rewrite length_str, length_app; simpl; lia).
  pose proof (parse_keys_while_modifiers ws wt wn vkp (Py.chars ms) []
                (c :: Py.chars rest) (S (length (Py.chars rest) + 1)) []
                [] Hms) as H1.
  cbn [app length Nat.add] in H1. fold s in H1. rewrite H1. clear H1.
  rewrite (parse_keys_while_plain _ _ _ _ _ _ _ _ _ _ (one_char c));
    [|subst s; apply getitem_str_app|done].
  rewrite Hd.
  assert (Hmods : bool_decide (modifier_codes (Py.chars ms) = []) = false).
  { apply bool_decide_eq_false. destruct ms as [|a ms]; [done|].
    inversion Hms as [|? ? [m Hm] _]; subst.
    unfold modifier_codes. cbn [Py.chars list_ascii_of_string omap list_omap].
    by rewrite Hm. }
  rewrite Hmods. cbn [negb orb].
  pose proof (parse_keys_while_plain_prefix ws wt wn vkp (Py.chars rest)
                (Py.chars ms ++ [c]) [] 1%nat
                ((hold_all (modifier_codes (Py.chars ms))
                  ++ [char_action (one_char c) true vkp])
                 ++ release_all (modifier_codes (Py.chars ms))) Hrest) as H2.
  rewrite app_nil_r, <- app_assoc in H2. cbn [app] in H2. fold s in H2.
  rewrite length_app in H2. cbn [length] in H2.
  replace (length (Py.chars ms) + 1)%nat with (S (length (Py.chars ms)))
    in H2 by lia.
  rewrite H2. clear H2. cbn [parse_keys_while].
  assert (He : Py.getitem s (S (length (Py.chars ms))
                             + length (Py.chars rest)) = None).
  { pose proof (getitem_str_end (Py.chars ms ++ c :: Py.chars rest)) as He.
    rewrite length_app in He. cbn [length] in He. fold s in He.
    by replace (S (length (Py.chars ms)) + length (Py.chars rest))%nat
         with (length (Py.chars ms) + S (length (Py.chars rest)))%nat
         by lia. }
  rewrite He. cbn [release_all rev fmap list_fmap result_fmap fst].
  by rewrite app_nil_r, <- !app_assoc.
Qed.

Lemma parse_keys_modifiers_next_char_witness :
  parse_keys "^+ab" false false false true
  = Ok [VirtualKeyAction 17 true false; VirtualKeyAction 16 true false;
        EscapedKeyAction "a" true true;
        VirtualKeyAction 16 false true; VirtualKeyAction 17 false true;
        KeyAction "b" true true].
Proof.
  apply (parse_keys_modifiers_next_char "^+" "a" "b" false false false true);
    try (vm_compute; reflexivity); try discriminate.
  - repeat (constructor; [by eexists|]). constructor.
  - repeat (constructor; [vm_compute; reflexivity|]). constructor.
Defined.

(** ** Key events in braces *)

Lemma escaped_text_cons ws wt wn vkp a l :
  escaped_text ws wt wn vkp (a :: l)
  = (if is_dropped (one_char a) ws wt wn then []
     else [char_action (one_char a) true vkp])
    ++ escaped_text ws wt wn vkp l.
Proof. reflexivity. Qed.

Lemma parse_keys_while_escaped_prefix ws wt wn vkp pre :
  forall done suf fuel keys,
  Forall (fun a => is_special (one_char a) = false) pre ->
  parse_keys_while (length pre + fuel) (Py.str (done ++ pre ++ suf))
    ws wt wn vkp keys [] true (length done)
  = parse_keys_while fuel (Py.str (done ++ pre ++ suf)) ws wt wn vkp
      (keys ++ escaped_text ws wt wn vkp pre) [] true
      (length done + length pre).
Proof.
  induction pre as [|a pre IH]; intros done suf fuel keys Hp.
  - simpl. by rewrite app_nil_r, Nat.add_0_r.
  - inversion Hp as [|? ? Ha Hp']; subst.
    cbn [length Nat.add app].
    rewrite (parse_keys_while_plain _ _ _ _ _ _ _ _ _ _ (one_char a));
      [|apply getitem_str_app|done].
    specialize (IH (done ++ [a]) suf fuel).
    rewrite <- (app_assoc done [a]) in IH. cbn [app] in IH.
    rewrite length_app in IH. cbn [length] in IH.
    replace (length done + 1)%nat with (S (length done)) in IH by lia.
    replace (length done + S (length pre))%nat
      with (S (length done) + length pre)%nat by lia.
    rewrite escaped_text_cons.
    destruct (is_dropped (one_char a) ws wt wn).
    + rewrite IH by done. reflexivity.
    + rewrite IH by done. cbn [release_all rev fmap list_fmap bool_decide].
      rewrite orb_true_r, app_nil_r, <- app_assoc. reflexivity.
Qed.

Lemma index_closing_brace_rest body rest :
  String.index 0 "}" body = None ->
  String.index 0 "}" (body +:+ String "}" rest)
  = Some (String.length body).
Proof.
  induction body as [|b body IH].
  - intros _. cbn [String.append String.index String.prefix].
    destruct (ascii_dec "}" "}"); [|done]. by destruct rest.
  - change (String b body +:+ String "}" rest)
      with (String b (body +:+ String "}" rest)).
    cbn [String.index String.length].
    assert (Hpre : forall t, String.prefix "}" (String b t)
                             = if ascii_dec "}" b then true else false).
    { intros t. cbn [String.prefix].
      destruct (ascii_dec "}" b); [by destruct t|done]. }
    rewrite !Hpre. destruct (ascii_dec "}" b); [done|].
    destruct (String.index 0 "}" body) eqn:Hi; [done|].
    intros _. by rewrite IH.
Qed.

Lemma handle_code_rec_irrelevant rec rec' code vkp :
  Py.contains " " code = false ->
  handle_code rec code vkp = handle_code rec' code vkp.
Proof. intros Hsp. unfold handle_code. by rewrite Hsp. Qed.

(** X22: a key event in braces escapes everything after it. When the text
    between the braces holds [" up"] or [" down"] and splits at its space
    into a code and an event, [parse_keys] emits the action of the code,
    escaped if it is a character, with [down] cleared for the event [up]
    and [up] cleared for any other event; from then on every character of
    a text without special characters compiles to an escaped key. *)
Theorem parse_keys_key_event rec body code ev k0 rest ws wt wn vkp :
  has_key_event body = true ->
  Py.split_space body = [code; ev] ->
  body <> EmptyString ->
  Py.find "}" body 1 = None ->
  handle_code rec code vkp = Ok [k0] ->
  Forall (fun a => is_special (one_char a) = false) (Py.chars rest) ->
  parse_keys ("{" +:+ body +:+ "}" +:+ rest) ws wt wn vkp
  = Ok (qualify ev k0 :: escaped_text ws wt wn vkp (Py.chars rest)).
Proof.
  intros Hev Hsplit Hne Hbr Hcode Hrest.
  destruct body as [|b body]; [destruct (Hne eq_refl)|]. clear Hne.
  change ("{" +:+ String b body +:+ "}" +:+ rest)
    with (String "{" (String b body +:+ String "}" rest)).
  set (s := String "{" (String b body +:+ String "}" rest)).
  assert (Hfind : Py.find "}" s 2 = Some (S (Py.len (String b body)))).
  { subst s. unfold Py.find in *.
    change (String b body +:+ String "}" rest)
      with (String b (body +:+ String "}" rest)).
    cbn [String.index] in Hbr |- *.
    destruct (String.index 0 "}" body) eqn:Hi; [discriminate Hbr|].
    by rewrite (index_closing_brace_rest _ _ Hi). }
  assert (Hslice : Py.slice s 1 (S (Py.len (String b body)))
                   = String b body).
  { subst s. unfold Py.slice, Py.len.
    replace (S (String.length (String b body)) - 1)%nat
      with (String.length (String b body)) by lia.
    apply (substring_append (String b body) (String "}" rest)). }
  assert (Hs : s = Py.str (("{"%char :: Py.chars (String b body) ++ ["}"%char])
                           ++ Py.chars rest ++ [])).
  { subst s. rewrite app_nil_r. cbn [app]. unfold Py.str.
    cbn [string_of_list_ascii]. f_equal.
    rewrite <- app_assoc. cbn [app].
    fold (Py.str (Py.chars (String b body) ++ "}"%char :: Py.chars rest)).
    by rewrite <- append_str. }
  assert (Hsp : Py.contains " " code = false)
    by (by eapply split_space_no_space).
  unfold parse_keys.
  assert (Hlen : Py.len s
                 = (length (Py.chars rest)
                    + S (S (Py.len (String b body))))%nat).
  { rewrite Hs. unfold Py.len. rewrite length_str, length_app, app_nil_r.
    cbn [length]. rewrite length_app, length_chars. cbn [length]. lia. }
  unfold s at 1.
  rewrite (parse_keys_while_brace _ _ _ _ _ _ _ _ _ _ Hfind). fold s.
  rewrite Hslice. unfold parse_braces. rewrite Hev, Hsplit.
  rewrite result_bind_Ok.
  rewrite (handle_code_rec_irrelevant _ rec _ _ Hsp), Hcode.
  rewrite result_bind_Ok.
  assert (Hk0 : forall t, k0 <> PauseAction t).
  { intros t ->. unfold handle_code in Hcode. rewrite Hsp in Hcode.
    destruct (CODES !! code); [discriminate Hcode|].
    destruct (Py.len code =? 1)%nat; [|discriminate Hcode].
    by destruct (if negb vkp then ascii_vk !! code else None). }
  assert (Hq : (k1 ← match k0 with
                     | KeyAction key _ _ | EscapedKeyAction key _ _ =>
                         Ok (EscapedKeyAction key true true)
                     | VirtualKeyAction _ _ _ => Ok k0
                     | PauseAction _ => Raise AttributeError
                     end;
                Ok ((if String.eqb (Py.strip ev) "up"
                     then set_down_false k1 else set_up_false k1)
                    :: @nil Action, true))
               = Ok ([qualify ev k0], true)).
  { unfold qualify. destruct k0 as [| | |t]; try reflexivity.
    by destruct (Hk0 t). }
  rewrite Hq, result_bind_Ok. cbn [app release_all rev fmap list_fmap].
  rewrite ?app_nil_r, Hlen.
  assert (Hidx : length ("{"%char :: Py.chars (String b body) ++ ["}"%char])
                 = S (S (Py.len (String b body)))).
  { cbn [length]. rewrite length_app, length_chars. cbn [length].
    unfold Py.len. lia. }
  pose proof (parse_keys_while_escaped_prefix ws wt wn vkp (Py.chars rest)
                ("{"%char :: Py.chars (String b body) ++ ["}"%char]) []
                (S (S (Py.len (String b body)))) [qualify ev k0] Hrest)
    as H2.
  rewrite <- Hs, Hidx in H2. rewrite H2. cbn [parse_keys_while].
  assert (He : Py.getitem s (S (S (Py.len (String b body)))
                             + length (Py.chars rest)) = None).
  { pose proof (getitem_str_end
                  (("{"%char :: Py.chars (String b body) ++ ["}"%char])
                   ++ Py.chars rest ++ [])) as He.
    rewrite <- Hs in He. rewrite app_nil_r, length_app, Hidx in He.
    exact He. }
  rewrite He. cbn [release_all rev fmap list_fmap result_fmap fst].
  by rewrite app_nil_r.
Qed.

Lemma parse_keys_key_event_witness :
  parse_keys "{a down}b c" true false false true
  = Ok [EscapedKeyAction "a" true false; EscapedKeyAction "b" true true;
        EscapedKeyAction " " true true; EscapedKeyAction "c" true true].
Proof.
  apply (parse_keys_key_event (fun _ _ => Ok []) "a down" "a" "down"
           (KeyAction "a" true true) "b c" true false false true);
    try (vm_compute; reflexivity); try discriminate.
  repeat (constructor; [vm_compute; reflexivity|]). constructor.
Defined.
